(** * TB Chest Analyzer: the data service, embedded and verified

    A shallow embedding of [js/services/dataService.js] (class [DataService])
    and of the part of [js/services/errorHandler.js] it calls, followed by the
    theorems that settle the properties stated for the aggregation engine;
    then the rest of the data service (the data source, the copy of the
    cache in the local storage), the error handler in full and the
    comparison list of [js/controllers/playerController.js], with further
    properties of the code.

    Layout: module [JS] holds the fragment of the ECMAScript value semantics
    the service relies on (numbers, loose typing, string scanning, array
    sort); module [DataService] holds the service itself, method by method,
    under the names of the source; modules [DataStore], [ErrorLog] and
    [PlayerController] hold the other classes; then come the vocabulary in
    which the properties are stated, the lemmas on the fragment, and the
    theorems.

    Conventions: a method that reads or writes [this] is a function in the
    state monad [DataService.M]; code that may throw returns a
    [DataService.result]; what the environment decides (the clock, the
    network, the space left in the storage) is an argument. *)

From Stdlib Require Import ZArith QArith Qround Qabs Bool List String Ascii.
From Stdlib Require Import DecimalString.
From Stdlib Require OrderedTypeEx.
From Stdlib Require Import Lia Lqa Permutation Sorted.
Import ListNotations.

Set Implicit Arguments.

(* ================================================================== *)
(** * The JavaScript fragment *)
(* ================================================================== *)

Module JS.

(** ** Numbers

    A JavaScript Number is an IEEE-754 double.  The embedding keeps the three
    kinds of value the service can tell apart -- [NaN], the two infinities
    and the finite values -- and idealises a finite double as the exact
    rational it denotes: rounding is not modelled, nor the overflow of a
    finite result to [Infinity], and [-0] is identified with [0].  Every
    comparison, sign test and [NaN]/[Infinity] propagation below follows the
    ECMAScript rules for the operator named in the comment.  The properties
    of sums and quotients are therefore stated either for numbers on which
    the arithmetic of the language is exact, or without a word on the size
    of the result. *)

Inductive number : Type :=
| NaN
| Infinity (negative : bool)
| Fin (q : Q).

Definition Qlt_bool (x y : Q) : bool := negb (Qle_bool y x).

Definition is_nan (n : number) : bool :=
  match n with NaN => true | _ => false end.

Definition is_finite (n : number) : bool :=
  match n with Fin _ => true | _ => false end.

(** [a < b] on Numbers: false as soon as one side is [NaN]. *)
Definition num_lt (a b : number) : bool :=
  match a, b with
  | NaN, _ => false
  | _, NaN => false
  | Infinity sa, Infinity sb => sa && negb sb
  | Infinity sa, Fin _ => sa
  | Fin _, Infinity sb => negb sb
  | Fin x, Fin y => Qlt_bool x y
  end.

(** [a <= b] is "not (b < a)", except that it is false on [NaN]. *)
Definition num_le (a b : number) : bool :=
  match a, b with
  | NaN, _ => false
  | _, NaN => false
  | _, _ => negb (num_lt b a)
  end.

Definition num_gt (a b : number) : bool := num_lt b a.
Definition num_ge (a b : number) : bool := num_le b a.

(** [a === b] on Numbers: [NaN] differs from itself. *)
Definition num_eq (a b : number) : bool :=
  match a, b with
  | Infinity sa, Infinity sb => Bool.eqb sa sb
  | Fin x, Fin y => Qeq_bool x y
  | _, _ => false
  end.

Definition num_neg (a : number) : number :=
  match a with
  | NaN => NaN
  | Infinity s => Infinity (negb s)
  | Fin x => Fin (- x)
  end.

(** [a + b] on Numbers: opposite infinities give [NaN]. *)
Definition num_add (a b : number) : number :=
  match a, b with
  | NaN, _ => NaN
  | _, NaN => NaN
  | Infinity sa, Infinity sb => if Bool.eqb sa sb then Infinity sa else NaN
  | Infinity sa, Fin _ => Infinity sa
  | Fin _, Infinity sb => Infinity sb
  | Fin x, Fin y => Fin (Qred (x + y))
  end.

(** [a - b] on Numbers. *)
Definition num_sub (a b : number) : number := num_add a (num_neg b).

(** [a / b] on Numbers: [0/0] and [Infinity/Infinity] are [NaN], a non-zero
    finite value over [0] is an infinity, a finite value over an infinity is
    [0]. *)
Definition num_div (a b : number) : number :=
  match a, b with
  | NaN, _ => NaN
  | _, NaN => NaN
  | Infinity _, Infinity _ => NaN
  | Infinity sa, Fin y => Infinity (xorb sa (Qlt_bool y 0))
  | Fin _, Infinity _ => Fin 0
  | Fin x, Fin y =>
      if Qeq_bool y 0 then
        if Qeq_bool x 0 then NaN else Infinity (Qlt_bool x 0)
      else Fin (Qred (x / y))
  end.

Definition num_of_Z (z : Z) : number := Fin (inject_Z z).
Definition num_of_nat (n : nat) : number := num_of_Z (Z.of_nat n).

(** ** Characters and string scanning

    A JavaScript string is a sequence of 16-bit code units.  The embedding
    has the strings of the Standard Library, sequences of 8-bit characters,
    and reads them as the code units below 256. *)

Definition code (c : ascii) : nat := nat_of_ascii c.

(** [StrWhiteSpaceChar], over the 8-bit code units the embedding has. *)
Definition is_white_space (c : ascii) : bool :=
  let n := code c in
  ((9 <=? n) && (n <=? 13) || (n =? 32) || (n =? 160))%nat.

Definition is_digit (c : ascii) : bool :=
  ((48 <=? code c) && (code c <=? 57))%nat.

Definition digit_value (c : ascii) : Z := Z.of_nat (code c) - 48.

Definition digit_char (d : Z) : ascii := ascii_of_nat (48 + Z.to_nat d).

Fixpoint trim_start (s : string) : string :=
  match s with
  | String c r => if is_white_space c then trim_start r else s
  | EmptyString => s
  end.

Definition string_rev (s : string) : string :=
  string_of_list_ascii (rev (list_ascii_of_string s)).

Definition trim_end (s : string) : string :=
  string_rev (trim_start (string_rev s)).

Definition trim (s : string) : string := trim_end (trim_start s).

(** Reads an optional sign; the boolean is true for ["-"]. *)
Definition strip_sign (s : string) : bool * string :=
  match s with
  | String "-" r => (true, r)
  | String "+" r => (false, r)
  | _ => (false, s)
  end.

Fixpoint strip_prefix (p s : string) : option string :=
  match p, s with
  | EmptyString, _ => Some s
  | String a p', String b s' =>
      if Ascii.eqb a b then strip_prefix p' s' else None
  | String _ _, EmptyString => None
  end.

(** The longest run of decimal digits at the head of [s]: its value (on top
    of [acc]), its length (on top of [n]) and what follows it. *)
Fixpoint scan_digits (s : string) (acc : Z) (n : nat) : Z * nat * string :=
  match s with
  | String c r =>
      if is_digit c then scan_digits r (10 * acc + digit_value c) (S n)
      else (acc, n, s)
  | EmptyString => (acc, n, s)
  end.

(** [m * 10^e] as a Number. *)
Definition scale10 (m e : Z) : number :=
  Fin (Qred (if (0 <=? e)%Z then inject_Z (m * 10 ^ e)
             else Qmake m (Z.to_pos (10 ^ (- e))))).

(** The optional [ExponentPart]: [e] or [E], an optional sign and at least
    one digit.  Without a digit nothing is consumed. *)
Definition scan_exponent (s : string) : Z * string :=
  match s with
  | String c r =>
      if (Ascii.eqb c "e" || Ascii.eqb c "E")%bool then
        let (neg, r1) := strip_sign r in
        let '(e, n, r2) := scan_digits r1 0 0 in
        if (n =? 0)%nat then (0%Z, s) else ((if neg then - e else e)%Z, r2)
      else (0%Z, s)
  | EmptyString => (0%Z, s)
  end.

(** The longest prefix of [s] that is a [StrDecimalLiteral], with what
    follows it; [None] when no prefix is one. *)
Definition scan_decimal (s : string) : option (number * string) :=
  let (neg, s1) := strip_sign s in
  match strip_prefix "Infinity" s1 with
  | Some r => Some (Infinity neg, r)
  | None =>
      let '(ip, n1, r1) := scan_digits s1 0 0 in
      let '(m, n2, r2) :=
        match r1 with
        | String "." r => scan_digits r ip 0
        | _ => (ip, 0%nat, r1)
        end in
      if (n1 + n2 =? 0)%nat then None
      else
        let (e, r3) := scan_exponent r2 in
        let m' := (if neg then - m else m)%Z in
        Some (scale10 m' (e - Z.of_nat n2), r3)
  end.

(** [parseFloat(s)] for a string [s]. *)
Definition parseFloat_string (s : string) : number :=
  match scan_decimal (trim_start s) with
  | Some (n, _) => n
  | None => NaN
  end.

(** [parseInt(s, 10)] for a string [s]: with an explicit radix of ten no
    ["0x"] prefix is recognised. *)
Definition parseInt_string (s : string) : number :=
  let (neg, s1) := strip_sign (trim_start s) in
  let '(v, n, _) := scan_digits s1 0 0 in
  if (n =? 0)%nat then NaN else num_of_Z (if neg then - v else v).

(** Digits of a non-decimal integer literal ([0x], [0o], [0b]). *)
Definition radix_digit (radix : Z) (c : ascii) : option Z :=
  let n := Z.of_nat (code c) in
  let d :=
    (if (48 <=? n) && (n <=? 57) then n - 48
     else if (97 <=? n) && (n <=? 102) then n - 87
     else if (65 <=? n) && (n <=? 70) then n - 55
     else radix)%Z in
  if (d <? radix)%Z then Some d else None.

Fixpoint scan_radix (radix : Z) (s : string) (acc : Z) : option Z :=
  match s with
  | EmptyString => Some acc
  | String c r =>
      match radix_digit radix c with
      | Some d => scan_radix radix r (radix * acc + d)%Z
      | None => None
      end
  end.

Definition radix_literal (radix : Z) (s : string) : number :=
  match s with
  | EmptyString => NaN
  | _ => match scan_radix radix s 0 with
         | Some v => num_of_Z v
         | None => NaN
         end
  end.

(** [StringToNumber]: the whole trimmed string has to be a numeric literal;
    the empty string is [0]. *)
Definition string_to_number (s : string) : number :=
  match trim s with
  | EmptyString => Fin 0
  | String "0" (String "x" r) | String "0" (String "X" r) => radix_literal 16 r
  | String "0" (String "o" r) | String "0" (String "O" r) => radix_literal 8 r
  | String "0" (String "b" r) | String "0" (String "B" r) => radix_literal 2 r
  | t => match scan_decimal t with
         | Some (n, EmptyString) => n
         | _ => NaN
         end
  end.

(** ** Printing numbers ([Number::toString], radix ten)

    A positive finite value is written [0.d1 d2 ... dk * 10^n] with [dk]
    non-zero; ECMAScript then chooses between plain and exponent notation
    from [k] and [n].  For the idealised rationals the digits are those of
    the exact decimal expansion, cut after 21 significant digits. *)

Definition nat_digits (p : positive) : Z :=
  Z.of_nat (Decimal.nb_digits (Pos.to_uint p)).

Fixpoint leading_zeros (fuel : nat) (a b : Z) : Z :=
  match fuel with
  | O => 0
  | S f => if (b <=? 10 * a)%Z then 0%Z else (1 + leading_zeros f (10 * a) b)%Z
  end.

(** The [n] with [10^(n-1) <= a/b < 10^n], for [0 < a] and [0 < b]. *)
Definition decimal_exponent (a b : Z) : Z :=
  if (b <=? a)%Z then nat_digits (Z.to_pos (a / b))
  else (- leading_zeros (Z.to_nat (Z.log2 b) + 1) a b)%Z.

(** Long division: the digits of [a/b] after the point, for [0 <= a < b]. *)
Fixpoint fraction_digits (fuel : nat) (a b : Z) : list Z :=
  match fuel with
  | O => []
  | S f =>
      if (a =? 0)%Z then []
      else ((10 * a) / b)%Z :: fraction_digits f ((10 * a) mod b)%Z b
  end.

Fixpoint strip_zeros (l : list Z) : list Z :=
  match l with
  | 0%Z :: r => strip_zeros r
  | _ => l
  end.

Definition significant_digits (a b n : Z) : list Z :=
  let '(a', b') :=
    if (0 <=? n)%Z then (a, b * 10 ^ n)%Z else (a * 10 ^ (- n), b)%Z in
  rev (strip_zeros (rev (fraction_digits 21 a' b'))).

Definition digits_string (l : list Z) : string :=
  string_of_list_ascii (map digit_char l).

Definition zeros (n : Z) : string :=
  string_of_list_ascii (repeat "0"%char (Z.to_nat n)).

Definition Z_to_string (z : Z) : string :=
  match z with
  | Z0 => "0"
  | Zpos p => NilEmpty.string_of_uint (Pos.to_uint p)
  | Zneg p => "-" ++ NilEmpty.string_of_uint (Pos.to_uint p)
  end.

Definition positive_to_string (a b : Z) : string :=
  let n := decimal_exponent a b in
  let ds := significant_digits a b n in
  let k := Z.of_nat (List.length ds) in
  if ((k <=? n) && (n <=? 21))%Z then
    digits_string ds ++ zeros (n - k)
  else if ((0 <? n) && (n <=? 21))%Z then
    digits_string (firstn (Z.to_nat n) ds) ++ "."
      ++ digits_string (skipn (Z.to_nat n) ds)
  else if ((-6 <? n) && (n <=? 0))%Z then
    "0." ++ zeros (- n) ++ digits_string ds
  else
    let e := ((if (0 <=? n - 1)%Z then "+" else "-")
                ++ Z_to_string (Z.abs (n - 1)))%string in
    match ds with
    | [d] => digits_string [d] ++ "e" ++ e
    | d :: r => digits_string [d] ++ "." ++ digits_string r ++ "e" ++ e
    | [] => "0"
    end.

Definition number_to_string (n : number) : string :=
  match n with
  | NaN => "NaN"
  | Infinity false => "Infinity"
  | Infinity true => "-Infinity"
  | Fin q =>
      match Qnum q with
      | Z0 => "0"
      | Zpos a => positive_to_string (Zpos a) (Zpos (Qden q))
      | Zneg a => "-" ++ positive_to_string (Zpos a) (Zpos (Qden q))
      end
  end.

(** ** Values

    The values a JSON document can put in the field of a record, and
    [undefined] for a field that is absent.  Objects and arrays nested in a
    field are outside the input contract and are not represented. *)

Inductive value : Type :=
| VUndefined
| VNull
| VBool (b : bool)
| VNum (n : number)
| VStr (s : string).

(** [ToBoolean]. *)
Definition truthy (v : value) : bool :=
  match v with
  | VUndefined | VNull => false
  | VBool b => b
  | VNum NaN => false
  | VNum (Infinity _) => true
  | VNum (Fin q) => negb (Qeq_bool q 0)
  | VStr EmptyString => false
  | VStr _ => true
  end.

(** [a || b]. *)
Definition js_or (a b : value) : value := if truthy a then a else b.

(** [ToNumber]. *)
Definition to_number (v : value) : number :=
  match v with
  | VUndefined => NaN
  | VNull => Fin 0
  | VBool true => Fin 1
  | VBool false => Fin 0
  | VNum n => n
  | VStr s => string_to_number s
  end.

(** [ToString]. *)
Definition to_string (v : value) : string :=
  match v with
  | VUndefined => "undefined"
  | VNull => "null"
  | VBool true => "true"
  | VBool false => "false"
  | VNum n => number_to_string n
  | VStr s => s
  end.

(** [a === b]. *)
Definition strict_equals (a b : value) : bool :=
  match a, b with
  | VUndefined, VUndefined => true
  | VNull, VNull => true
  | VBool x, VBool y => Bool.eqb x y
  | VNum x, VNum y => num_eq x y
  | VStr x, VStr y => String.eqb x y
  | _, _ => false
  end.

(** [SameValueZero], the equality of [Set] and of [Array.prototype.includes]:
    strict equality, except that [NaN] equals itself. *)
Definition same_value_zero (a b : value) : bool :=
  match a, b with
  | VNum NaN, VNum NaN => true
  | _, _ => strict_equals a b
  end.

(** [isNaN(n)] for a Number [n]. *)
Definition isNaN (n : number) : bool := is_nan n.

(** The relational operators with a Number on the right: the left operand
    goes through [ToNumber] (the comparison of two strings by code units
    never arises in the service: every right operand is a Number). *)
Definition js_lt (v : value) (n : number) : bool := num_lt (to_number v) n.
Definition js_le (v : value) (n : number) : bool := num_le (to_number v) n.
Definition js_gt (v : value) (n : number) : bool := num_gt (to_number v) n.
Definition js_ge (v : value) (n : number) : bool := num_ge (to_number v) n.

(** [a - b] and [a / b]: both operands go through [ToNumber]. *)
Definition js_sub (a b : value) : number := num_sub (to_number a) (to_number b).
Definition js_div (a b : value) : number := num_div (to_number a) (to_number b).

(** [a + b]: concatenation as soon as one operand is a string. *)
Definition js_add (a b : value) : value :=
  match a, b with
  | VStr _, _ | _, VStr _ => VStr (to_string a ++ to_string b)
  | _, _ => VNum (num_add (to_number a) (to_number b))
  end.

(** [parseInt(v, 10)] and [parseFloat(v)]: the argument goes through
    [ToString] first. *)
Definition parseInt (v : value) : number := parseInt_string (to_string v).
Definition parseFloat (v : value) : number := parseFloat_string (to_string v).

(** ** String methods *)

Definition lower_char (c : ascii) : ascii :=
  let n := code c in
  if ((65 <=? n) && (n <=? 90)
      || (192 <=? n) && (n <=? 222) && negb (n =? 215))%nat
  then ascii_of_nat (n + 32) else c.

Definition upper_char (c : ascii) : ascii :=
  let n := code c in
  if ((97 <=? n) && (n <=? 122))%nat then ascii_of_nat (n - 32) else c.

(** [s.toLowerCase()], on the 8-bit code units the embedding has, and
    [s.toUpperCase()], which the service applies to the first letter of a
    metric name only. *)
Fixpoint toLowerCase (s : string) : string :=
  match s with
  | EmptyString => EmptyString
  | String c r => String (lower_char c) (toLowerCase r)
  end.

Fixpoint toUpperCase (s : string) : string :=
  match s with
  | EmptyString => EmptyString
  | String c r => String (upper_char c) (toUpperCase r)
  end.

(** [s.includes(t)]: [t] occurs in [s] as a substring. *)
Fixpoint includes (s t : string) : bool :=
  match strip_prefix t s with
  | Some _ => true
  | None => match s with
            | EmptyString => false
            | String _ r => includes r t
            end
  end.

(** [s.charAt(0)] and [s.slice(1)]. *)
Definition charAt0 (s : string) : string :=
  match s with
  | EmptyString => EmptyString
  | String c _ => String c EmptyString
  end.

Definition slice1 (s : string) : string :=
  match s with
  | EmptyString => EmptyString
  | String _ r => r
  end.

(** ** Arrays *)

(** [[...new Set(l)]]: the first occurrence of every element, in order. *)
Fixpoint set_of (l : list value) : list value :=
  match l with
  | [] => []
  | x :: r => x :: filter (fun y => negb (same_value_zero x y)) (set_of r)
  end.

(** [l.includes(v)]. *)
Definition array_includes (l : list value) (v : value) : bool :=
  existsb (same_value_zero v) l.

(** [l.slice(0, n)]. *)
Definition slice0 {A : Type} (n : nat) (l : list A) : list A := firstn n l.

Section Sort.
Variable A : Type.

(** [SortCompare] with a comparison function [cmp]: the sign of
    [cmp x y], where a [NaN] result counts as [0]. *)
Variable cmp : A -> A -> number.

Definition sorts_after (x y : A) : bool := num_gt (cmp x y) (Fin 0).

(** [Array.prototype.sort] is stable.  With a consistent comparison
    function the result is the one stable arrangement; the embedding
    computes it by insertion from the right, where an element moves past
    exactly the elements it has to come after.  (With an inconsistent
    comparison function ECMAScript leaves the order to the engine.) *)
Fixpoint sort_insert (x : A) (l : list A) : list A :=
  match l with
  | [] => [x]
  | y :: r => if sorts_after x y then y :: sort_insert x r else x :: l
  end.

Fixpoint array_sort (l : list A) : list A :=
  match l with
  | [] => []
  | x :: r => sort_insert x (array_sort r)
  end.
End Sort.

(** The default comparison of [sort()]: by [ToString], code unit by code
    unit.  ([sort()] moves [undefined] elements to the end without comparing
    them; the lists the service sorts hold none.) *)
Definition default_compare (a b : value) : number :=
  match String.compare (to_string a) (to_string b) with
  | Lt => Fin (-1)
  | Eq => Fin 0
  | Gt => Fin 1
  end.

End JS.

(* ================================================================== *)
(** * The error handler, as the data service sees it *)
(* ================================================================== *)

Module ErrorHandler.

(** What a [catch] block can receive.  The message of a [TypeError] or of a
    [SyntaxError] is chosen by the engine and is not represented. *)
Inductive js_error : Type :=
| TypeError
| SyntaxError
| Error (message : string).

(** One call [handleError(error, source, showToUser)].  The parameter
    [showToUser] defaults to [true] when the caller leaves it out. *)
Record report : Type := {
  error : js_error;
  source : string;
  showToUser : bool
}.

(** [handleError] catches whatever goes wrong inside it, so it always
    returns to its caller.  The service observes nothing of what the handler
    does with a report (the bounded log, the notification, the console);
    the embedding keeps the sequence of reports handed over, newest first. *)
Definition handleError (e : js_error) (src : string) (show : bool)
    (reports : list report) : list report :=
  {| error := e; source := src; showToUser := show |} :: reports.

End ErrorHandler.

(* ================================================================== *)
(** * The data model *)
(* ================================================================== *)

(** An element of the [players] array of the input document.  A field that
    is absent reads as [undefined]. *)
Module Raw.
Record t : Type := {
  id : JS.value;
  name : JS.value;
  alliance : JS.value;
  server : JS.value;
  score : JS.value;
  chests : JS.value
}.
End Raw.

(** A record of the cache, as [_processData] builds it. *)
Module Player.
Record t : Type := {
  id : JS.value;
  name : JS.value;
  alliance : JS.value;
  server : JS.value;
  score : JS.value;
  chests : JS.value;
  ratio : JS.value
}.

(** [player[key]]. *)
Definition get (p : t) (key : string) : JS.value :=
  if String.eqb key "id" then id p
  else if String.eqb key "name" then name p
  else if String.eqb key "alliance" then alliance p
  else if String.eqb key "server" then server p
  else if String.eqb key "score" then score p
  else if String.eqb key "chests" then chests p
  else if String.eqb key "ratio" then ratio p
  else JS.VUndefined.
End Player.

(** The filter criteria read by [getFilteredPlayers]. *)
Module Filters.
Record t : Type := {
  playerSearch : JS.value;
  selectedServer : JS.value;
  selectedAlliance : JS.value;
  minScore : JS.value;
  maxScore : JS.value;
  minChests : JS.value;
  maxChests : JS.value;
  minRatio : JS.value;
  maxRatio : JS.value
}.

(** The object [{}]. *)
Definition empty : t :=
  {| playerSearch := JS.VUndefined; selectedServer := JS.VUndefined;
     selectedAlliance := JS.VUndefined;
     minScore := JS.VUndefined; maxScore := JS.VUndefined;
     minChests := JS.VUndefined; maxChests := JS.VUndefined;
     minRatio := JS.VUndefined; maxRatio := JS.VUndefined |}.
End Filters.

(** The value of a [Date]: milliseconds since the epoch, or an invalid
    date, whose time value is [NaN]. *)
Inductive Date : Type :=
| InvalidDate
| DateAt (ms : Z).

Definition time_value (d : Date) : JS.number :=
  match d with
  | InvalidDate => JS.NaN
  | DateAt ms => JS.num_of_Z ms
  end.

(** [this._cache]. *)
Record Cache : Type := {
  players : list Player.t;
  alliances : list JS.value;
  servers : list JS.value;
  lastUpdated : option Date   (* [None] is [null] *)
}.

(** Chart-ready data: [{ series: [{ name, data }], categories }]. *)
Record Series : Type := {
  series_name : string;
  data : list JS.value
}.

Record ChartData : Type := {
  series : list Series;
  categories : list JS.value
}.

(** An argument that is either left out, [null], or an object. *)
Inductive argument (A : Type) : Type :=
| Omitted
| Null
| Obj (a : A).
Arguments Omitted {A}.
Arguments Null {A}.
Arguments Obj {A} a.

(** The [options] of [getChartData]: [{ filters, metric }]. *)
Record ChartOptions : Type := {
  filters : argument Filters.t;
  metric : JS.value
}.

(** The parsed body of the response. *)
Inductive players_field : Type :=
| PlayersFalsy                               (* absent, [null], [0], ... *)
| PlayersNotArray                            (* truthy, without a [map] *)
| PlayersArray (l : list (option Raw.t)).    (* [None] is a [null] entry *)

Inductive document : Type :=
| DocNull
| DocObject (players : players_field).

(** What [fetch(url)] followed by [response.json()] comes to. *)
Inductive body : Type :=
| BodyInvalid                 (* [response.json()] rejects *)
| BodyJson (data : document).

Inductive fetch_outcome : Type :=
| Rejected (e : ErrorHandler.js_error)
| Response (ok : bool) (status : nat) (b : body).

(** Modelled from the spec: [js/services/stateManager.js] is not among the
    sources.  The specification calls it a global publish/subscribe store;
    the service only writes keys with [setState] and reads them back with
    [getState], so the store is a map from keys to values. *)
Module StateManager.
Definition t : Type := string -> JS.value.
Definition initial : t := fun _ => JS.VUndefined.
Definition getState (key : string) (st : t) : JS.value := st key.
Definition setState (key : string) (v : JS.value) (st : t) : t :=
  fun k => if String.eqb k key then v else st k.
End StateManager.

(* ================================================================== *)
(** * The data service *)
(* ================================================================== *)

Module DataService.
Import JS ErrorHandler.

(** The service with its two collaborators: what the methods read and
    write. *)
Record Service : Type := {
  _cache : Cache;
  _dataSourceUrl : value;
  _stateManager : StateManager.t;
  _errorHandler : list report
}.

(** [this._cacheDuration = 60 * 60 * 1000]. *)
Definition _cacheDuration : number := num_of_Z (60 * 60 * 1000).

(** The service as the constructor leaves it. *)
Definition constructor : Service :=
  {| _cache := {| players := []; alliances := []; servers := [];
                  lastUpdated := None |};
     _dataSourceUrl := VStr "data/chest_data.json";
     _stateManager := StateManager.initial;
     _errorHandler := [] |}.

(** ** A state monad for the methods, and results for what may throw *)

Definition M (A : Type) : Type := Service -> A * Service.

Definition ret {A : Type} (a : A) : M A := fun s => (a, s).

Definition bind {A B : Type} (c : M A) (k : A -> M B) : M B :=
  fun s => let (a, s') := c s in k a s'.

Notation "x <- c ;; k" := (bind c (fun x => k))
  (at level 61, c at next level, right associativity).
Notation "c ;; k" := (bind c (fun _ => k))
  (at level 61, right associativity).

Definition setState (key : string) (v : value) : M unit :=
  fun s => (tt, {| _cache := _cache s;
                   _dataSourceUrl := _dataSourceUrl s;
                   _stateManager := StateManager.setState key v (_stateManager s);
                   _errorHandler := _errorHandler s |}).

Definition getState (key : string) : M value :=
  fun s => (StateManager.getState key (_stateManager s), s).

Definition handleError (e : js_error) (src : string) (show : bool) : M unit :=
  fun s => (tt, {| _cache := _cache s;
                   _dataSourceUrl := _dataSourceUrl s;
                   _stateManager := _stateManager s;
                   _errorHandler :=
                     ErrorHandler.handleError e src show (_errorHandler s) |}).

Definition set_cache (c : Cache) : M unit :=
  fun s => (tt, {| _cache := c;
                   _dataSourceUrl := _dataSourceUrl s;
                   _stateManager := _stateManager s;
                   _errorHandler := _errorHandler s |}).

(** A computation that returns or throws. *)
Definition result (A : Type) : Type := (js_error + A)%type.
Definition ok {A : Type} (a : A) : result A := inr a.
Definition throw {A : Type} (e : js_error) : result A := inl e.

Definition and_then {A B : Type} (r : result A) (k : A -> result B)
    : result B :=
  match r with
  | inl e => inl e
  | inr a => k a
  end.

(** [l.filter(f)] for a callback that may throw: the elements are visited in
    order and the first exception ends the call. *)
Fixpoint filter_throwing {A : Type} (f : A -> result bool) (l : list A)
    : result (list A) :=
  match l with
  | [] => ok []
  | x :: r =>
      and_then (f x) (fun keep =>
      and_then (filter_throwing f r) (fun r' =>
      ok (if keep then x :: r' else r')))
  end.

(** [l.map(f)] with an index, for a callback that may throw. *)
Fixpoint map_throwing {A B : Type} (f : A -> nat -> result B) (index : nat)
    (l : list A) : result (list B) :=
  match l with
  | [] => ok []
  | x :: r =>
      and_then (f x index) (fun y =>
      and_then (map_throwing f (S index) r) (fun r' =>
      ok (y :: r')))
  end.

(** ** Queries *)

(** [isDataLoaded()]. *)
Definition isDataLoaded (s : Service) : bool :=
  (0 <? List.length (players (_cache s)))%nat.

(** [getPlayers()], [getAlliances()], [getServers()]: copies of the lists. *)
Definition getPlayers : M (list Player.t) :=
  fun s => (players (_cache s), s).
Definition getAlliances : M (list value) :=
  fun s => (alliances (_cache s), s).
Definition getServers : M (list value) :=
  fun s => (servers (_cache s), s).

(** The receiver of [x.toLowerCase()]: only a string has the method. *)
Definition lower_of (v : value) : result string :=
  match v with
  | VStr s => ok (toLowerCase s)
  | _ => throw TypeError
  end.

(** A numeric bound of the criteria: skipped when the field is falsy or
    when it does not parse. *)
Definition bound_filter (parse : value -> number)
    (keep : Player.t -> number -> bool) (field : value)
    (l : list Player.t) : list Player.t :=
  if truthy field then
    let bound := parse field in
    if negb (isNaN bound) then filter (fun player => keep player bound) l
    else l
  else l.

(** The body of the [try] block of [getFilteredPlayers], from the copy of
    the cached players to the [return]. *)
Definition applyFilters (f : argument Filters.t) (all : list Player.t)
    : result (list Player.t) :=
  let filteredPlayers := all in
  match f with
  | Null => ok filteredPlayers
  | Omitted | Obj _ =>
      let filters := match f with Obj o => o | _ => Filters.empty end in
      (* Filter by player name *)
      and_then
        (if truthy (Filters.playerSearch filters) then
           and_then (lower_of (Filters.playerSearch filters)) (fun searchTerm =>
           filter_throwing (fun player =>
             and_then (lower_of (Player.name player)) (fun n =>
             ok (includes n searchTerm))) filteredPlayers)
         else ok filteredPlayers) (fun filteredPlayers =>
      (* Filter by server *)
      let filteredPlayers :=
        if truthy (Filters.selectedServer filters) then
          filter (fun player =>
            strict_equals (Player.server player)
                          (Filters.selectedServer filters)) filteredPlayers
        else filteredPlayers in
      (* Filter by alliance *)
      let filteredPlayers :=
        if truthy (Filters.selectedAlliance filters) then
          filter (fun player =>
            strict_equals (Player.alliance player)
                          (Filters.selectedAlliance filters)) filteredPlayers
        else filteredPlayers in
      (* Filter by minimum and maximum score *)
      let filteredPlayers :=
        bound_filter parseInt (fun player minScore =>
          js_ge (Player.score player) minScore)
          (Filters.minScore filters) filteredPlayers in
      let filteredPlayers :=
        bound_filter parseInt (fun player maxScore =>
          js_le (Player.score player) maxScore)
          (Filters.maxScore filters) filteredPlayers in
      (* Filter by minimum and maximum chests *)
      let filteredPlayers :=
        bound_filter parseInt (fun player minChests =>
          js_ge (Player.chests player) minChests)
          (Filters.minChests filters) filteredPlayers in
      let filteredPlayers :=
        bound_filter parseInt (fun player maxChests =>
          js_le (Player.chests player) maxChests)
          (Filters.maxChests filters) filteredPlayers in
      (* Filter by minimum and maximum ratio *)
      let filteredPlayers :=
        bound_filter parseFloat (fun player minRatio =>
          js_ge (Player.ratio player) minRatio)
          (Filters.minRatio filters) filteredPlayers in
      let filteredPlayers :=
        bound_filter parseFloat (fun player maxRatio =>
          js_le (Player.ratio player) maxRatio)
          (Filters.maxRatio filters) filteredPlayers in
      ok filteredPlayers)
  end.

(** [getFilteredPlayers(filters = {})]. *)
Definition getFilteredPlayers (f : argument Filters.t) : M (list Player.t) :=
  fun s =>
    match applyFilters f (players (_cache s)) with
    | inr filteredPlayers => ret filteredPlayers s
    | inl e =>
        (handleError e "DataService.getFilteredPlayers" false ;;
         ret []) s
    end.

(** What a variable that holds a record or nothing can be. *)
Inductive reference : Type :=
| RefUndefined
| RefNull
| Ref (p : Player.t).

(** [l.find(f)]: the first element that passes, else [undefined]. *)
Definition array_find (f : Player.t -> bool) (l : list Player.t) : reference :=
  match find f l with
  | Some p => Ref p
  | None => RefUndefined
  end.

(** [a || b] on references: an object is truthy. *)
Definition ref_or (a b : reference) : reference :=
  match a with
  | Ref _ => a
  | RefUndefined | RefNull => b
  end.

(** [getPlayerDetails(playerId)]. *)
Definition getPlayerDetails (playerId : value) : M reference :=
  fun s =>
    (ref_or (array_find (fun player => strict_equals (Player.id player) playerId)
                        (players (_cache s)))
            RefNull, s).

(** [_isCacheValid()], with the time [new Date()] reads. *)
Definition _isCacheValid (now : Z) (s : Service) : bool :=
  match lastUpdated (_cache s) with
  | None => false
  | Some d =>
      let cacheAge := num_sub (num_of_Z now) (time_value d) in
      num_lt cacheAge _cacheDuration
  end.

(** ** Statistics *)

(** [l.reduce((sum, player) => sum + player.field, 0)]. *)
Definition total (field : Player.t -> value) (l : list Player.t) : value :=
  fold_left (fun sum player => js_add sum (field player)) l (VNum (Fin 0)).

(** [l.length > 0 ? l.reduce(...) / l.length : 0]. *)
Definition average (field : Player.t -> value) (l : list Player.t) : value :=
  if (0 <? List.length l)%nat then
    VNum (js_div (total field l) (VNum (num_of_nat (List.length l))))
  else VNum (Fin 0).

(** The comparison function [(a, b) => b.field - a.field]. *)
Definition descending {A : Type} (field : A -> value) (a b : A) : number :=
  js_sub (field b) (field a).

(** [[...players].sort((a, b) => b.field - a.field).slice(0, 10)]. *)
Definition top10 (field : Player.t -> value) (l : list Player.t)
    : list Player.t :=
  slice0 10 (array_sort (descending field) l).

Record GroupStats : Type := {
  playerCount : value;
  totalScore : value;
  totalChests : value;
  averageScore : value;
  averageChests : value;
  averageRatio : value
}.

Definition group_stats (members : list Player.t) : GroupStats :=
  {| playerCount := VNum (num_of_nat (List.length members));
     totalScore := total Player.score members;
     totalChests := total Player.chests members;
     averageScore := average Player.score members;
     averageChests := average Player.chests members;
     averageRatio := average Player.ratio members |}.

(** [obj[key] = v] on an object used as a map: property keys are strings. *)
Fixpoint obj_set {A : Type} (key : string) (v : A) (obj : list (string * A))
    : list (string * A) :=
  match obj with
  | [] => [(key, v)]
  | (k, w) :: r =>
      if String.eqb k key then (k, v) :: r else (k, w) :: obj_set key v r
  end.

(** [groups.forEach(g => { stats[g] = ... })]. *)
Definition stats_by (field : Player.t -> value) (groups : list value)
    (l : list Player.t) : list (string * GroupStats) :=
  fold_left (fun stats g =>
    obj_set (to_string g)
            (group_stats (filter (fun player =>
               strict_equals (field player) g) l)) stats)
    groups [].

Record Statistics : Type := {
  totalPlayers : value;
  stat_totalChests : value;
  stat_totalScore : value;
  stat_averageChests : value;
  stat_averageScore : value;
  stat_averageRatio : value;
  topPlayersByScore : list Player.t;
  topPlayersByChests : list Player.t;
  topPlayersByRatio : list Player.t;
  allianceStats : list (string * GroupStats);
  serverStats : list (string * GroupStats);
  stat_lastUpdated : option Date
}.

(** [getStatistics()].  With the cache typed as above no step of the [try]
    block throws, so the [catch] block is never entered. *)
Definition getStatistics : M Statistics :=
  fun s =>
    let players := players (_cache s) in
    ({| totalPlayers := VNum (num_of_nat (List.length players));
        stat_totalChests := total Player.chests players;
        stat_totalScore := total Player.score players;
        stat_averageChests := average Player.chests players;
        stat_averageScore := average Player.score players;
        stat_averageRatio := average Player.ratio players;
        topPlayersByScore := top10 Player.score players;
        topPlayersByChests := top10 Player.chests players;
        topPlayersByRatio := top10 Player.ratio players;
        allianceStats :=
          stats_by Player.alliance (alliances (_cache s)) players;
        serverStats := stats_by Player.server (servers (_cache s)) players;
        stat_lastUpdated := lastUpdated (_cache s) |}, s).

(** ** Chart data *)

Record Range : Type := {
  min : number;
  max : number;
  label : string
}.

Definition range (lo : Z) (hi : number) (l : string) : Range :=
  {| min := num_of_Z lo; max := hi; label := l |}.

Definition score_ranges : list Range :=
  [ range 0 (num_of_Z 1000) "0-1K";
    range 1000 (num_of_Z 5000) "1K-5K";
    range 5000 (num_of_Z 10000) "5K-10K";
    range 10000 (num_of_Z 50000) "10K-50K";
    range 50000 (num_of_Z 100000) "50K-100K";
    range 100000 (num_of_Z 500000) "100K-500K";
    range 500000 (num_of_Z 1000000) "500K-1M";
    range 1000000 (Infinity false) "1M+" ].

Definition chest_ranges : list Range :=
  [ range 0 (num_of_Z 10) "0-10";
    range 10 (num_of_Z 50) "10-50";
    range 50 (num_of_Z 100) "50-100";
    range 100 (num_of_Z 500) "100-500";
    range 500 (num_of_Z 1000) "500-1K";
    range 1000 (num_of_Z 5000) "1K-5K";
    range 5000 (num_of_Z 10000) "5K-10K";
    range 10000 (Infinity false) "10K+" ].

Definition ratio_ranges : list Range :=
  [ range 0 (num_of_Z 10) "0-10";
    range 10 (num_of_Z 50) "10-50";
    range 50 (num_of_Z 100) "50-100";
    range 100 (num_of_Z 200) "100-200";
    range 200 (num_of_Z 500) "200-500";
    range 500 (num_of_Z 1000) "500-1K";
    range 1000 (Infinity false) "1K+" ].

(** [player.field >= range.min && player.field < range.max]. *)
Definition in_range (field : Player.t -> value) (r : Range) (player : Player.t)
    : bool :=
  js_ge (field player) (min r) && js_lt (field player) (max r).

(** [ranges.map(range => players.filter(...).length)]. *)
Definition range_counts (field : Player.t -> value) (ranges : list Range)
    (l : list Player.t) : list nat :=
  map (fun r => List.length (filter (in_range field r) l)) ranges.

(** The shape shared by the three distribution charts. *)
Definition distribution (field : Player.t -> value) (ranges : list Range)
    (l : list Player.t) : ChartData :=
  let counts := range_counts field ranges l in
  {| series := [ {| series_name := "Players";
                    data := map (fun n => VNum (num_of_nat n)) counts |} ];
     categories := map (fun r => VStr (label r)) ranges |}.

Definition _createScoreDistributionData (l : list Player.t) : ChartData :=
  distribution Player.score score_ranges l.

Definition _createChestDistributionData (l : list Player.t) : ChartData :=
  distribution Player.chests chest_ranges l.

Definition _createRatioDistributionData (l : list Player.t) : ChartData :=
  distribution Player.ratio ratio_ranges l.

Record GroupRow : Type := {
  row_name : value;
  row_stats : GroupStats
}.

(** The groups present among [l], the sentinel left out, each with its
    aggregates. *)
Definition group_rows (field : Player.t -> value) (sentinel : string)
    (l : list Player.t) : list GroupRow :=
  map (fun g =>
         {| row_name := g;
            row_stats := group_stats (filter (fun player =>
              strict_equals (field player) g) l) |})
      (set_of (filter (fun g => negb (strict_equals g (VStr sentinel)))
                      (map field l))).

(** [{ name, data: rows.map(row => row.field) }]. *)
Definition column (name : string) (field : GroupStats -> value)
    (rows : list GroupRow) : Series :=
  {| series_name := name;
     data := map (fun row => field (row_stats row)) rows |}.

Definition _createAllianceComparisonData (l : list Player.t) : ChartData :=
  let topAlliances :=
    slice0 10 (array_sort
      (descending (fun row => playerCount (row_stats row)))
      (group_rows Player.alliance "" l)) in
  {| series := [ column "Total Score" totalScore topAlliances;
                 column "Total Chests" totalChests topAlliances;
                 column "Average Score" averageScore topAlliances;
                 column "Average Chests" averageChests topAlliances ];
     categories := map row_name topAlliances |}.

Definition _createServerComparisonData (l : list Player.t) : ChartData :=
  let serverStats := group_rows Player.server "Unknown" l in
  {| series := [ column "Player Count" playerCount serverStats;
                 column "Average Score" averageScore serverStats;
                 column "Average Chests" averageChests serverStats ];
     categories := map row_name serverStats |}.

(** The metric after validation: one of the three names. *)
Definition valid_metric (metric : value) : string :=
  if array_includes [VStr "score"; VStr "chests"; VStr "ratio"] metric then
    match metric with
    | VStr m => m
    | _ => "score"
    end
  else "score".

Definition _createTopPlayersData (l : list Player.t) (metric : value)
    : ChartData :=
  let metric := valid_metric metric in
  let topPlayers := top10 (fun player => Player.get player metric) l in
  {| series := [ {| series_name :=
                      toUpperCase (charAt0 metric) ++ slice1 metric;
                    data := map (fun player => Player.get player metric)
                                topPlayers |} ];
     categories := map Player.name topPlayers |}.

(** [getChartData(chartType, options = {})]. *)
Definition getChartData (chartType : value) (options : argument ChartOptions)
    : M ChartData :=
  let failed (e : js_error) : M ChartData :=
    handleError e "DataService.getChartData" false ;;
    ret {| series := []; categories := [] |} in
  match options with
  | Null => failed TypeError   (* [options.filters] on [null] *)
  | Omitted | Obj _ =>
      let filters :=
        match options with Obj o => filters o | _ => Omitted end in
      let metric :=
        match options with Obj o => metric o | _ => VUndefined end in
      players <- getFilteredPlayers filters ;;
      (* [switch (chartType)]: the cases are tried in order with [===] *)
      if strict_equals chartType (VStr "score_distribution") then
        ret (_createScoreDistributionData players)
      else if strict_equals chartType (VStr "chest_distribution") then
        ret (_createChestDistributionData players)
      else if strict_equals chartType (VStr "alliance_comparison") then
        ret (_createAllianceComparisonData players)
      else if strict_equals chartType (VStr "server_comparison") then
        ret (_createServerComparisonData players)
      else if strict_equals chartType (VStr "ratio_distribution") then
        ret (_createRatioDistributionData players)
      else if strict_equals chartType (VStr "top_players") then
        ret (_createTopPlayersData players (js_or metric (VStr "score")))
      else
        failed (Error ("Unknown chart type: " ++ to_string chartType))
  end.

(** ** Loading *)

(** The callback of [players.map] in [_processData]; a [null] entry has no
    properties to read. *)
Definition process_player (entry : option Raw.t) (index : nat)
    : result Player.t :=
  match entry with
  | None => throw TypeError
  | Some player =>
      let i := number_to_string (num_of_nat index) in
      ok {| Player.id := js_or (Raw.id player) (VStr ("player_" ++ i));
            Player.name :=
              js_or (Raw.name player) (VStr ("Unknown Player " ++ i));
            Player.alliance := js_or (Raw.alliance player) (VStr "");
            Player.server := js_or (Raw.server player) (VStr "Unknown");
            Player.score := js_or (Raw.score player) (VNum (Fin 0));
            Player.chests := js_or (Raw.chests player) (VNum (Fin 0));
            Player.ratio :=
              VNum (if js_gt (Raw.chests player) (Fin 0)
                    then js_div (Raw.score player) (Raw.chests player)
                    else Fin 0) |}
  end.

(** [[...new Set(players.map(field).filter(x => x !== sentinel))].sort()]. *)
Definition unique_sorted (field : Player.t -> value) (sentinel : string)
    (l : list Player.t) : list value :=
  array_sort default_compare
    (set_of (filter (fun x => negb (strict_equals x (VStr sentinel)))
                    (map field l))).

(** The [try] block of [_processData] up to the update of the cache. *)
Definition processed_cache (data : document) (now : Z) : result Cache :=
  match data with
  | DocNull => throw TypeError
  | DocObject field =>
      and_then
        (match field with
         | PlayersFalsy => ok []
         | PlayersNotArray => throw TypeError
         | PlayersArray players => map_throwing process_player 0 players
         end) (fun processedPlayers =>
      ok {| players := processedPlayers;
            alliances := unique_sorted Player.alliance "" processedPlayers;
            servers := unique_sorted Player.server "Unknown" processedPlayers;
            lastUpdated := Some (DateAt now) |})
  end.

(** [_processData(data)], with the time [new Date()] reads.  The copy kept
    in local storage by [_saveToCache] is not part of the state modelled
    here: no method below reads it back. *)
Definition _processData (data : document) (now : Z) : M bool :=
  match processed_cache data now with
  | inr c => set_cache c ;; ret true
  | inl e => handleError e "DataService._processData" false ;; ret false
  end.

(** [loadData(forceRefresh = false)].  [fetch] stands for the network: what
    requesting a URL and parsing the response comes to.  [now] is the time at
    which the validity of the cache is checked, [loaded] the time at which
    the new data is stored. *)
Definition loadData (forceRefresh : bool) (fetch : value -> fetch_outcome)
    (now loaded : Z) : M bool :=
  let failed (e : js_error) : M bool :=
    handleError e "DataService.loadData" true ;;
    setState "isLoading" (VBool false) ;;
    ret false in
  fun s =>
    if negb forceRefresh && isDataLoaded s && _isCacheValid now s then
      ret true s
    else
      (setState "isLoading" (VBool true) ;;
       fromState <- getState "dataSource" ;;
       (fun s' =>
          let dataSource := js_or fromState (_dataSourceUrl s') in
          match fetch dataSource with
          | Rejected e => failed e s'
          | Response responseOk status b =>
              if negb responseOk then
                failed (Error ("HTTP error! status: "
                               ++ number_to_string (num_of_nat status))) s'
              else
                match b with
                | BodyInvalid => failed SyntaxError s'
                | BodyJson data =>
                    (_processData data loaded ;;
                     setState "isLoading" (VBool false) ;;
                     setState "dataLoaded" (VBool true) ;;
                     ret true) s'
                end
          end)) s.

End DataService.

(* ================================================================== *)
(** * Vocabulary of the properties *)
(* ================================================================== *)

Import JS ErrorHandler DataService.

(** The six numeric bounds of the filter criteria. *)
Inductive bound : Type :=
| MinScore | MaxScore | MinChests | MaxChests | MinRatio | MaxRatio.

Definition get_bound (k : bound) (f : Filters.t) : value :=
  match k with
  | MinScore => Filters.minScore f
  | MaxScore => Filters.maxScore f
  | MinChests => Filters.minChests f
  | MaxChests => Filters.maxChests f
  | MinRatio => Filters.minRatio f
  | MaxRatio => Filters.maxRatio f
  end.

(** The criteria with one bound replaced. *)
Definition set_bound (k : bound) (v : value) (f : Filters.t) : Filters.t :=
  {| Filters.playerSearch := Filters.playerSearch f;
     Filters.selectedServer := Filters.selectedServer f;
     Filters.selectedAlliance := Filters.selectedAlliance f;
     Filters.minScore := match k with MinScore => v | _ => Filters.minScore f end;
     Filters.maxScore := match k with MaxScore => v | _ => Filters.maxScore f end;
     Filters.minChests :=
       match k with MinChests => v | _ => Filters.minChests f end;
     Filters.maxChests :=
       match k with MaxChests => v | _ => Filters.maxChests f end;
     Filters.minRatio := match k with MinRatio => v | _ => Filters.minRatio f end;
     Filters.maxRatio := match k with MaxRatio => v | _ => Filters.maxRatio f end
  |}.

(** The criteria with one bound removed: the field reads as [undefined]. *)
Definition remove_bound (k : bound) (f : Filters.t) : Filters.t :=
  set_bound k VUndefined f.

(** How the service reads a bound: the score and chest bounds with
    [parseInt(_, 10)], the ratio bounds with [parseFloat]. *)
Definition parse_bound (k : bound) : value -> number :=
  match k with
  | MinRatio | MaxRatio => parseFloat
  | _ => parseInt
  end.

(** A bound that is absent, falsy, or that does not parse as a number. *)
Definition unusable (k : bound) (v : value) : Prop :=
  truthy v = false \/ parse_bound k v = NaN.

(** The chart kinds [getChartData] knows. *)
Definition chart_kinds : list value :=
  [ VStr "score_distribution"; VStr "chest_distribution";
    VStr "ratio_distribution"; VStr "alliance_comparison";
    VStr "server_comparison"; VStr "top_players" ].

Definition empty_chart : ChartData := {| series := []; categories := [] |}.

(** The response did not yield a document: the request was rejected, the
    status was not ok, or the body did not parse. *)
Definition transport_failure (o : fetch_outcome) : Prop :=
  match o with
  | Rejected _ => True
  | Response responseOk _ b =>
      responseOk = false \/ b = BodyInvalid
  end.

(** The URL [loadData] requests. *)
Definition requested_url (s : Service) : value :=
  js_or (StateManager.getState "dataSource" (_stateManager s))
        (_dataSourceUrl s).

(** [loadData] goes to the network: it does not answer from the cache. *)
Definition reloads (forceRefresh : bool) (now : Z) (s : Service) : Prop :=
  negb forceRefresh && isDataLoaded s && _isCacheValid now s = false.

(** A value that is a finite number, not negative. *)
Definition nonneg_finite (v : value) : Prop :=
  exists q : Q, v = VNum (Fin q) /\ (0 <= q)%Q.

(** The number of buckets of a table that hold a player. *)
Definition buckets_holding (field : Player.t -> value) (ranges : list Range)
    (player : Player.t) : nat :=
  List.length (filter (fun r => in_range field r player) ranges).

(** The numeric key a sort by [field] compares. *)
Definition key (field : Player.t -> value) (player : Player.t) : number :=
  to_number (field player).

(** No key of the list is [NaN]. *)
Definition comparable (field : Player.t -> value) (l : list Player.t) : Prop :=
  Forall (fun player => is_nan (key field player) = false) l.

(** [sorted] is [l] in descending order of the key, ties in their original
    order: the same elements, the key of every element at least ([>=]) the
    key of every later one, and for every key value the elements that have
    it listed as in [l]. *)
Definition stable_descending (field : Player.t -> value)
    (l sorted : list Player.t) : Prop :=
  Permutation l sorted
  /\ StronglySorted
       (fun a b => num_ge (key field a) (key field b) = true) sorted
  /\ forall k : number,
       filter (fun player => num_eq (key field player) k) sorted
       = filter (fun player => num_eq (key field player) k) l.

(** [top] is the first ten of [l] sorted that way. *)
Definition top10_of (field : Player.t -> value) (l top : list Player.t)
    : Prop :=
  exists sorted, stable_descending field l sorted /\ top = firstn 10 sorted.

(** The list of values is in the order the default [sort()] produces:
    ascending by string form. *)
Definition ascending (l : list value) : Prop :=
  StronglySorted
    (fun a b => String.leb (to_string a) (to_string b) = true) l.

(** No two entries of the list are the same value. *)
Definition duplicate_free (l : list value) : Prop :=
  ForallOrdPairs (fun a b => same_value_zero a b = false) l.

(** The derived lists of a cache are as they should be: alliances and
    servers ascending and without duplicates, no empty alliance, no server
    ["Unknown"]. *)
Definition derived_lists_ok (c : Cache) : Prop :=
  (ascending (alliances c)
   /\ duplicate_free (alliances c)
   /\ NoDup (alliances c)
   /\ ~ In (VStr "") (alliances c))
  /\ (ascending (servers c)
      /\ duplicate_free (servers c)
      /\ NoDup (servers c)
      /\ ~ In (VStr "Unknown") (servers c)).

(** The service with the cached players replaced. *)
Definition with_players (l : list Player.t) (s : Service) : Service :=
  {| _cache := {| players := l;
                  alliances := alliances (_cache s);
                  servers := servers (_cache s);
                  lastUpdated := lastUpdated (_cache s) |};
     _dataSourceUrl := _dataSourceUrl s;
     _stateManager := _stateManager s;
     _errorHandler := _errorHandler s |}.

(** The criteria [getChartData] passes on to [getFilteredPlayers]. *)
Definition filters_argument (options : argument ChartOptions)
    : argument Filters.t :=
  match options with
  | Obj o => filters o
  | _ => Omitted
  end.

(** What is stated of an unknown chart kind: the empty chart comes back and
    the error handler has received exactly one more report. *)
Definition empty_chart_one_report (chartType : value)
    (options : argument ChartOptions) (s : Service) : Prop :=
  let (chart, s') := getChartData chartType options s in
  chart = empty_chart
  /\ exists r : report, _errorHandler s' = r :: _errorHandler s.

(** Criteria with a name search and nothing else. *)
Definition searching (v : value) : Filters.t :=
  {| Filters.playerSearch := v;
     Filters.selectedServer := VUndefined;
     Filters.selectedAlliance := VUndefined;
     Filters.minScore := VUndefined; Filters.maxScore := VUndefined;
     Filters.minChests := VUndefined; Filters.maxChests := VUndefined;
     Filters.minRatio := VUndefined; Filters.maxRatio := VUndefined |}.

(** A bucket as the distributions are described: its lower boundary, which
    it includes, and its upper boundary, which it excludes; the last bucket
    has no upper boundary. *)
Definition Bucket : Type := (Q * option Q)%type.

(** The buckets that a list of boundaries cuts out: from each boundary to
    the next one, and from the last boundary upwards. *)
Fixpoint buckets_between (bounds : list Q) : list Bucket :=
  match bounds with
  | [] => []
  | lo :: rest => (lo, hd_error rest) :: buckets_between rest
  end.

(** The value reads as a finite number of the bucket. *)
Definition in_bucket (b : Bucket) (v : value) : bool :=
  match to_number v with
  | Fin x =>
      Qle_bool (fst b) x
      && match snd b with
         | Some hi => Qlt_bool x hi
         | None => true
         end
  | _ => false
  end.

(** The number of players of [l] whose field is in the bucket. *)
Definition bucket_count (field : Player.t -> value) (b : Bucket)
    (l : list Player.t) : nat :=
  List.length (filter (fun p => in_bucket b (field p)) l).

(** The number of buckets between the boundaries that the value is in. *)
Definition buckets_of (bounds : list Q) (v : value) : nat :=
  List.length (filter (fun b => in_bucket b v) (buckets_between bounds)).

(** The chart has the one series ["Players"], which gives for each bucket
    between the boundaries, in their order, the number of players of [l]
    whose field is in that bucket. *)
Definition charted_by_bucket (field : Player.t -> value) (bounds : list Q)
    (chart : ChartData) (l : list Player.t) : Prop :=
  series chart
  = [ {| series_name := "Players";
         data := map (fun b => VNum (num_of_nat (bucket_count field b l)))
                     (buckets_between bounds) |} ].

(** The chart counts the players of [l] bucket by bucket, every player of
    [l] is in exactly one bucket, and so the counts of the chart add up to
    the length of [l]. *)
Definition counted_once (field : Player.t -> value) (bounds : list Q)
    (chart : ChartData) (l : list Player.t) : Prop :=
  charted_by_bucket field bounds chart l
  /\ Forall (fun p => buckets_of bounds (field p) = 1%nat) l
  /\ list_sum (map (fun b => bucket_count field b l) (buckets_between bounds))
     = List.length l.

(** The bucket of a table of the code and the bucket [b] are the same:
    same lower end, same upper end, [Infinity] standing for none. *)
Definition same_bucket (r : Range) (b : Bucket) : Prop :=
  min r = Fin (fst b)
  /\ max r = match snd b with
             | Some hi => Fin hi
             | None => Infinity false
             end.

(** A table whose buckets follow one another from [lo] upwards: each starts
    where the one before ends and the last has no upper end. *)
Fixpoint chained (lo : Q) (ranges : list Range) : Prop :=
  match ranges with
  | [] => False
  | r :: rest =>
      min r = Fin lo
      /\ match rest with
         | [] => max r = Infinity false
         | _ :: _ =>
             exists hi : Q, max r = Fin hi /\ (lo <= hi)%Q /\ chained hi rest
         end
  end.

(** What a bound asks of a player. *)
Definition bound_selects (parse : value -> number)
    (keep : Player.t -> number -> bool) (v : value) (p : Player.t) : bool :=
  if truthy v then
    if negb (isNaN (parse v)) then keep p (parse v) else true
  else true.

(** What an equality criterion asks of a player. *)
Definition equal_selects (field : Player.t -> value) (v : value)
    (p : Player.t) : bool :=
  if truthy v then strict_equals (field p) v else true.

(** The criteria after the name search, as one predicate. *)
Definition selects (f : Filters.t) (p : Player.t) : bool :=
  equal_selects Player.server (Filters.selectedServer f) p
  && equal_selects Player.alliance (Filters.selectedAlliance f) p
  && bound_selects parseInt (fun p b => js_ge (Player.score p) b)
       (Filters.minScore f) p
  && bound_selects parseInt (fun p b => js_le (Player.score p) b)
       (Filters.maxScore f) p
  && bound_selects parseInt (fun p b => js_ge (Player.chests p) b)
       (Filters.minChests f) p
  && bound_selects parseInt (fun p b => js_le (Player.chests p) b)
       (Filters.maxChests f) p
  && bound_selects parseFloat (fun p b => js_ge (Player.ratio p) b)
       (Filters.minRatio f) p
  && bound_selects parseFloat (fun p b => js_le (Player.ratio p) b)
       (Filters.maxRatio f) p.

(** The name search on its own: the first stage of [applyFilters]. *)
Definition search (v : value) (l : list Player.t) : result (list Player.t) :=
  if truthy v then
    and_then (lower_of v) (fun searchTerm =>
    filter_throwing (fun player =>
      and_then (lower_of (Player.name player)) (fun n =>
      ok (includes n searchTerm))) l)
  else ok l.

(** The entry has a score: the field is there.  ([NaN] is no JSON value.) *)
Definition has_score (e : Raw.t) : Prop :=
  Raw.score e <> VUndefined /\ Raw.score e <> VNum NaN.

(** The ratio invariant as it is stated of every record: the ratio is a
    finite number, the quotient of score and chests when the chests are
    positive and [0] otherwise. *)
Definition ratio_invariant (p : Player.t) : Prop :=
  exists r : number,
    Player.ratio p = VNum r
    /\ is_finite r = true
    /\ r = (if js_gt (Player.chests p) (Fin 0)
            then js_div (Player.score p) (Player.chests p)
            else Fin 0).

(** The ratio [_processData] gives the record [p] it builds from the entry
    [e]: [0] unless the chests are positive; the language's division of the
    record's score by its chests when they are and the entry has a score --
    which is [NaN] for a score that does not read as a number; a number
    that is not [NaN] whenever the score and the chests of the entry are
    finite numbers.  Nothing is said of its size: the division of the
    language rounds, and overflows to [Infinity] on a quotient beyond its
    range, which the exact quotients of [JS.num_div] do not show. *)
Definition ratio_as_designed (e : Raw.t) (p : Player.t) : Prop :=
  (js_gt (Raw.chests e) (Fin 0) = false -> Player.ratio p = VNum (Fin 0))
  /\ (js_gt (Raw.chests e) (Fin 0) = true -> has_score e ->
      Player.ratio p = VNum (js_div (Player.score p) (Player.chests p))
      /\ (to_number (Raw.score e) = NaN -> Player.ratio p = VNum NaN))
  /\ (forall a c : Q,
        Raw.score e = VNum (Fin a) ->
        Raw.chests e = VNum (Fin c) ->
        exists r : number,
          Player.ratio p = VNum r /\ is_nan r = false).

(** A raw entry with the given score and chests and nothing else. *)
Definition entry (score chests : value) : option Raw.t :=
  Some {| Raw.id := VUndefined; Raw.name := VUndefined;
          Raw.alliance := VUndefined; Raw.server := VUndefined;
          Raw.score := score; Raw.chests := chests |}.

(** A raw entry with the given alliance and server, score and chests 1. *)
Definition member (alliance server : string) : option Raw.t :=
  Some {| Raw.id := VUndefined; Raw.name := VUndefined;
          Raw.alliance := VStr alliance; Raw.server := VStr server;
          Raw.score := VNum (Fin 1); Raw.chests := VNum (Fin 1) |}.

(** A cached record with the given name, score, chests and ratio. *)
Definition player (name : string) (score chests ratio : number) : Player.t :=
  {| Player.id := VStr name; Player.name := VStr name;
     Player.alliance := VStr ""; Player.server := VStr "Unknown";
     Player.score := VNum score; Player.chests := VNum chests;
     Player.ratio := VNum ratio |}.

(** The service right after construction, with the given players cached. *)
Definition service_with (l : list Player.t) : Service :=
  with_players l constructor.

(* ================================================================== *)
(** * The local storage of the browser *)
(* ================================================================== *)

(** The services keep JSON texts in [localStorage].  The text of an item
    is represented by what [JSON.parse] makes of it, seen through the
    properties the service reads, as the response of the network is in
    [document].  [JSON.stringify] writes a finite number, a string, a
    boolean and [null] so that [JSON.parse] reads the same value back; it
    writes [NaN] and the infinities as [null], leaves out a property that is
    [undefined] and writes [null] for an array element that is. *)

(** [JSON.parse(JSON.stringify(v))] for the property [v] of an object; a
    property left out reads as [undefined]. *)
Definition json_property (v : value) : value :=
  match v with
  | VNum NaN | VNum (Infinity _) => VNull
  | _ => v
  end.

(** The same for an element of an array. *)
Definition json_element (v : value) : value :=
  match v with
  | VUndefined => VNull
  | _ => json_property v
  end.

(** The text of an item, for a service that reads the properties [A] of
    what it parses to. *)
Inductive storage_item (A : Type) : Type :=
| EmptyText                 (* the empty string: falsy *)
| NotJson                   (* [JSON.parse] throws *)
| JsonNull                  (* the text [null]: reading a property throws *)
| Json (parsed : A).
Arguments EmptyText {A}.
Arguments NotJson {A}.
Arguments JsonNull {A}.
Arguments Json {A} parsed.

(* ================================================================== *)
(** * The data service and its stored copy of the cache *)
(* ================================================================== *)

(** The rest of the class [DataService]: [setDataSource], and the methods
    that keep a copy of the cache in [localStorage] under the key
    ['tb_data_cache'].  [toISOString] writes an instant to the millisecond,
    and [new Date] reads that text back as the same instant. *)
Module DataStore.

Definition json_player (p : Player.t) : Player.t :=
  {| Player.id := json_property (Player.id p);
     Player.name := json_property (Player.name p);
     Player.alliance := json_property (Player.alliance p);
     Player.server := json_property (Player.server p);
     Player.score := json_property (Player.score p);
     Player.chests := json_property (Player.chests p);
     Player.ratio := json_property (Player.ratio p) |}.

(** A property of the parsed item that should hold an array: absent or
    falsy, or an array.  (A truthy value that is no array is outside the
    embedding, whose cache holds lists.) *)
Inductive stored_array (A : Type) : Type :=
| ArrayFalsy
| ArrayOf (l : list A).
Arguments ArrayFalsy {A}.
Arguments ArrayOf {A} l.

(** [parsed.players || []]. *)
Definition or_empty {A : Type} (a : stored_array A) : list A :=
  match a with
  | ArrayFalsy => []
  | ArrayOf l => l
  end.

(** The parsed item.  For [lastUpdated], [None] is a property that is
    absent or falsy and [Some d] a truthy one that [new Date] reads as
    [d]. *)
Record StoredCache : Type := {
  stored_players : stored_array Player.t;
  stored_alliances : stored_array value;
  stored_servers : stored_array value;
  stored_lastUpdated : option Date
}.

(** The text of the item ['tb_data_cache']. *)
Definition item : Type := storage_item StoredCache.

(** The service together with the item ['tb_data_cache'] of
    [localStorage]; [None] is no item, for which [getItem] returns
    [null]. *)
Record Page : Type := {
  service : Service;
  localStorage : option item
}.

Definition on_service (f : Service -> Service) (p : Page) : Page :=
  {| service := f (service p); localStorage := localStorage p |}.

(** [setDataSource(url)].  (The subscriber [_setupStateSubscriptions]
    registers would assign the same [url] once more.) *)
Definition setDataSource (url : value) : M unit :=
  fun s =>
    setState "dataSource" url
      {| _cache := _cache s;
         _dataSourceUrl := url;
         _stateManager := _stateManager s;
         _errorHandler := _errorHandler s |}.

(** [_saveToCache()].  [full] tells whether [setItem] throws for want of
    space; [toISOString] throws on [null] and on an invalid date.  Whatever
    is thrown is caught and logged to the console. *)
Definition _saveToCache (full : bool) (p : Page) : Page :=
  match lastUpdated (_cache (service p)) with
  | Some (DateAt ms) =>
      let cacheData :=
        {| stored_players :=
             ArrayOf (map json_player (players (_cache (service p))));
           stored_alliances :=
             ArrayOf (map json_element (alliances (_cache (service p))));
           stored_servers :=
             ArrayOf (map json_element (servers (_cache (service p))));
           stored_lastUpdated := Some (DateAt ms) |} in
      if full then p
      else {| service := service p; localStorage := Some (Json cacheData) |}
  | Some InvalidDate | None => p
  end.

(** [_loadFromCache()]. *)
Definition _loadFromCache (p : Page) : Page :=
  match localStorage p with
  | None | Some EmptyText => p              (* [if (cacheData)] *)
  | Some NotJson | Some JsonNull => p       (* thrown, caught and logged *)
  | Some (Json parsed) =>
      let cache :=
        {| players := or_empty (stored_players parsed);
           alliances := or_empty (stored_alliances parsed);
           servers := or_empty (stored_servers parsed);
           lastUpdated := stored_lastUpdated parsed |} in
      on_service (fun s =>
        snd ((set_cache cache ;;
              if (0 <? List.length (players cache))%nat
              then setState "dataLoaded" (VBool true)
              else ret tt) s)) p
  end.

(** [initialize()].  The store of the embedding has no subscribers, so
    [_setupStateSubscriptions] leaves no trace; nothing in the [try] block
    throws. *)
Definition initialize (p : Page) : bool * Page :=
  (true, _loadFromCache p).

(** [clearCache()]. *)
Definition clearCache (p : Page) : Page :=
  let cleared :=
    on_service (fun s =>
      snd (set_cache {| players := []; alliances := []; servers := [];
                        lastUpdated := None |} s)) p in
  (* [localStorage.removeItem('tb_data_cache')] *)
  let removed := {| service := service cleared; localStorage := None |} in
  on_service (fun s => snd (setState "dataLoaded" (VBool false) s)) removed.

(** [_processData(data)] with the copy it saves: the cache is updated,
    then saved, then [true] is returned. *)
Definition _processData (data : document) (now : Z) (full : bool) (p : Page)
    : bool * Page :=
  match processed_cache data now with
  | inr c =>
      (true, _saveToCache full (on_service (fun s => snd (set_cache c s)) p))
  | inl e =>
      (false,
       on_service (fun s =>
         snd (handleError e "DataService._processData" false s)) p)
  end.

End DataStore.

(* ================================================================== *)
(** * The error handler in full *)
(* ================================================================== *)

(** The class [ErrorHandler] of [js/services/errorHandler.js]: the log,
    the notification of the user, the report to an endpoint, and the
    settings kept in [localStorage] under ['tb_error_settings'].  The
    console is not represented, nor are the listeners that
    [_setupGlobalHandlers] installs on the window and on [console.error],
    which call [handleError] in their turn. *)
Module ErrorLog.

(** What is handed to [handleError]: an instance of [Error], with its
    message and its stack, or any other value. *)
Inductive problem : Type :=
| Instance (message : string) (stack : value)
| Plain (v : value).

(** An entry of the log.  ([browserInfo], which describes the browser and
    not the error, is not represented.) *)
Record ErrorObj : Type := {
  id : string;
  timestamp : Z;
  level : string;
  source : string;
  message : string;
  stack : value;
  appVersion : string
}.

(** What the environment decides for one call: the time, and the id
    [_generateErrorId] makes of the time and a random number. *)
Record Moment : Type := {
  now : Z;
  generated_id : string
}.

(** The two properties [_loadSettings] reads of the parsed item. *)
Record StoredSettings : Type := {
  reportingEnabled : value;
  reportingEndpoint : value
}.

(** The handler with its collaborators.  [_uiService] tells whether a UI
    service was given to the constructor, [_languageService] holds the
    method [translate] of the language service, if one was given.  [shown]
    lists the calls [showNotification(message, type)] made, [posted] the
    calls [fetch(endpoint, { method: 'POST', body })], newest first;
    [settings] is the item ['tb_error_settings']. *)
Record Handler : Type := {
  _uiService : bool;
  _languageService : option (string -> string);
  _errorLog : list ErrorObj;
  _reportingEnabled : value;
  _reportingEndpoint : value;
  shown : list (string * string);
  posted : list (value * ErrorObj);
  settings : option (storage_item StoredSettings)
}.

(** [this._maxErrorLogSize = 100]. *)
Definition _maxErrorLogSize : nat := 100.

(** The handler as the constructor leaves it, in a browser with the given
    item in its storage. *)
Definition constructor (uiService : bool)
    (languageService : option (string -> string))
    (storage : option (storage_item StoredSettings)) : Handler :=
  {| _uiService := uiService;
     _languageService := languageService;
     _errorLog := [];
     _reportingEnabled := VBool false;
     _reportingEndpoint := VStr "";
     shown := [];
     posted := [];
     settings := storage |}.

Definition set_log (log : list ErrorObj) (h : Handler) : Handler :=
  {| _uiService := _uiService h;
     _languageService := _languageService h;
     _errorLog := log;
     _reportingEnabled := _reportingEnabled h;
     _reportingEndpoint := _reportingEndpoint h;
     shown := shown h;
     posted := posted h;
     settings := settings h |}.

Definition set_reporting (enabled endpoint : value) (h : Handler) : Handler :=
  {| _uiService := _uiService h;
     _languageService := _languageService h;
     _errorLog := _errorLog h;
     _reportingEnabled := enabled;
     _reportingEndpoint := endpoint;
     shown := shown h;
     posted := posted h;
     settings := settings h |}.

(** [this._uiService.showNotification(message, type)]. *)
Definition showNotification (text type : string) (h : Handler) : Handler :=
  {| _uiService := _uiService h;
     _languageService := _languageService h;
     _errorLog := _errorLog h;
     _reportingEnabled := _reportingEnabled h;
     _reportingEndpoint := _reportingEndpoint h;
     shown := (text, type) :: shown h;
     posted := posted h;
     settings := settings h |}.

(** [fetch(endpoint, { method: 'POST', ..., body: JSON.stringify(errorObj) })];
    a request that fails is logged to the console. *)
Definition post (endpoint : value) (errorObj : ErrorObj) (h : Handler)
    : Handler :=
  {| _uiService := _uiService h;
     _languageService := _languageService h;
     _errorLog := _errorLog h;
     _reportingEnabled := _reportingEnabled h;
     _reportingEndpoint := _reportingEndpoint h;
     shown := shown h;
     posted := (endpoint, errorObj) :: posted h;
     settings := settings h |}.

(** [_createErrorObject(error, source, level)]. *)
Definition _createErrorObject (error : problem) (source level : string)
    (m : Moment) : ErrorObj :=
  {| id := generated_id m;
     timestamp := now m;
     level := level;
     source := source;
     message := match error with
                | Instance message _ => message
                | Plain v => to_string v
                end;
     stack := match error with
              | Instance _ stack => stack
              | Plain _ => VNull
              end;
     appVersion := "1.0.0" |}.

(** [_addToLog(errorObj)]: newest first, cut to the maximum size. *)
Definition _addToLog (errorObj : ErrorObj) (h : Handler) : Handler :=
  let log := errorObj :: _errorLog h in
  set_log (if (_maxErrorLogSize <? List.length log)%nat
           then slice0 _maxErrorLogSize log
           else log) h.

(** [replace(/[^a-z0-9_]/g, '_')]. *)
Definition key_char (c : ascii) : ascii :=
  let n := code c in
  if ((97 <=? n) && (n <=? 122) || (48 <=? n) && (n <=? 57) || (n =? 95))%nat
  then c else "_"%char.

Fixpoint key_chars (s : string) : string :=
  match s with
  | EmptyString => EmptyString
  | String c r => String (key_char c) (key_chars r)
  end.

(** [_displayError(errorObj)]. *)
Definition _displayError (errorObj : ErrorObj) (h : Handler) : Handler :=
  if negb (_uiService h) then h
  else
    (* Get localized message *)
    let text : string :=
      match _languageService h with
      | None => message errorObj
      | Some translate =>
          let key : string :=
            ("error." ++ key_chars (toLowerCase (message errorObj)))%string in
          let translated : string := translate key in
          if negb (String.eqb translated key) then translated
          else
            let genericKey : string :=
              ("error." ++ level errorObj)%string in
            let generic : string := translate genericKey in
            if negb (String.eqb generic genericKey)
            then (generic ++ ": " ++ message errorObj)%string
            else message errorObj
      end in
    (* Level-specific notification type *)
    let type : string :=
      (if String.eqb (level errorObj) "warning" then "warning"
       else if String.eqb (level errorObj) "info" then "info"
       else "error")%string in
    showNotification text type h.

(** [_reportError(errorObj)]. *)
Definition _reportError (errorObj : ErrorObj) (h : Handler) : Handler :=
  if negb (truthy (_reportingEnabled h))
     || negb (truthy (_reportingEndpoint h))
  then h
  else post (_reportingEndpoint h) errorObj h.

(** [handleError(error, source = 'unknown', showToUser = true,
    level = 'error')].  With the arguments typed as here nothing in the
    [try] block throws, so the id of the entry is returned. *)
Definition handleError (error : problem) (source : string)
    (showToUser : bool) (level : string) (m : Moment) (h : Handler)
    : string * Handler :=
  let errorObj := _createErrorObject error source level m in
  let h := _addToLog errorObj h in
  let h := if showToUser then _displayError errorObj h else h in
  let h := if truthy (_reportingEnabled h) then _reportError errorObj h
           else h in
  (id errorObj, h).

(** [ToIntegerOrInfinity] of a finite number: towards zero. *)
Definition truncate (q : Q) : Z :=
  if Qlt_bool q 0 then Qceiling q else Qfloor q.

(** [l.slice(0, end)] for a Number [end]: a negative [end] counts from the
    end of the list. *)
Definition slice_to {A : Type} (n : number) (l : list A) : list A :=
  match n with
  | NaN => []
  | Infinity negative => if negative then [] else l
  | Fin q =>
      let k := truncate q in
      if (k <? 0)%Z
      then firstn (Z.to_nat (Z.max (Z.of_nat (List.length l) + k) 0)) l
      else firstn (Z.to_nat k) l
  end.

(** [getErrorLog(limit = null)]. *)
Definition getErrorLog (limit : value) (h : Handler) : list ErrorObj :=
  if truthy limit then slice_to (to_number limit) (_errorLog h)
  else _errorLog h.

(** [clearErrorLog()]. *)
Definition clearErrorLog (h : Handler) : Handler := set_log [] h.

(** [_saveSettings()].  [full] tells whether [setItem] throws for want of
    space, which is caught and logged to the console. *)
Definition _saveSettings (full : bool) (h : Handler) : Handler :=
  if full then h
  else
    {| _uiService := _uiService h;
       _languageService := _languageService h;
       _errorLog := _errorLog h;
       _reportingEnabled := _reportingEnabled h;
       _reportingEndpoint := _reportingEndpoint h;
       shown := shown h;
       posted := posted h;
       settings :=
         Some (Json {| reportingEnabled :=
                         json_property (_reportingEnabled h);
                       reportingEndpoint :=
                         json_property (_reportingEndpoint h) |}) |}.

(** [_loadSettings()]. *)
Definition _loadSettings (h : Handler) : Handler :=
  match settings h with
  | None | Some EmptyText => h              (* [if (settings)] *)
  | Some NotJson | Some JsonNull => h       (* thrown, caught and logged *)
  | Some (Json parsed) =>
      set_reporting (js_or (reportingEnabled parsed) (VBool false))
                    (js_or (reportingEndpoint parsed) (VStr "")) h
  end.

(** [enableReporting(endpoint)] and [disableReporting()]. *)
Definition enableReporting (endpoint : value) (full : bool) (h : Handler)
    : Handler :=
  _saveSettings full (set_reporting (VBool true) endpoint h).

Definition disableReporting (full : bool) (h : Handler) : Handler :=
  _saveSettings full (set_reporting (VBool false) (VStr "") h).

(** [initialize()], the listeners apart. *)
Definition initialize (h : Handler) : bool * Handler :=
  (true, _loadSettings h).

End ErrorLog.

(* ================================================================== *)
(** * The comparison list of the player controller *)
(* ================================================================== *)

(** The part of the class [PlayerController] of
    [js/controllers/playerController.js] that keeps the list of players to
    compare, which it fills from [getPlayerDetails].  Of the document it
    needs the element ['comparison-badge'], when there is one, and to know
    whether the element ['comparison-container'] is displayed; the
    notifications it asks the UI service for are listed newest first. *)
Module PlayerController.

Record Badge : Type := {
  textContent : string;
  display : string
}.

Record Controller : Type := {
  _dataService : Service;
  _comparisonData : list Player.t;
  notifications : list (string * string);
  badge : option Badge
}.

(** The controller as the constructor leaves it. *)
Definition constructor (dataService : Service) (element : option Badge)
    : Controller :=
  {| _dataService := dataService;
     _comparisonData := [];
     notifications := [];
     badge := element |}.

Definition showNotification (text type : string) (c : Controller)
    : Controller :=
  {| _dataService := _dataService c;
     _comparisonData := _comparisonData c;
     notifications := (text, type) :: notifications c;
     badge := badge c |}.

Definition set_comparison (l : list Player.t) (c : Controller) : Controller :=
  {| _dataService := _dataService c;
     _comparisonData := l;
     notifications := notifications c;
     badge := badge c |}.

(** [if (badge) { badge.textContent = this._comparisonData.length;
    badge.style.display = this._comparisonData.length > 0 ? 'block' : 'none' }]. *)
Definition update_badge (c : Controller) : Controller :=
  match badge c with
  | None => c
  | Some _ =>
      let n := List.length (_comparisonData c) in
      {| _dataService := _dataService c;
         _comparisonData := _comparisonData c;
         notifications := notifications c;
         badge :=
           Some {| textContent := number_to_string (num_of_nat n);
                   display := if (0 <? n)%nat then "block" else "none" |} |}
  end.

(** [addToComparison(playerId)]. *)
Definition addToComparison (playerId : value) (c : Controller)
    : bool * Controller :=
  match fst (getPlayerDetails playerId (_dataService c)) with
  | Ref playerData =>
      (* Check if already in comparison *)
      if existsb (fun p => strict_equals (Player.id p) playerId)
                 (_comparisonData c)
      then (false, c)
      else
        let c := set_comparison (_comparisonData c ++ [playerData]) c in
        let c :=
          showNotification
            ("Added " ++ to_string (Player.name playerData)
             ++ " to comparison") "success" c in
        (true, update_badge c)
  | RefNull | RefUndefined =>
      (* [throw new Error(`Player not found: ${playerId}`)], caught below *)
      (false,
       showNotification
         ("Failed to add player to comparison: "
          ++ ("Player not found: " ++ to_string playerId)) "error" c)
  end.

(** [removeFromComparison(playerId)].  [shown] tells whether the element
    ['comparison-container'] is there and displayed; the class has no
    method [_renderComparisonView], so the call that is made then throws a
    [TypeError], once the list and the badge are updated. *)
Definition removeFromComparison (playerId : value) (shown : bool)
    (c : Controller) : result unit * Controller :=
  let c :=
    set_comparison
      (filter (fun p => negb (strict_equals (Player.id p) playerId))
              (_comparisonData c)) c in
  let c := update_badge c in
  (if shown then throw TypeError else ok tt, c).

(** [clearComparison()], the modal apart. *)
Definition clearComparison (c : Controller) : Controller :=
  let c := set_comparison [] c in
  match badge c with
  | None => c
  | Some _ =>
      {| _dataService := _dataService c;
         _comparisonData := _comparisonData c;
         notifications := notifications c;
         badge := Some {| textContent := "0"; display := "none" |} |}
  end.

End PlayerController.

(** ** Vocabulary of the further properties *)

(** The value is a string: it has the method [toLowerCase]. *)
Definition is_string (v : value) : bool :=
  match v with
  | VStr _ => true
  | _ => false
  end.

(** The name search of the criteria cannot be carried out on the list: the
    search term is truthy and is no string, or it is a string and some
    player's name is none. *)
Definition search_breaks (f : Filters.t) (l : list Player.t) : bool :=
  truthy (Filters.playerSearch f)
  && (negb (is_string (Filters.playerSearch f))
      || existsb (fun p => negb (is_string (Player.name p))) l).

(** What the name search asks of a player whose name is a string. *)
Definition name_selects (v : value) (p : Player.t) : bool :=
  if truthy v then
    match v, Player.name p with
    | VStr term, VStr n => includes (toLowerCase n) (toLowerCase term)
    | _, _ => false
    end
  else true.

(** The criteria as one predicate: the name search and all the others. *)
Definition passes (f : Filters.t) (p : Player.t) : bool :=
  name_selects (Filters.playerSearch f) p && selects f p.

(** The service after one more report has been handed to the error
    handler. *)
Definition reported (e : js_error) (src : string) (show : bool) (s : Service)
    : Service :=
  snd (handleError e src show s).





(** A call has left the data of the service alone: the cache, the state
    store and the URL of the data source. *)
Definition same_data (s s' : Service) : Prop :=
  _cache s' = _cache s
  /\ _stateManager s' = _stateManager s
  /\ _dataSourceUrl s' = _dataSourceUrl s.

(** Every series of the chart has one data point for each category. *)
Definition one_point_per_category (c : ChartData) : Prop :=
  Forall (fun sr => List.length (data sr) = List.length (categories c))
         (series c).

(** The number of players of [l] whose field is strictly equal to [g]. *)
Definition group_size (field : Player.t -> value) (g : value)
    (l : list Player.t) : nat :=
  List.length (filter (fun player => strict_equals (field player) g) l).

(** The value of the own property [key] of an object used as a map, if it
    has one.  (The key ["__proto__"] names no own property: assigning to it
    sets the prototype of the object.) *)
Fixpoint obj_get {A : Type} (key : string) (obj : list (string * A))
    : option A :=
  match obj with
  | [] => None
  | (k, v) :: r => if String.eqb k key then Some v else obj_get key r
  end.

(** The aggregates of a group without members. *)
Definition no_members : GroupStats := group_stats [].

(** A value that is a finite number. *)
Definition finite_number (v : value) : Prop :=
  exists q : Q, v = VNum (Fin q).

(** The sum of the finite numbers among the values of a field. *)
Fixpoint sum_of (field : Player.t -> value) (l : list Player.t) : Q :=
  match l with
  | [] => 0
  | p :: r =>
      match field p with
      | VNum (Fin q) => q + sum_of field r
      | _ => sum_of field r
      end
  end.

(** A value that is a whole number, not negative. *)
Definition whole_number (v : value) : Prop :=
  exists (z : Z) (q : Q),
    (0 <= z)%Z /\ v = VNum (Fin q) /\ (q == inject_Z z)%Q.

(** [Number.MAX_SAFE_INTEGER]: up to it the numbers of the language hold
    every whole number, and the sum of two of them, exactly. *)
Definition MAX_SAFE_INTEGER : Q := 9007199254740991.

(** A value that is a finite number from [lo] to [hi]. *)
Definition within (lo hi : Q) (v : value) : Prop :=
  exists q : Q, v = VNum (Fin q) /\ (lo <= q)%Q /\ (q <= hi)%Q.

(** The response is ok and its body parses to the document [data]. *)
Definition delivers (o : fetch_outcome) (data : document) : Prop :=
  exists status : nat, o = Response true status (BodyJson data).

(** The document holds an array of players without a [null] entry. *)
Definition well_formed_document (data : document) : Prop :=
  exists entries : list (option Raw.t),
    data = DocObject (PlayersArray entries)
    /\ Forall (fun entry => entry <> None) entries.

(** A value JSON can express: not [undefined], not [NaN], not infinite. *)
Definition json_value (v : value) : bool :=
  match v with
  | VUndefined | VNum NaN | VNum (Infinity _) => false
  | _ => true
  end.

(** What a cache comes back as from the local storage. *)
Definition json_cache (c : Cache) : Cache :=
  {| players := map DataStore.json_player (players c);
     alliances := map json_element (alliances c);
     servers := map json_element (servers c);
     lastUpdated := lastUpdated c |}.

(** A page freshly opened on the given local storage: the service as the
    constructor leaves it. *)
Definition fresh_page (storage : option DataStore.item) : DataStore.Page :=
  {| DataStore.service := constructor; DataStore.localStorage := storage |}.

(** A record all of whose values JSON can express. *)
Definition json_record (p : Player.t) : bool :=
  forallb json_value
    [ Player.id p; Player.name p; Player.alliance p; Player.server p;
      Player.score p; Player.chests p; Player.ratio p ].

(** One call of [handleError] of the error handler, with what the
    environment decides for it. *)
Record Call : Type := {
  call_error : ErrorLog.problem;
  call_source : string;
  call_show : bool;
  call_level : string;
  call_moment : ErrorLog.Moment
}.

(** The entry the call adds to the log. *)
Definition entry_of (c : Call) : ErrorLog.ErrorObj :=
  ErrorLog._createErrorObject (call_error c) (call_source c) (call_level c)
                              (call_moment c).

(** The handler after the call, and after a sequence of calls. *)
Definition handle (c : Call) (h : ErrorLog.Handler) : ErrorLog.Handler :=
  snd (ErrorLog.handleError (call_error c) (call_source c) (call_show c)
                            (call_level c) (call_moment c) h).

Definition handle_all (calls : list Call) (h : ErrorLog.Handler)
    : ErrorLog.Handler :=
  fold_left (fun h c => handle c h) calls h.

(** A call made at time [n] with the text [text] for the error, which is
    also taken for the id. *)
Definition call_at (n : Z) (text : string) (show : bool) : Call :=
  {| call_error := ErrorLog.Plain (VStr text);
     call_source := "test"; call_show := show; call_level := "error";
     call_moment := {| ErrorLog.now := n; ErrorLog.generated_id := text |} |}.

(** No two players of the list have strictly equal ids, and the id of
    each is strictly equal to itself. *)
Definition distinct_ids (l : list Player.t) : Prop :=
  ForallOrdPairs
    (fun a b => strict_equals (Player.id a) (Player.id b) = false) l
  /\ Forall (fun a => strict_equals (Player.id a) (Player.id a) = true) l.

(** The badge, when there is one, shows the number of players compared,
    and is hidden when there is none. *)
Definition badge_shows (c : PlayerController.Controller) : Prop :=
  match PlayerController.badge c with
  | None => True
  | Some b =>
      let n := List.length (PlayerController._comparisonData c) in
      PlayerController.textContent b = number_to_string (num_of_nat n)
      /\ PlayerController.display b
         = (if (0 <? n)%nat then "block" else "none")%string
  end.

(** What happens to a player controller: the three methods on the
    comparison list, and a change of the cache of the data service behind
    it. *)
Inductive action : Type :=
| Add (playerId : value)
| Remove (playerId : value) (shown : bool)
| Clear
| Reloaded (s : Service).

Definition perform (a : action) (c : PlayerController.Controller)
    : PlayerController.Controller :=
  match a with
  | Add playerId => snd (PlayerController.addToComparison playerId c)
  | Remove playerId shown =>
      snd (PlayerController.removeFromComparison playerId shown c)
  | Clear => PlayerController.clearComparison c
  | Reloaded s =>
      {| PlayerController._dataService := s;
         PlayerController._comparisonData :=
           PlayerController._comparisonData c;
         PlayerController.notifications := PlayerController.notifications c;
         PlayerController.badge := PlayerController.badge c |}
  end.

Definition perform_all (actions : list action)
    (c : PlayerController.Controller) : PlayerController.Controller :=
  fold_left (fun c a => perform a c) actions c.

(** A value a distribution chart can place: it reads as a finite number
    that is not negative. *)
Definition placeable (v : value) : bool :=
  match to_number v with
  | Fin q => Qle_bool 0 q
  | _ => false
  end.

(** A cached record with the given name and score, one chest and a ratio
    that is [NaN]. *)
Definition scored (name : string) (score : value) : Player.t :=
  {| Player.id := VStr name; Player.name := VStr name;
     Player.alliance := VStr ""; Player.server := VStr "Unknown";
     Player.score := score; Player.chests := VNum (Fin 1);
     Player.ratio := VNum NaN |}.

(** A value that the embedding reads as a number just as the language
    does: any value that is no text, and a text that reads as no number.
    (What a text reads as when it is a number, the language rounds to the
    nearest of its numbers, [Infinity] beyond their range; the embedding
    keeps the exact value.) *)
Definition read_exactly (v : value) : bool :=
  match v with
  | VStr t => is_nan (string_to_number t)
  | _ => true
  end.

(** The chart counts the players of [l] bucket by bucket; a player of [l]
    is in exactly one bucket when its value can be placed and in none when
    it cannot; and so the counts of the chart add up to the number of
    players of [l] whose value can be placed. *)
Definition placed (field : Player.t -> value) (bounds : list Q)
    (chart : ChartData) (l : list Player.t) : Prop :=
  charted_by_bucket field bounds chart l
  /\ Forall (fun p => buckets_of bounds (field p)
                      = if placeable (field p) then 1%nat else 0%nat) l
  /\ list_sum (map (fun b => bucket_count field b l) (buckets_between bounds))
     = List.length (filter (fun p => placeable (field p)) l).

(* ================================================================== *)
(** * The embedding at work *)
(* ================================================================== *)

(** [parseInt(_, 10)] reads the longest run of digits after blanks and a
    sign; [parseFloat] the longest decimal literal. *)
Example parseInt_examples :
  map parseInt [VStr "abc"; VStr " 42px"; VStr "-7.9"; VStr ""; VStr "0x1F";
                VNum (Fin 12); VNum (Infinity false); VBool true; VNull]
  = [NaN; Fin 42; Fin (-7); NaN; Fin 0; Fin 12; NaN; NaN; NaN].
Proof. reflexivity. Qed.

Example parseFloat_examples :
  map parseFloat [VStr "abc"; VStr "1.5e2x"; VStr ".5"; VStr "-Infinity";
                  VStr "1e"; VNum (Fin (1 # 4)); VUndefined]
  = [NaN; Fin 150; Fin (1 # 2); Infinity true; Fin 1; Fin (1 # 4); NaN].
Proof. reflexivity. Qed.

(** [ToNumber] wants the whole string to be a number. *)
Example to_number_examples :
  map to_number [VStr ""; VStr " 12 "; VStr "12abc"; VStr "n/a"; VNull;
                 VUndefined; VBool true]
  = [Fin 0; Fin 12; NaN; NaN; Fin 0; NaN; Fin 1].
Proof. reflexivity. Qed.

Example number_to_string_examples :
  map number_to_string [Fin 0; Fin (-12); Fin (1 # 2); Fin (12345 # 10);
                        Fin (1000000000000000000000 # 1);
                        Fin (1 # 10000000); NaN; Infinity true]
  = ["0"; "-12"; "0.5"; "1234.5"; "1e+21"; "1e-7"; "NaN";
     "-Infinity"]%string.
Proof. reflexivity. Qed.

(** A stable sort: the two players with score 5 keep their order. *)
Example array_sort_example :
  map Player.name
    (array_sort (descending Player.score)
       [ player "ann" (Fin 5) (Fin 1) (Fin 5);
         player "bob" (Fin 9) (Fin 1) (Fin 9);
         player "cyd" (Fin 5) (Fin 1) (Fin 5) ])
  = [VStr "bob"; VStr "ann"; VStr "cyd"].
Proof. reflexivity. Qed.

(** Players [{ score: 100, chests: 10 }, { score: 300, chests: 0 }]: the
    ratios are 10 and 0, the mean score is 200 and the mean chests 5. *)
Example statistics_example :
  let data :=
    DocObject (PlayersArray [ entry (VNum (Fin 100)) (VNum (Fin 10));
                              entry (VNum (Fin 300)) (VNum (Fin 0)) ]) in
  let s := snd (_processData data 0 constructor) in
  let stats := fst (getStatistics s) in
  map Player.ratio (players (_cache s)) = [VNum (Fin 10); VNum (Fin 0)]
  /\ stat_averageScore stats = VNum (Fin 200)
  /\ stat_averageChests stats = VNum (Fin 5).
Proof. repeat split. Qed.

(** The statistics of an empty cache: zero everywhere, no top players. *)
Example statistics_of_nothing :
  let stats := fst (getStatistics constructor) in
  ( totalPlayers stats, stat_totalChests stats, stat_totalScore stats,
    stat_averageChests stats, stat_averageScore stats,
    stat_averageRatio stats )
  = ( VNum (Fin 0), VNum (Fin 0), VNum (Fin 0),
      VNum (Fin 0), VNum (Fin 0), VNum (Fin 0) )
  /\ topPlayersByScore stats = []
  /\ topPlayersByChests stats = []
  /\ topPlayersByRatio stats = [].
Proof. repeat split. Qed.

(** Scores 500, 1500 and 1500000 fall into the first, the second and the
    last bucket; a score on a boundary belongs to the bucket it opens. *)
Example score_distribution_example :
  range_counts Player.score score_ranges
    [ player "ann" (Fin 500) (Fin 1) (Fin 500);
      player "bob" (Fin 1500) (Fin 1) (Fin 1500);
      player "cyd" (Fin 1500000) (Fin 1) (Fin 1500000) ]
  = [1; 1; 0; 0; 0; 0; 0; 1]%nat
  /\ range_counts Player.score score_ranges
       [ player "dan" (Fin 1000) (Fin 1) (Fin 1000) ]
     = [0; 1; 0; 0; 0; 0; 0; 0]%nat.
Proof. split; reflexivity. Qed.

(** [getChartData('bogus', {})]: the empty chart and one report. *)
Example unknown_chart_example :
  getChartData (VStr "bogus")
    (Obj {| filters := Omitted; metric := VUndefined |}) constructor
  = ( empty_chart,
      {| _cache := _cache constructor;
         _dataSourceUrl := _dataSourceUrl constructor;
         _stateManager := _stateManager constructor;
         _errorHandler :=
           [ {| error := Error "Unknown chart type: bogus";
                source := "DataService.getChartData";
                showToUser := false |} ] |} ).
Proof. reflexivity. Qed.

(* ================================================================== *)
(** * Facts about the JavaScript fragment *)
(* ================================================================== *)

Section NumberFacts.

Lemma Qlt_bool_iff (x y : Q) : Qlt_bool x y = true <-> (x < y)%Q.
Proof.
  unfold Qlt_bool. rewrite negb_true_iff. split.
  - intros H. apply Qnot_le_lt. intros C.
    apply Qle_bool_iff in C. congruence.
  - intros H. destruct (Qle_bool y x) eqn:E; [|reflexivity].
    apply Qle_bool_iff in E. exfalso. apply (Qlt_not_le _ _ H E).
Qed.

Lemma Qlt_bool_false_iff (x y : Q) : Qlt_bool x y = false <-> (y <= x)%Q.
Proof.
  unfold Qlt_bool. rewrite negb_false_iff. apply Qle_bool_iff.
Qed.

Lemma num_lt_irrefl (a : number) : num_lt a a = false.
Proof.
  destruct a as [|[]|q]; simpl; try reflexivity.
  apply Qlt_bool_false_iff. apply Qle_refl.
Qed.

Lemma num_lt_asym (a b : number) : num_lt a b = true -> num_lt b a = false.
Proof.
  destruct a as [|[]|x], b as [|[]|y]; simpl; try congruence.
  rewrite Qlt_bool_iff, Qlt_bool_false_iff. apply Qlt_le_weak.
Qed.

(** On numbers other than [NaN], "not less" is transitive. *)
Lemma num_lt_false_trans (a b c : number) :
  is_nan b = false ->
  num_lt a b = false -> num_lt b c = false -> num_lt a c = false.
Proof.
  destruct a as [|[]|x], b as [|[]|y], c as [|[]|z]; simpl;
    try congruence.
  intros _. rewrite !Qlt_bool_false_iff. intros H1 H2.
  eapply Qle_trans; eassumption.
Qed.

Lemma num_eq_lt_false (a b k : number) :
  num_eq a k = true -> num_eq b k = true -> num_lt a b = false.
Proof.
  destruct a as [|[]|x], b as [|[]|y], k as [|[]|z]; simpl;
    try congruence.
  intros H1 H2. apply Qeq_bool_iff in H1. apply Qeq_bool_iff in H2.
  apply Qlt_bool_false_iff. rewrite H1, H2. apply Qle_refl.
Qed.

(** The sign of a difference decides the order: [b - a > 0] exactly when
    [a < b], whatever the operands. *)
Lemma num_sub_pos (a b : number) :
  num_gt (num_sub b a) (Fin 0) = num_lt a b.
Proof.
  unfold num_gt, num_sub.
  destruct a as [|[]|x], b as [|[]|y];
    cbn [num_lt num_add num_neg Bool.eqb negb andb]; try reflexivity.
  destruct (Qlt_bool x y) eqn:E.
  - apply Qlt_bool_iff. apply Qlt_bool_iff in E.
    rewrite Qred_correct. lra.
  - apply Qlt_bool_false_iff. apply Qlt_bool_false_iff in E.
    rewrite Qred_correct. lra.
Qed.

End NumberFacts.

(** ** The stable sort *)

Section SortFacts.
Variable A : Type.
Variable cmp : A -> A -> number.

Lemma sort_insert_perm (x : A) (l : list A) :
  Permutation (x :: l) (sort_insert cmp x l).
Proof.
  induction l as [|y r IH]; simpl.
  - apply Permutation_refl.
  - destruct (sorts_after cmp x y).
    + eapply perm_trans; [apply perm_swap|]. now apply perm_skip.
    + apply Permutation_refl.
Qed.

(** Sorting rearranges: whatever the comparison function. *)
Lemma array_sort_perm (l : list A) : Permutation l (array_sort cmp l).
Proof.
  induction l as [|x r IH]; simpl.
  - constructor.
  - eapply perm_trans; [|apply sort_insert_perm]. now apply perm_skip.
Qed.

Lemma sort_insert_stable (P : A -> bool) (x : A) (l : list A) :
  (forall a b, P a = true -> P b = true -> sorts_after cmp a b = false) ->
  filter P (sort_insert cmp x l) = filter P (x :: l).
Proof.
  intros tied. induction l as [|y r IH]; simpl; [reflexivity|].
  destruct (sorts_after cmp x y) eqn:E; [|reflexivity].
  simpl in *. rewrite IH.
  destruct (P x) eqn:Px, (P y) eqn:Py; try reflexivity.
  rewrite (tied x y Px Py) in E. discriminate.
Qed.

(** Elements that never have to come after one another keep their
    order: whatever the comparison function. *)
Lemma array_sort_stable (P : A -> bool) (l : list A) :
  (forall a b, P a = true -> P b = true -> sorts_after cmp a b = false) ->
  filter P (array_sort cmp l) = filter P l.
Proof.
  intros tied. induction l as [|x r IH]; simpl; [reflexivity|].
  rewrite (sort_insert_stable _ _ _ tied). simpl. now rewrite IH.
Qed.

(** The list the elements are taken from, and what makes the comparison
    function consistent on it. *)
Variable domain : A -> Prop.
Hypothesis asym : forall a b,
  sorts_after cmp a b = true -> sorts_after cmp b a = false.
Hypothesis trans : forall a b c, domain b ->
  sorts_after cmp a b = false -> sorts_after cmp b c = false ->
  sorts_after cmp a c = false.

Lemma sort_insert_sorted (x : A) (l : list A) :
  domain x -> Forall domain l ->
  StronglySorted (fun a b => sorts_after cmp a b = false) l ->
  StronglySorted (fun a b => sorts_after cmp a b = false)
                 (sort_insert cmp x l).
Proof.
  intros dx dl sorted. induction sorted as [|y r sr IH ally]; simpl.
  - constructor; constructor.
  - inversion dl as [|? ? dy dr]; subst.
    destruct (sorts_after cmp x y) eqn:E.
    + constructor; [now apply IH|].
      eapply Permutation_Forall; [apply sort_insert_perm|].
      constructor; [now apply asym | assumption].
    + constructor; [now constructor|].
      constructor; [assumption|].
      rewrite Forall_forall in ally |- *. intros z Hz.
      apply trans with (b := y); auto.
Qed.

Lemma array_sort_sorted (l : list A) :
  Forall domain l ->
  StronglySorted (fun a b => sorts_after cmp a b = false)
                 (array_sort cmp l).
Proof.
  induction l as [|x r IH]; simpl; intros dl.
  - constructor.
  - inversion dl; subst. apply sort_insert_sorted; auto.
    eapply Permutation_Forall; [apply array_sort_perm | assumption].
Qed.
End SortFacts.

Lemma StronglySorted_weaken (A : Type) (R S : A -> A -> Prop) (l : list A) :
  (forall a b, R a b -> S a b) -> StronglySorted R l -> StronglySorted S l.
Proof.
  intros sub sorted. induction sorted as [|x r sr IH allx]; constructor.
  - exact IH.
  - eapply Forall_impl; [|exact allx]. intros b. apply sub.
Qed.

Lemma StronglySorted_weaken_on (A : Type) (D : A -> Prop)
    (R S : A -> A -> Prop) (l : list A) :
  (forall a b, D a -> D b -> R a b -> S a b) ->
  Forall D l -> StronglySorted R l -> StronglySorted S l.
Proof.
  intros sub dl sorted. induction sorted as [|x r sr IH allx]; constructor.
  - apply IH. now inversion dl.
  - inversion dl as [|? ? dx dr]; subst.
    rewrite Forall_forall in *. intros b Hb. apply sub; auto.
Qed.

(** Any two elements of a sorted list are related one way or the other. *)
Lemma StronglySorted_pairs (A : Type) (R : A -> A -> Prop) (l : list A) :
  StronglySorted R l ->
  forall x y, In x l -> In y l -> x = y \/ R x y \/ R y x.
Proof.
  induction 1 as [|x0 l sl IH allx]; intros x y Hx Hy; [destruct Hx|].
  rewrite Forall_forall in allx.
  destruct Hx as [<-|Hx], Hy as [<-|Hy]; auto.
Qed.

Lemma num_ge_not_lt (a b : number) :
  is_nan a = false -> is_nan b = false ->
  num_lt a b = false -> num_ge a b = true.
Proof.
  unfold num_ge, num_le.
  destruct a as [|[]|x], b as [|[]|y]; simpl; try congruence;
    intros _ _ H; now rewrite H.
Qed.

(** ** Sorting players by a numeric field, descending *)

Section TopPlayers.
Variable field : Player.t -> value.

Lemma sorts_after_descending (a b : Player.t) :
  sorts_after (descending field) a b = num_lt (key field a) (key field b).
Proof. unfold sorts_after, descending, js_sub, key. apply num_sub_pos. Qed.

(** Without [NaN] among the keys, the comparison function is consistent
    and the sort delivers what its name says. *)
Lemma top10_stable_descending (l : list Player.t) :
  comparable field l -> top10_of field l (top10 field l).
Proof.
  intros nonan. exists (array_sort (descending field) l).
  split; [|reflexivity]. repeat split.
  - apply array_sort_perm.
  - assert (consistent :
      StronglySorted
        (fun a b => sorts_after (descending field) a b = false)
        (array_sort (descending field) l)).
    { apply array_sort_sorted
        with (domain := fun p => is_nan (key field p) = false).
      - intros a b. rewrite !sorts_after_descending. apply num_lt_asym.
      - intros a b c. rewrite !sorts_after_descending.
        apply num_lt_false_trans.
      - exact nonan. }
    revert consistent.
    apply StronglySorted_weaken_on
      with (D := fun p => is_nan (key field p) = false).
    + intros a b Da Db. rewrite sorts_after_descending.
      now apply num_ge_not_lt.
    + eapply Permutation_Forall; [apply array_sort_perm | exact nonan].
  - intros k. apply array_sort_stable. intros a b Ha Hb.
    rewrite sorts_after_descending. eapply num_eq_lt_false; eassumption.
Qed.
End TopPlayers.

Lemma valid_metric_cases (metric : value) :
  (array_includes [VStr "score"; VStr "chests"; VStr "ratio"] metric = true
   /\ metric = VStr (valid_metric metric))
  \/ (array_includes [VStr "score"; VStr "chests"; VStr "ratio"] metric = false
      /\ valid_metric metric = "score"%string).
Proof.
  unfold valid_metric.
  destruct (array_includes _ metric) eqn:E; [left | right]; split; auto.
  destruct metric as [| |b|n|m]; try reflexivity; simpl in E;
    try discriminate.
  destruct n as [|[]|q]; discriminate.
Qed.

(** ** Distribution tables *)

Section Buckets.
Variable field : Player.t -> value.

Lemma in_range_finite (r : Range) (p : Player.t) (lo q : Q) :
  min r = Fin lo -> to_number (field p) = Fin q ->
  in_range field r p = Qle_bool lo q && num_lt (Fin q) (max r).
Proof.
  intros Hmin Hq. unfold in_range, js_ge, js_lt, num_ge.
  rewrite Hmin, Hq. cbn [num_le num_lt]. unfold Qlt_bool.
  now rewrite negb_involutive.
Qed.

(** A value at or above the start of a chained table is in exactly one of
    its buckets, a value below it in none. *)
Lemma chained_holds_once (ranges : list Range) :
  forall (lo : Q) (p : Player.t) (q : Q),
    chained lo ranges -> to_number (field p) = Fin q ->
    buckets_holding field ranges p = if Qle_bool lo q then 1%nat else 0%nat.
Proof.
  unfold buckets_holding.
  induction ranges as [|r rest IH]; intros lo p q Hc Hq; [destruct Hc|].
  destruct Hc as [Hmin Hrest]. cbn [filter].
  rewrite (in_range_finite r p Hmin Hq).
  destruct rest as [|r' rest'].
  - rewrite Hrest. cbn [num_lt negb filter andb].
    rewrite andb_true_r. now destruct (Qle_bool lo q).
  - destruct Hrest as [hi [Hmax [Hle Hc']]].
    rewrite Hmax. cbn [num_lt].
    specialize (IH hi p q Hc' Hq).
    destruct (Qle_bool lo q) eqn:E1, (Qlt_bool q hi) eqn:E2;
      cbn [andb List.length]; rewrite IH.
    + apply Qlt_bool_iff in E2.
      destruct (Qle_bool hi q) eqn:E3; [|reflexivity].
      apply Qle_bool_iff in E3. exfalso. apply (Qlt_not_le _ _ E2 E3).
    + apply Qlt_bool_false_iff in E2. apply Qle_bool_iff in E2.
      now rewrite E2.
    + apply Qlt_bool_iff in E2.
      destruct (Qle_bool hi q) eqn:E3; [|reflexivity].
      apply Qle_bool_iff in E3. exfalso. apply (Qlt_not_le _ _ E2 E3).
    + apply Qlt_bool_false_iff in E2.
      assert (lo <= q)%Q by (eapply Qle_trans; eassumption).
      apply Qle_bool_iff in H. congruence.
Qed.

Lemma length_filter_cons (A : Type) (f : A -> bool) (x : A) (l : list A) :
  List.length (filter f (x :: l))
  = ((if f x then 1 else 0) + List.length (filter f l))%nat.
Proof. simpl. now destruct (f x). Qed.

Lemma list_sum_cons (n : nat) (l : list nat) :
  list_sum (n :: l) = (n + list_sum l)%nat.
Proof. reflexivity. Qed.

Lemma length_filter_sum (A : Type) (f : A -> bool) (l : list A) :
  List.length (filter f l)
  = list_sum (map (fun x => if f x then 1 else 0)%nat l).
Proof.
  induction l as [|x l IH]; [reflexivity|].
  now rewrite length_filter_cons, IH, map_cons, list_sum_cons.
Qed.

Lemma list_sum_map_add (A : Type) (f g : A -> nat) (l : list A) :
  list_sum (map (fun x => f x + g x)%nat l)
  = (list_sum (map f l) + list_sum (map g l))%nat.
Proof. induction l as [|x l IH]; simpl; lia. Qed.

(** Counting the players of each bucket, or the buckets of each player,
    comes to the same total. *)
Lemma counts_exchange (ranges : list Range) (l : list Player.t) :
  list_sum (range_counts field ranges l)
  = list_sum (map (buckets_holding field ranges) l).
Proof.
  unfold range_counts, buckets_holding.
  induction ranges as [|r rest IH].
  - simpl. induction l as [|p l IHl]; simpl; auto.
  - rewrite map_cons, list_sum_cons, IH, length_filter_sum.
    rewrite <- list_sum_map_add. f_equal. apply map_ext.
    intros p. now rewrite length_filter_cons.
Qed.

Lemma list_sum_ones (l : list Player.t) (f : Player.t -> nat) :
  Forall (fun p => f p = 1%nat) l -> list_sum (map f l) = List.length l.
Proof.
  induction 1 as [|p l Hp _ IH]; simpl; [reflexivity|].
  now rewrite Hp, IH.
Qed.

End Buckets.

Lemma score_ranges_chained : chained 0 score_ranges.
Proof.
  simpl. repeat (split; [reflexivity|]; try (eexists; split; [reflexivity|]);
    try (split; [discriminate|])). reflexivity.
Qed.

Lemma chest_ranges_chained : chained 0 chest_ranges.
Proof.
  simpl. repeat (split; [reflexivity|]; try (eexists; split; [reflexivity|]);
    try (split; [discriminate|])). reflexivity.
Qed.

Lemma ratio_ranges_chained : chained 0 ratio_ranges.
Proof.
  simpl. repeat (split; [reflexivity|]; try (eexists; split; [reflexivity|]);
    try (split; [discriminate|])). reflexivity.
Qed.

(** ** Filtering *)

Section FilterFacts.

Lemma filter_true (A : Type) (l : list A) : filter (fun _ => true) l = l.
Proof. induction l as [|x l IH]; simpl; congruence. Qed.

Lemma filter_and (A : Type) (f g : A -> bool) (l : list A) :
  filter g (filter f l) = filter (fun x => f x && g x) l.
Proof.
  induction l as [|x l IH]; simpl; [reflexivity|].
  destruct (f x); simpl; [destruct (g x)|]; now rewrite IH.
Qed.

Lemma filter_idempotent (A : Type) (f : A -> bool) (l : list A) :
  filter f (filter f l) = filter f l.
Proof.
  rewrite filter_and. apply filter_ext. intros x. now destruct (f x).
Qed.

(** A bound that is falsy or does not parse leaves the list as it is. *)
Lemma bound_filter_unusable (parse : value -> number)
    (keep : Player.t -> number -> bool) (v : value) (l : list Player.t) :
  truthy v = false \/ parse v = NaN -> bound_filter parse keep v l = l.
Proof.
  unfold bound_filter. intros [H|H]; rewrite H; [reflexivity|].
  now destruct (truthy v).
Qed.

Lemma bound_filter_selects parse keep v l :
  bound_filter parse keep v l = filter (bound_selects parse keep v) l.
Proof.
  unfold bound_filter, bound_selects.
  destruct (truthy v); [destruct (negb (isNaN (parse v)))|];
    auto using filter_true.
Qed.

Lemma equal_filter_selects field v l :
  (if truthy v then filter (fun p => strict_equals (field p) v) l else l)
  = filter (equal_selects field v) l.
Proof.
  unfold equal_selects. destruct (truthy v); auto using filter_true.
Qed.

(** [applyFilters] is the name search followed by a selection. *)
Lemma applyFilters_stages (f : Filters.t) (l : list Player.t) :
  applyFilters (Obj f) l
  = and_then (search (Filters.playerSearch f) l)
             (fun l1 => ok (filter (selects f) l1)).
Proof.
  unfold applyFilters, search.
  destruct (if truthy (Filters.playerSearch f) then _ else _) as [e|l1];
    [reflexivity|].
  cbn [and_then]. unfold ok. f_equal.
  rewrite !equal_filter_selects, !bound_filter_selects, !filter_and.
  apply filter_ext. intros x. unfold selects.
  now rewrite !andb_assoc.
Qed.

Lemma applyFilters_omitted (l : list Player.t) :
  applyFilters Omitted l = applyFilters (Obj Filters.empty) l.
Proof. reflexivity. Qed.

(** When the name search returns, it returns a selection of the list,
    and it returns as well on any selection of the list. *)
Lemma filter_throwing_selection (A : Type) (f : A -> result bool)
    (l l' : list A) :
  filter_throwing f l = inr l' ->
  exists P : A -> bool,
    l' = filter P l /\ Forall (fun x => f x = inr (P x)) l.
Proof.
  intros H. exists (fun x => match f x with inr b => b | inl _ => false end).
  revert l' H. induction l as [|x l IH]; simpl; intros l' H.
  - inversion H. split; constructor.
  - destruct (f x) as [e|b] eqn:E; simpl in H; [discriminate|].
    destruct (filter_throwing f l) as [e|r]; simpl in H; [discriminate|].
    destruct (IH r eq_refl) as [Hr Hall]. inversion H; subst l'.
    split.
    + simpl. rewrite ?E. destruct b; now rewrite <- Hr.
    + constructor; [rewrite ?E; reflexivity | exact Hall].
Qed.

Lemma filter_throwing_returns (A : Type) (f : A -> result bool)
    (P : A -> bool) (l : list A) :
  Forall (fun x => f x = inr (P x)) l ->
  filter_throwing f l = inr (filter P l).
Proof.
  induction 1 as [|x l Hx _ IH]; simpl; [reflexivity|].
  rewrite Hx, IH. simpl. now destruct (P x).
Qed.

Lemma Forall_filter (A : Type) (Q : A -> Prop) (P : A -> bool) (l : list A) :
  Forall Q l -> Forall Q (filter P l).
Proof.
  induction 1 as [|x l Hx _ IH]; simpl; [constructor|].
  destruct (P x); auto.
Qed.

Lemma search_idempotent (v : value) (l l' : list Player.t) :
  search v l = inr l' ->
  exists P : Player.t -> bool,
    l' = filter P l
    /\ forall Q : Player.t -> bool,
         search v (filter Q l) = inr (filter P (filter Q l)).
Proof.
  unfold search. destruct (truthy v).
  - destruct (lower_of v) as [e|searchTerm]; simpl; [discriminate|].
    intros H. destruct (filter_throwing_selection _ _ H) as [P [Hl' Hall]].
    exists P. split; [exact Hl'|]. intros Q.
    apply filter_throwing_returns. now apply Forall_filter.
  - intros H. inversion H; subst l'. exists (fun _ => true).
    split; [now rewrite filter_true|]. intros Q. now rewrite filter_true.
Qed.

(** Filtering what has been filtered with the same criteria changes
    nothing. *)
Lemma stages_idempotent (f : Filters.t) (l l' : list Player.t) :
  applyFilters (Obj f) l = inr l' -> applyFilters (Obj f) l' = inr l'.
Proof.
  rewrite !applyFilters_stages.
  destruct (search (Filters.playerSearch f) l) as [e|l1] eqn:E; simpl;
    [discriminate|].
  intros H. inversion H; subst l'; clear H.
  destruct (search_idempotent _ _ E) as [P [Hl1 Hre]]. subst l1.
  rewrite filter_and, Hre. simpl. unfold ok. f_equal.
  rewrite !filter_and. apply filter_ext. intros x.
  destruct (P x), (selects f x); reflexivity.
Qed.

(** Filtering what has been filtered with the same criteria changes
    nothing. *)
Lemma applyFilters_idempotent (f : argument Filters.t)
    (l l' : list Player.t) :
  applyFilters f l = inr l' -> applyFilters f l' = inr l'.
Proof.
  destruct f as [| |f].
  - rewrite !applyFilters_omitted. apply stages_idempotent.
  - auto.
  - apply stages_idempotent.
Qed.

Lemma applyFilters_nil (f : argument Filters.t) :
  applyFilters f [] = inr [] \/ exists err, applyFilters f [] = inl err.
Proof.
  assert (stages : forall o,
    applyFilters (Obj o) [] = inr []
    \/ exists err, applyFilters (Obj o) [] = inl err).
  { intros o. rewrite applyFilters_stages. unfold search.
    destruct (truthy (Filters.playerSearch o)); [|now left].
    destruct (lower_of (Filters.playerSearch o)); simpl; eauto. }
  destruct f as [| |f]; [rewrite applyFilters_omitted| now left |];
    apply stages.
Qed.
End FilterFacts.

(** ** Derived lists: [Set], default [sort()] *)

Section DerivedLists.

Lemma string_leb_trans (a b c : string) :
  String.leb a b = true -> String.leb b c = true -> String.leb a c = true.
Proof.
  assert (le_iff : forall x y,
    String.leb x y = true <-> OrderedTypeEx.String_as_OT.lt x y \/ x = y).
  { intros x y. unfold String.leb.
    destruct (String.compare x y) eqn:E; split; intros H; try reflexivity.
    - right. now apply OrderedTypeEx.String_as_OT.cmp_eq.
    - left. now apply OrderedTypeEx.String_as_OT.cmp_lt.
    - discriminate.
    - destruct H as [H|H].
      + apply OrderedTypeEx.String_as_OT.cmp_lt in H.
        unfold OrderedTypeEx.String_as_OT.cmp in H. congruence.
      + apply OrderedTypeEx.String_as_OT.cmp_eq in H.
        unfold OrderedTypeEx.String_as_OT.cmp in H. congruence. }
  rewrite !le_iff. intros [H1|H1] [H2|H2]; subst; auto.
  left. eapply OrderedTypeEx.String_as_OT.lt_trans; eassumption.
Qed.

Lemma sorts_after_default (a b : value) :
  sorts_after default_compare a b
  = negb (String.leb (to_string a) (to_string b)).
Proof.
  unfold sorts_after, default_compare, String.leb.
  now destruct (String.compare (to_string a) (to_string b)).
Qed.

(** [sort()] without a comparison function leaves the list ascending. *)
Lemma default_sort_ascending (l : list value) :
  ascending (array_sort default_compare l).
Proof.
  assert (consistent :
    StronglySorted (fun a b => sorts_after default_compare a b = false)
                   (array_sort default_compare l)).
  { apply array_sort_sorted with (domain := fun _ => True).
    - intros a b. rewrite !sorts_after_default, negb_true_iff, negb_false_iff.
      intros H. destruct (String.leb_total (to_string a) (to_string b));
        congruence.
    - intros a b c _. rewrite !sorts_after_default, !negb_false_iff.
      apply string_leb_trans.
    - apply Forall_forall. auto. }
  revert consistent. apply StronglySorted_weaken.
  intros a b. now rewrite sorts_after_default, negb_false_iff.
Qed.

Lemma same_value_zero_sym (a b : value) :
  same_value_zero a b = same_value_zero b a.
Proof.
  destruct a as [| |x|[|[]|x]|x], b as [| |y|[|[]|y]|y]; simpl;
    try reflexivity.
  - now destruct x, y.
  - destruct (Qeq_bool x y) eqn:E, (Qeq_bool y x) eqn:E'; try reflexivity.
    + apply Qeq_bool_iff in E. symmetry in E. apply Qeq_bool_iff in E.
      congruence.
    + apply Qeq_bool_iff in E'. symmetry in E'. apply Qeq_bool_iff in E'.
      congruence.
  - apply String.eqb_sym.
Qed.

Lemma same_value_zero_refl (a : value) : same_value_zero a a = true.
Proof.
  destruct a as [| |x|[|[]|x]|x]; simpl; try reflexivity.
  - now destruct x.
  - apply Qeq_bool_iff. reflexivity.
  - apply String.eqb_refl.
Qed.

Lemma ForallOrdPairs_filter (A : Type) (R : A -> A -> Prop) (P : A -> bool)
    (l : list A) :
  ForallOrdPairs R l -> ForallOrdPairs R (filter P l).
Proof.
  induction 1 as [|x l Hx _ IH]; simpl; [constructor|].
  destruct (P x); [constructor|]; auto using Forall_filter.
Qed.

Lemma ForallOrdPairs_perm (A : Type) (R : A -> A -> Prop) (l l' : list A) :
  (forall a b, R a b -> R b a) ->
  Permutation l l' -> ForallOrdPairs R l -> ForallOrdPairs R l'.
Proof.
  intros sym. induction 1 as [|x l l' Hp IH|x y l|l l' l'' _ IH1 _ IH2];
    intros H; auto.
  - inversion H; subst. constructor; auto.
    eapply Permutation_Forall; eassumption.
  - inversion H as [|? ? Hy Hr]; subst.
    inversion Hy; subst. inversion Hr; subst.
    constructor; [constructor; auto|]. now constructor.
Qed.

Lemma Forall_set_of (Q : value -> Prop) (l : list value) :
  Forall Q l -> Forall Q (set_of l).
Proof.
  induction 1 as [|x l Hx _ IH]; simpl; constructor; auto using Forall_filter.
Qed.

(** A [Set] holds no value twice. *)
Lemma set_of_duplicate_free (l : list value) : duplicate_free (set_of l).
Proof.
  induction l as [|x l IH]; simpl; constructor.
  - apply Forall_forall. intros y Hy. apply filter_In in Hy.
    now apply negb_true_iff.
  - now apply ForallOrdPairs_filter.
Qed.

Lemma duplicate_free_NoDup (l : list value) : duplicate_free l -> NoDup l.
Proof.
  induction 1 as [|x l Hx _ IH]; constructor; auto.
  intros Hin. rewrite Forall_forall in Hx. specialize (Hx x Hin).
  rewrite same_value_zero_refl in Hx. discriminate.
Qed.

(** What [_processData] derives from a field of the players: ascending,
    without duplicates, without the sentinel. *)
Lemma unique_sorted_spec (field : Player.t -> value) (sentinel : string)
    (l : list Player.t) :
  ascending (unique_sorted field sentinel l)
  /\ duplicate_free (unique_sorted field sentinel l)
  /\ NoDup (unique_sorted field sentinel l)
  /\ ~ In (VStr sentinel) (unique_sorted field sentinel l).
Proof.
  unfold unique_sorted.
  set (kept := filter _ (map field l)).
  assert (dup : duplicate_free (array_sort default_compare (set_of kept))).
  { eapply ForallOrdPairs_perm;
      [|apply array_sort_perm | apply set_of_duplicate_free].
    intros a b. now rewrite same_value_zero_sym. }
  split; [apply default_sort_ascending|].
  split; [exact dup|]. split; [now apply duplicate_free_NoDup|].
  intros Hin.
  assert (other : Forall (fun x => strict_equals x (VStr sentinel) = false)
                         (array_sort default_compare (set_of kept))).
  { eapply Permutation_Forall; [apply array_sort_perm|].
    apply Forall_set_of. apply Forall_forall. intros x Hx.
    apply filter_In in Hx. now apply negb_true_iff. }
  rewrite Forall_forall in other. specialize (other _ Hin).
  simpl in other. rewrite String.eqb_refl in other. discriminate.
Qed.
End DerivedLists.

Unset Implicit Arguments.

(* ================================================================== *)
(** * Normalisation of the input document *)
(* ================================================================== *)

Lemma positive_is_truthy (v : value) :
  js_gt v (Fin 0) = true -> truthy v = true.
Proof.
  unfold js_gt, num_gt.
  destruct v as [| |[]|[|[]|q]|[|c s]]; cbn; try congruence.
  - intros H. apply Qlt_bool_iff in H.
    destruct (Qeq_bool q 0) eqn:E; [|reflexivity].
    apply Qeq_bool_iff in E. rewrite E in H. now apply Qlt_irrefl in H.
Qed.

(** Dividing the defaulted score gives what dividing the raw score gives,
    as long as the entry has a score. *)
Lemma js_div_defaulted (v d : value) :
  v <> VUndefined -> v <> VNum NaN ->
  js_div (js_or v (VNum (Fin 0))) d = js_div v d.
Proof.
  intros Hu Hn. unfold js_or.
  destruct v as [| |[]|[|[]|q]|[|c s]]; try reflexivity; try congruence.
  cbn [truthy]. destruct (Qeq_bool q 0) eqn:E; [|reflexivity].
  apply Qeq_bool_iff in E. cbn [negb]. unfold js_div. cbn [to_number].
  destruct (to_number d) as [|[]|y]; cbn [num_div]; try reflexivity.
  destruct (Qeq_bool y 0); [|].
  - assert (Z : Qeq_bool q 0 = true) by now apply Qeq_bool_iff.
    now rewrite Z.
  - f_equal. apply Qred_complete. now rewrite E.
Qed.

Lemma process_player_ratio (e : Raw.t) (index : nat) (p : Player.t) :
  process_player (Some e) index = inr p -> ratio_as_designed e p.
Proof.
  intros H. unfold process_player, ok in H.
  apply (f_equal (fun r => match r with inr x => x | inl _ => p end)) in H.
  cbv beta iota in H. subst p.
  unfold ratio_as_designed. cbn [Player.ratio Player.score Player.chests].
  split; [|split].
  - intros G. now rewrite G.
  - intros G [Hu Hn]. rewrite G. split.
    + rewrite (js_div_defaulted _ _ Hu Hn).
      unfold js_or at 1. now rewrite (positive_is_truthy _ G).
    + intros Hs. unfold js_div. now rewrite Hs.
  - intros a c Ha Hc. unfold js_gt, js_div, num_gt. rewrite Ha, Hc.
    cbn [to_number num_lt num_div]. destruct (Qlt_bool 0 c) eqn:G.
    + apply Qlt_bool_iff in G.
      destruct (Qeq_bool c 0) eqn:E.
      * apply Qeq_bool_iff in E. rewrite E in G. now apply Qlt_irrefl in G.
      * exists (Fin (Qred (a / c))). split; reflexivity.
    + exists (Fin 0). split; reflexivity.
Qed.

Lemma map_throwing_each (A B : Type) (f : A -> nat -> result B) (l : list A) :
  forall (index : nat) (l' : list B),
    map_throwing f index l = inr l' ->
    Forall2 (fun x y => exists i : nat, f x i = inr y) l l'.
Proof.
  induction l as [|x l IH]; intros index l' H; simpl in H.
  - inversion H. constructor.
  - destruct (f x index) as [e|y] eqn:E; simpl in H; [discriminate|].
    destruct (map_throwing f (S index) l) as [e|r] eqn:E'; simpl in H;
      [discriminate|].
    inversion H; subst l'. constructor; eauto.
Qed.

(** [_processData] either stores the cache it has built and returns
    [true], or leaves the cache alone and returns [false]. *)
Lemma processData_cache (data : document) (now : Z) (s : Service) :
  match processed_cache data now with
  | inr c => fst (_processData data now s) = true
             /\ _cache (snd (_processData data now s)) = c
  | inl _ => fst (_processData data now s) = false
             /\ _cache (snd (_processData data now s)) = _cache s
  end.
Proof.
  unfold _processData. destruct (processed_cache data now); split; reflexivity.
Qed.

(** C1, as the code has it.  For every input document that
    [_processData] accepts, every record has ratio exactly 0 when the
    chests of its entry are not greater than 0 (zero, absent and non-numeric
    chests included), and, when they are greater than 0 and the entry has a
    score, ratio equal to the language's division of the record's score by
    its chests; whenever the score and the chests of the entry are finite
    numbers the ratio is a number and not [NaN]. *)
Theorem processData_ratio :
  forall (data : document) (now : Z) (s : Service),
    let (loaded, s') := _processData data now s in
    loaded = true ->
    (data = DocObject PlayersFalsy /\ players (_cache s') = [])
    \/ exists entries : list (option Raw.t),
         data = DocObject (PlayersArray entries)
         /\ Forall2 (fun entry p =>
                       exists e : Raw.t,
                         entry = Some e /\ ratio_as_designed e p)
                    entries (players (_cache s')).
Proof.
  intros data now s.
  pose proof (processData_cache data now s) as H.
  destruct (_processData data now s) as [loaded s'].
  cbn [fst snd] in H. intros Hloaded.
  destruct (processed_cache data now) as [e|c] eqn:Ec;
    destruct H as [Hl Hc]; [congruence|]. rewrite Hc. clear Hl Hc Hloaded.
  unfold processed_cache in Ec.
  destruct data as [|[| |entries]]; cbn in Ec; try discriminate.
  - left. inversion Ec. auto.
  - right. exists entries. split; [reflexivity|].
    destruct (map_throwing process_player 0 entries) as [e|l] eqn:E;
      cbn in Ec; [discriminate|].
    inversion Ec; subst c; clear Ec. cbn [players].
    apply map_throwing_each in E.
    eapply Forall2_impl; [|exact E].
    intros [e|] p [i Hp]; [|discriminate].
    exists e. split; [reflexivity|]. now apply process_player_ratio in Hp.
Qed.

Lemma processData_ratio_witness :
  let data :=
    DocObject (PlayersArray [ entry (VNum (Fin 100)) (VNum (Fin 10));
                              entry (VNum (Fin 300)) (VNum (Fin 0)) ]) in
  let s' := snd (_processData data 0 constructor) in
  map Player.ratio (players (_cache s')) = [VNum (Fin 10); VNum (Fin 0)]
  /\ ((data = DocObject PlayersFalsy /\ players (_cache s') = [])
      \/ exists entries : list (option Raw.t),
           data = DocObject (PlayersArray entries)
           /\ Forall2 (fun entry p =>
                         exists e : Raw.t,
                           entry = Some e /\ ratio_as_designed e p)
                      entries (players (_cache s'))).
Proof.
  intros data s'. split; [reflexivity|].
  apply (processData_ratio data 0%Z constructor). reflexivity.
Defined.

(** C1, the claim as stated, fails on a score that is not numeric.  On the
    document [{ "players": [ { "score": "n/a", "chests": 5 } ] }] the
    record keeps the score ["n/a"] and the chests 5, and its ratio,
    ["n/a" / 5], is [NaN]. *)
Lemma processData_non_numeric_score_gives_nan :
  let data :=
    DocObject (PlayersArray [entry (VStr "n/a") (VNum (Fin 5))]) in
  let record :=
    {| Player.id := VStr "player_0";
       Player.name := VStr "Unknown Player 0";
       Player.alliance := VStr "";
       Player.server := VStr "Unknown";
       Player.score := VStr "n/a";
       Player.chests := VNum (Fin 5);
       Player.ratio := VNum NaN |} in
  players (_cache (snd (_processData data 0 constructor))) = [record]
  /\ ~ ratio_invariant record.
Proof.
  cbv zeta. split; [reflexivity|].
  intros [r [Hr [Hfin _]]]. cbn in Hr. inversion Hr; subst r. discriminate.
Qed.

(** An entry without a score, [{ "chests": 5 }]: the record gets the
    default score 0, but its ratio is computed from the raw fields,
    [undefined / 5], and is [NaN]. *)
Lemma processData_absent_score :
  forall now : Z,
    let data :=
      DocObject (PlayersArray [entry VUndefined (VNum (Fin 5))]) in
    players (_cache (snd (_processData data now constructor)))
    = [ {| Player.id := VStr "player_0";
           Player.name := VStr "Unknown Player 0";
           Player.alliance := VStr "";
           Player.server := VStr "Unknown";
           Player.score := VNum (Fin 0);
           Player.chests := VNum (Fin 5);
           Player.ratio := VNum NaN |} ].
Proof. reflexivity. Qed.

(* ================================================================== *)
(** * Reloading *)
(* ================================================================== *)

(** C2.  Whenever [loadData] goes to the network and the request is
    rejected, or the response is not ok, or its body does not parse,
    [loadData] returns [false], leaves the cache (players, alliances,
    servers, lastUpdated) exactly as it was, and hands exactly one report to
    the error handler. *)
Theorem loadData_transport_failure :
  forall (forceRefresh : bool) (fetch : value -> fetch_outcome)
         (now loaded : Z) (s : Service),
    reloads forceRefresh now s ->
    transport_failure (fetch (requested_url s)) ->
    let (returned, s') := loadData forceRefresh fetch now loaded s in
    returned = false
    /\ _cache s' = _cache s
    /\ exists e : js_error,
         _errorHandler s'
         = {| error := e; source := "DataService.loadData";
              showToUser := true |} :: _errorHandler s.
Proof.
  intros forceRefresh fetch now loaded s Hreload Hfail.
  unfold reloads in Hreload. unfold requested_url in Hfail.
  unfold loadData. rewrite Hreload.
  unfold bind, setState, getState, handleError, ret. cbn -[js_or].
  change (StateManager.getState "dataSource"
            (StateManager.setState "isLoading" (VBool true) (_stateManager s)))
    with (StateManager.getState "dataSource" (_stateManager s)).
  destruct (fetch _) as [e|responseOk status b]; cbn in Hfail |- *.
  - repeat split. now exists e.
  - destruct responseOk; cbn.
    + destruct Hfail as [Hfail|Hfail]; [discriminate|]. subst b. cbn.
      repeat split. now exists SyntaxError.
    + repeat split. eexists. reflexivity.
Qed.

Lemma loadData_transport_failure_witness :
  let (returned, s') :=
    loadData true (fun _ => Rejected TypeError) 0 0 constructor in
  returned = false
  /\ _cache s' = _cache constructor
  /\ exists e : js_error,
       _errorHandler s'
       = {| error := e; source := "DataService.loadData";
            showToUser := true |} :: _errorHandler constructor.
Proof.
  apply (loadData_transport_failure true (fun _ => Rejected TypeError)
           0 0 constructor).
  - reflexivity.
  - exact I.
Defined.

(* ================================================================== *)
(** * Validity of the cache *)
(* ================================================================== *)

(** C5.  A cache stamped at time [t] is valid at time [now] exactly when
    [now - t] is below one hour (3600000 ms); at exactly one hour it is
    stale; a cache whose [lastUpdated] is [null] is stale.  (An invalid
    date, whose age is [NaN], is stale as well.) *)
Theorem cache_valid_iff_less_than_an_hour_old :
  forall (now : Z) (s : Service),
    (forall t : Z,
       lastUpdated (_cache s) = Some (DateAt t) ->
       (_isCacheValid now s = true <-> (now - t < 3600000)%Z)
       /\ ((now - t = 3600000)%Z -> _isCacheValid now s = false))
    /\ (lastUpdated (_cache s) = Some InvalidDate ->
        _isCacheValid now s = false)
    /\ (lastUpdated (_cache s) = None -> _isCacheValid now s = false).
Proof.
  intros now s. unfold _isCacheValid.
  assert (age : forall t : Z,
    num_lt (num_sub (num_of_Z now) (time_value (DateAt t))) _cacheDuration
      = true <-> (now - t < 3600000)%Z).
  { intros t. unfold num_sub, time_value, _cacheDuration, num_of_Z.
    cbn [num_neg num_add num_lt]. rewrite Qlt_bool_iff, Qred_correct.
    rewrite <- inject_Z_opp, <- inject_Z_plus.
    change (60 * 60 * 1000)%Z with 3600000%Z.
    rewrite <- Zlt_Qlt. lia. }
  split; [|split].
  - intros t Ht. rewrite Ht. split; [apply age|].
    intros Hage. destruct (num_lt _ _) eqn:E; [|reflexivity].
    apply age in E. lia.
  - intros Hd. now rewrite Hd.
  - intros Hd. now rewrite Hd.
Qed.

Lemma cache_valid_iff_less_than_an_hour_old_witness :
  let s := {| _cache := {| players := []; alliances := []; servers := [];
                           lastUpdated := Some (DateAt 1000) |};
              _dataSourceUrl := VUndefined;
              _stateManager := StateManager.initial;
              _errorHandler := [] |} in
  (_isCacheValid 3600999 s = true <-> (3600999 - 1000 < 3600000)%Z)
  /\ ((3601000 - 1000 = 3600000)%Z -> _isCacheValid 3601000 s = false).
Proof.
  split.
  - apply (cache_valid_iff_less_than_an_hour_old 3600999). reflexivity.
  - apply (cache_valid_iff_less_than_an_hour_old 3601000). reflexivity.
Defined.

(* ================================================================== *)
(** * Filtering the players *)
(* ================================================================== *)

(** C3.  A numeric bound (minScore, maxScore, minChests, maxChests,
    minRatio, maxRatio) that is absent or falsy -- the number 0 and the
    empty string included -- or that the service cannot parse as a number
    imposes no constraint: [getFilteredPlayers] answers as it does with the
    field removed, in every state of the service.  In particular
    [{ minScore: "abc" }] behaves as [{}]. *)
Theorem getFilteredPlayers_ignores_unusable_bound :
  (forall (s : Service) (f : Filters.t) (k : bound),
     unusable k (get_bound k f) ->
     getFilteredPlayers (Obj f) s
     = getFilteredPlayers (Obj (remove_bound k f)) s)
  /\ (forall k : bound,
        unusable k VUndefined /\ unusable k (VNum (Fin 0))
        /\ unusable k (VStr "") /\ unusable k (VStr "abc"))
  /\ (forall s : Service,
        getFilteredPlayers
          (Obj (set_bound MinScore (VStr "abc") Filters.empty)) s
        = getFilteredPlayers (Obj Filters.empty) s).
Proof.
  assert (removed : forall (s : Service) (f : Filters.t) (k : bound),
    unusable k (get_bound k f) ->
    getFilteredPlayers (Obj f) s
    = getFilteredPlayers (Obj (remove_bound k f)) s).
  { intros s f k H. unfold getFilteredPlayers.
    replace (applyFilters (Obj (remove_bound k f)) (players (_cache s)))
      with (applyFilters (Obj f) (players (_cache s))); [reflexivity|].
    unfold applyFilters, remove_bound.
    destruct f as [ps ss sa mins maxs minc maxc minr maxr].
    unfold unusable in H.
    destruct k; cbn [get_bound parse_bound set_bound Filters.playerSearch
      Filters.selectedServer Filters.selectedAlliance Filters.minScore
      Filters.maxScore Filters.minChests Filters.maxChests Filters.minRatio
      Filters.maxRatio] in H |- *;
      (destruct (if truthy ps then _ else _) as [e|l1];
       [reflexivity|]; cbn [and_then]);
      rewrite (bound_filter_unusable _ _ _ _ H); reflexivity. }
  split; [exact removed|]. split.
  - intros k. repeat split; try (left; reflexivity).
    right. destruct k; reflexivity.
  - intros s.
    apply (removed s (set_bound MinScore (VStr "abc") Filters.empty) MinScore).
    right. reflexivity.
Qed.

Lemma getFilteredPlayers_ignores_unusable_bound_witness :
  let s := service_with [ player "ann" (Fin 5) (Fin 1) (Fin 5);
                          player "bob" (Fin 50) (Fin 2) (Fin 25) ] in
  let f := set_bound MaxChests (VStr "n/a")
             (set_bound MinScore (VStr "10") Filters.empty) in
  unusable MaxChests (get_bound MaxChests f)
  /\ getFilteredPlayers (Obj f) s
     = getFilteredPlayers (Obj (remove_bound MaxChests f)) s.
Proof.
  split.
  - right. reflexivity.
  - apply (proj1 getFilteredPlayers_ignores_unusable_bound).
    right. reflexivity.
Defined.

(** C8.  Filtering is idempotent: with the players [getFilteredPlayers]
    has returned put in place of the cached ones, the same criteria return
    that very list again. *)
Theorem getFilteredPlayers_idempotent :
  forall (f : argument Filters.t) (s : Service),
    let filtered := fst (getFilteredPlayers f s) in
    fst (getFilteredPlayers f (with_players filtered s)) = filtered.
Proof.
  intros f s. unfold getFilteredPlayers. cbn [with_players _cache players].
  destruct (applyFilters f (players (_cache s))) as [e|l'] eqn:E.
  - cbn. destruct (applyFilters_nil f) as [H|[err H]]; now rewrite H.
  - cbn. now rewrite (applyFilters_idempotent f _ E).
Qed.

(* ================================================================== *)
(** * Looking a player up *)
(* ================================================================== *)

(** C10.  [getPlayerDetails(id)] returns the first cached record whose id
    is strictly equal to the argument; when no cached record has that id it
    returns [null] -- never [undefined]; and it leaves the service, the
    cache included, as it was. *)
Theorem getPlayerDetails_first_match_or_null :
  forall (playerId : value) (s : Service),
    let (found, s') := getPlayerDetails playerId s in
    s' = s
    /\ found <> RefUndefined
    /\ (forall p : Player.t,
          found = Ref p <->
          exists before after : list Player.t,
            players (_cache s) = before ++ p :: after
            /\ strict_equals (Player.id p) playerId = true
            /\ Forall (fun q => strict_equals (Player.id q) playerId = false)
                      before)
    /\ (found = RefNull <->
        Forall (fun q => strict_equals (Player.id q) playerId = false)
               (players (_cache s))).
Proof.
  intros playerId s. unfold getPlayerDetails, array_find.
  set (same := fun player : Player.t =>
                 strict_equals (Player.id player) playerId).
  assert (first : forall (l : list Player.t) (p : Player.t),
    find same l = Some p <->
    exists before after,
      l = before ++ p :: after /\ same p = true
      /\ Forall (fun q => same q = false) before).
  { induction l as [|x l IH]; intros p; simpl.
    - split; [discriminate|]. intros [[|? ?] [? [H _]]]; discriminate.
    - destruct (same x) eqn:E.
      + split.
        * intros H. inversion H; subst. exists [], l. auto.
        * intros [[|y before] [after [H [Hp Hb]]]]; inversion H; subst; auto.
          inversion Hb; subst. congruence.
      + rewrite IH. split.
        * intros [before [after [H [Hp Hb]]]]. subst.
          exists (x :: before), after. auto.
        * intros [[|y before] [after [H [Hp Hb]]]]; inversion H; subst.
          -- congruence.
          -- inversion Hb; subst. eauto. }
  assert (none : forall l : list Player.t,
    find same l = None <-> Forall (fun q => same q = false) l).
  { induction l as [|x l IH]; simpl.
    - split; auto.
    - destruct (same x) eqn:E.
      + split; [discriminate|]. intros H. inversion H; congruence.
      + rewrite IH. split; [auto|]. intros H. now inversion H. }
  split; [reflexivity|].
  destruct (find same (players (_cache s))) as [p|] eqn:E; cbn [ref_or].
  - split; [discriminate|]. split.
    + intros q. split.
      * intros H. inversion H; subst q. now apply (proj1 (first _ _)).
      * intros H. apply (proj2 (first _ _)) in H. congruence.
    + split; [discriminate|].
      intros H. apply (proj2 (none _)) in H. congruence.
  - split; [discriminate|]. split.
    + intros q. split; [discriminate|].
      intros H. apply (proj2 (first _ _)) in H. congruence.
    + split; [|reflexivity]. intros _. now apply (proj1 (none _)).
Qed.

(* ================================================================== *)
(** * Chart data *)
(* ================================================================== *)

Lemma unknown_kind_no_case (chartType : value) :
  array_includes chart_kinds chartType = false ->
  forall kind : string,
    In (VStr kind) chart_kinds ->
    strict_equals chartType (VStr kind) = false.
Proof.
  intros H kind Hin. unfold array_includes in H.
  assert (every : forall v, In v chart_kinds ->
            same_value_zero chartType v = false).
  { intros v Hv. destruct (same_value_zero chartType v) eqn:E; auto.
    assert (existsb (same_value_zero chartType) chart_kinds = true)
      by (apply existsb_exists; eauto).
    congruence. }
  specialize (every _ Hin).
  destruct chartType as [| |b|[|[]|q]|k]; auto.
Qed.

(** C4, as the code has it.  For a chart kind outside the six known ones
    and any options, [getChartData] returns [{ series: [], categories: [] }]
    without throwing and without touching the cache, and reports exactly
    one error of its own, under the source [DataService.getChartData].
    That is the only report unless the name search of [options.filters]
    failed inside [getFilteredPlayers], which has then reported that
    failure first: two reports in all. *)
Theorem getChartData_unknown_kind :
  forall (chartType : value) (options : argument ChartOptions) (s : Service),
    array_includes chart_kinds chartType = false ->
    let (chart, s') := getChartData chartType options s in
    chart = empty_chart
    /\ _cache s' = _cache s
    /\ match options with
       | Null =>
           _errorHandler s'
           = {| error := TypeError; source := "DataService.getChartData";
                showToUser := false |} :: _errorHandler s
       | _ =>
           let unknown :=
             {| error := Error ("Unknown chart type: " ++ to_string chartType);
                source := "DataService.getChartData";
                showToUser := false |} in
           match applyFilters (filters_argument options)
                              (players (_cache s)) with
           | inr _ => _errorHandler s' = unknown :: _errorHandler s
           | inl e =>
               _errorHandler s'
               = unknown
                 :: {| error := e; source := "DataService.getFilteredPlayers";
                       showToUser := false |}
                 :: _errorHandler s
           end
       end.
Proof.
  intros chartType options s H.
  assert (no := unknown_kind_no_case chartType H).
  unfold getChartData.
  rewrite !no by (unfold chart_kinds; simpl; tauto).
  destruct options as [| |o]; unfold bind, getFilteredPlayers.
  - cbn [filters_argument].
    destruct (applyFilters Omitted (players (_cache s))) as [e|l];
      cbn; repeat split.
  - cbn. repeat split.
  - cbn [filters_argument].
    destruct (applyFilters (filters o) (players (_cache s))) as [e|l];
      cbn; repeat split.
Qed.

Lemma getChartData_unknown_kind_witness :
  let (chart, s') := getChartData (VStr "bogus") (Obj {| filters := Omitted; metric := VUndefined |}) constructor in
  chart = empty_chart
  /\ _cache s' = _cache constructor
  /\ _errorHandler s'
     = [ {| error := Error "Unknown chart type: bogus";
            source := "DataService.getChartData";
            showToUser := false |} ].
Proof.
  apply (getChartData_unknown_kind (VStr "bogus")
           (Obj {| filters := Omitted; metric := VUndefined |}) constructor).
  reflexivity.
Defined.

(** C4, the claim as stated, fails: for the unknown kind ["bogus"] and the
    options [{ filters: { playerSearch: 5 } }] the number [5] has no
    [toLowerCase], [getFilteredPlayers] reports that failure, and
    [getChartData] then reports the unknown kind: the error handler receives
    two reports, not one. *)
Lemma getChartData_unknown_kind_reports_twice :
  array_includes chart_kinds (VStr "bogus") = false
  /\ ~ empty_chart_one_report (VStr "bogus")
         (Obj {| filters := Obj (searching (VNum (Fin 5)));
                 metric := VUndefined |})
         constructor.
Proof.
  split; [reflexivity|].
  unfold empty_chart_one_report. cbn.
  intros [_ [r H]]. discriminate H.
Qed.

(* ================================================================== *)
(** * The distributions *)
(* ================================================================== *)

(** A value that reads as no finite number is in no bucket of a chained
    table. *)
Lemma chained_holds_none (field : Player.t -> value) (ranges : list Range) :
  forall (lo : Q) (p : Player.t),
    chained lo ranges -> is_finite (to_number (field p)) = false ->
    buckets_holding field ranges p = 0%nat.
Proof.
  unfold buckets_holding.
  induction ranges as [|r rest IH]; intros lo p Hc Hn; [reflexivity|].
  cbn [filter]. destruct Hc as [Hmin Hrest].
  assert (Hout : in_range field r p = false).
  { unfold in_range, js_ge, js_lt, num_ge. rewrite Hmin.
    destruct (to_number (field p)) as [|[]|q]; try discriminate;
      try reflexivity.
    cbn [num_le num_lt negb andb]. now destruct (max r) as [|[]|x]. }
  rewrite Hout. destruct rest as [|r' rest']; [reflexivity|].
  destruct Hrest as [hi [_ [_ Hc']]]. now apply (IH hi).
Qed.

Lemma buckets_of_player (field : Player.t -> value) (ranges : list Range)
    (p : Player.t) :
  chained 0 ranges ->
  buckets_holding field ranges p
  = if placeable (field p) then 1%nat else 0%nat.
Proof.
  intros Hc. unfold placeable.
  destruct (to_number (field p)) as [|b|q] eqn:E.
  - apply (chained_holds_none field ranges 0 p Hc). now rewrite E.
  - apply (chained_holds_none field ranges 0 p Hc). now rewrite E.
  - apply (@chained_holds_once field ranges 0 p q Hc E).
Qed.

Lemma distribution_total (field : Player.t -> value) (ranges : list Range)
    (l : list Player.t) :
  chained 0 ranges ->
  list_sum (range_counts field ranges l)
  = List.length (filter (fun p => placeable (field p)) l).
Proof.
  intros Hc. rewrite counts_exchange.
  rewrite length_filter_sum. f_equal. apply map_ext.
  intros p. now apply buckets_of_player.
Qed.

(** A bucket of a table holds the players whose value is in the bucket as
    the distributions describe it. *)
Lemma in_range_in_bucket (field : Player.t -> value) (r : Range)
    (b : Bucket) (p : Player.t) :
  same_bucket r b -> in_range field r p = in_bucket b (field p).
Proof.
  intros [Hmin Hmax]. unfold in_bucket.
  destruct (to_number (field p)) as [|neg|x] eqn:E.
  - unfold in_range, js_ge, js_lt, num_ge. rewrite E, Hmin. reflexivity.
  - unfold in_range, js_ge, js_lt, num_ge. rewrite E, Hmin, Hmax.
    destruct neg, (snd b); reflexivity.
  - rewrite (@in_range_finite field r p _ _ Hmin E), Hmax.
    destruct (snd b); reflexivity.
Qed.

Lemma range_counts_by_bucket (field : Player.t -> value)
    (ranges : list Range) (buckets : list Bucket) (l : list Player.t) :
  Forall2 same_bucket ranges buckets ->
  range_counts field ranges l
  = map (fun b => bucket_count field b l) buckets.
Proof.
  unfold range_counts, bucket_count.
  induction 1 as [|r b ranges buckets Hrb _ IH]; [reflexivity|].
  cbn [map]. rewrite IH. f_equal. f_equal. apply filter_ext.
  intros p. now apply in_range_in_bucket.
Qed.

Lemma buckets_holding_by_bucket (field : Player.t -> value)
    (ranges : list Range) (buckets : list Bucket) (p : Player.t) :
  Forall2 same_bucket ranges buckets ->
  buckets_holding field ranges p
  = List.length (filter (fun b => in_bucket b (field p)) buckets).
Proof.
  unfold buckets_holding.
  induction 1 as [|r b ranges buckets Hrb _ IH]; [reflexivity|].
  cbn [filter]. rewrite (in_range_in_bucket field r b p Hrb).
  destruct (in_bucket b (field p)); cbn [List.length]; now rewrite IH.
Qed.

Lemma score_ranges_buckets :
  Forall2 same_bucket score_ranges
    (buckets_between [0; 1000; 5000; 10000; 50000; 100000; 500000; 1000000]).
Proof. repeat constructor. Qed.

Lemma chest_ranges_buckets :
  Forall2 same_bucket chest_ranges
    (buckets_between [0; 10; 50; 100; 500; 1000; 5000; 10000]).
Proof. repeat constructor. Qed.

Lemma ratio_ranges_buckets :
  Forall2 same_bucket ratio_ranges
    (buckets_between [0; 10; 50; 100; 200; 500; 1000]).
Proof. repeat constructor. Qed.

(** The chart of a chained table that starts at zero, read bucket by
    bucket. *)
Lemma distribution_placed (field : Player.t -> value) (ranges : list Range)
    (bounds : list Q) (l : list Player.t) :
  Forall2 same_bucket ranges (buckets_between bounds) ->
  chained 0 ranges ->
  placed field bounds (distribution field ranges l) l.
Proof.
  intros Hb Hc. split; [|split].
  - unfold charted_by_bucket, distribution. cbn [series].
    rewrite (range_counts_by_bucket field ranges _ l Hb).
    now rewrite map_map.
  - apply Forall_forall. intros p _. unfold buckets_of.
    rewrite <- (buckets_holding_by_bucket field ranges _ p Hb).
    apply (buckets_of_player field ranges p Hc).
  - rewrite <- (range_counts_by_bucket field ranges _ l Hb).
    now apply distribution_total.
Qed.

Lemma filter_all (A : Type) (f : A -> bool) (l : list A) :
  Forall (fun x => f x = true) l -> filter f l = l.
Proof.
  induction 1 as [|x l Hx _ IH]; [reflexivity|].
  cbn [filter]. now rewrite Hx, IH.
Qed.

(** When every player has a value that can be placed, every player is
    counted once. *)
Lemma placed_counted_once (field : Player.t -> value) (bounds : list Q)
    (chart : ChartData) (l : list Player.t) :
  placed field bounds chart l ->
  Forall (fun p => nonneg_finite (field p)) l ->
  counted_once field bounds chart l.
Proof.
  intros [Hchart [Hone Hsum]] Hl.
  assert (fine : Forall (fun p => placeable (field p) = true) l).
  { eapply Forall_impl; [|exact Hl]. intros p [q [Hq Hpos]].
    unfold placeable. rewrite Hq. now apply Qle_bool_iff. }
  split; [exact Hchart|]. split.
  - rewrite Forall_forall in *. intros p Hp.
    now rewrite (Hone p Hp), (fine p Hp).
  - rewrite Hsum. now rewrite (filter_all _ _ l fine).
Qed.

(** C6.  When every player's score is a non-negative finite number, each
    player is in exactly one bucket between the boundaries 0, 1000, 5000,
    10000, 50000, 100000, 500000 and 1000000 -- lower boundary included,
    upper boundary excluded, the last bucket without upper boundary -- the
    score-distribution chart gives for each of these buckets the number of
    players in it, and so its counts add up to the length of the list.
    Likewise for the chests and for the ratio, each over its own
    boundaries. *)
Theorem distribution_counts_every_player_once :
  forall l : list Player.t,
    (Forall (fun p => nonneg_finite (Player.score p)) l ->
     counted_once Player.score
       [0; 1000; 5000; 10000; 50000; 100000; 500000; 1000000]
       (_createScoreDistributionData l) l)
    /\ (Forall (fun p => nonneg_finite (Player.chests p)) l ->
        counted_once Player.chests [0; 10; 50; 100; 500; 1000; 5000; 10000]
          (_createChestDistributionData l) l)
    /\ (Forall (fun p => nonneg_finite (Player.ratio p)) l ->
        counted_once Player.ratio [0; 10; 50; 100; 200; 500; 1000]
          (_createRatioDistributionData l) l).
Proof.
  intros l. split; [|split]; intros H; apply placed_counted_once; auto;
    apply distribution_placed;
    auto using score_ranges_buckets, chest_ranges_buckets,
      ratio_ranges_buckets, score_ranges_chained, chest_ranges_chained,
      ratio_ranges_chained.
Qed.

Lemma distribution_counts_every_player_once_witness :
  let l := [ player "ann" (Fin 500) (Fin 5) (Fin 100);
             player "bob" (Fin 1500) (Fin 10) (Fin 150);
             player "cyd" (Fin 1500000) (Fin 0) (Fin 0) ] in
  map data (series (_createScoreDistributionData l))
  = [ map (fun n => VNum (num_of_Z n)) [1; 1; 0; 0; 0; 0; 0; 1]%Z ]
  /\ counted_once Player.score
       [0; 1000; 5000; 10000; 50000; 100000; 500000; 1000000]
       (_createScoreDistributionData l) l
  /\ counted_once Player.chests [0; 10; 50; 100; 500; 1000; 5000; 10000]
       (_createChestDistributionData l) l
  /\ counted_once Player.ratio [0; 10; 50; 100; 200; 500; 1000]
       (_createRatioDistributionData l) l.
Proof.
  intros l. split; [reflexivity|].
  destruct (distribution_counts_every_player_once l) as [Hs [Hc Hr]].
  assert (fine : forall q : Q,
            Qle_bool 0 q = true -> nonneg_finite (VNum (Fin q))).
  { intros q H. exists q. split; [reflexivity | now apply Qle_bool_iff]. }
  split; [apply Hs | split; [apply Hc | apply Hr]];
    repeat constructor; apply fine; reflexivity.
Defined.

(* ================================================================== *)
(** * The top ten *)
(* ================================================================== *)

(** C7, as the code has it.  Provided no player's metric is [NaN], the
    top-ten lists of [getStatistics] (by score, by chests, by ratio) and
    the players of the top_players chart are the first ten of the list in
    descending order of the metric, ties in their original order; and the
    chart treats a metric outside score, chests and ratio -- an absent one
    included -- as score. *)
Theorem top_ten_descending_and_stable :
  forall (s : Service) (l : list Player.t) (metric : value),
    let stats := fst (getStatistics s) in
    let all := players (_cache s) in
    let m := valid_metric metric in
    let chart := _createTopPlayersData l metric in
    (comparable Player.score all ->
     top10_of Player.score all (topPlayersByScore stats))
    /\ (comparable Player.chests all ->
        top10_of Player.chests all (topPlayersByChests stats))
    /\ (comparable Player.ratio all ->
        top10_of Player.ratio all (topPlayersByRatio stats))
    /\ (comparable (fun p => Player.get p m) l ->
        exists top : list Player.t,
          top10_of (fun p => Player.get p m) l top
          /\ categories chart = map Player.name top
          /\ map data (series chart) = [ map (fun p => Player.get p m) top ])
    /\ (array_includes [VStr "score"; VStr "chests"; VStr "ratio"] metric
        = false ->
        m = "score"%string /\ chart = _createTopPlayersData l (VStr "score"))
    /\ fst (getChartData (VStr "top_players") Omitted (with_players l s))
       = _createTopPlayersData l (VStr "score").
Proof.
  intros s l metric. cbv zeta.
  split; [|split; [|split; [|split; [|split]]]].
  - apply top10_stable_descending.
  - apply top10_stable_descending.
  - apply top10_stable_descending.
  - intros H. exists (top10 (fun p => Player.get p (valid_metric metric)) l).
    split; [now apply top10_stable_descending|]. split; reflexivity.
  - intros H. destruct (valid_metric_cases metric) as [[H' _]|[_ E]];
      [congruence|].
    split; [exact E|]. unfold _createTopPlayersData. now rewrite E.
  - reflexivity.
Qed.

Lemma top_ten_descending_and_stable_witness :
  let l := [ player "ann" (Fin 500) (Fin 5) (Fin 100);
             player "bob" (Fin 1500) (Fin 10) (Fin 150);
             player "cyd" (Fin 500) (Infinity false) (Fin 0) ] in
  let stats := fst (getStatistics (service_with l)) in
  top10_of Player.score l (topPlayersByScore stats)
  /\ top10_of Player.chests l (topPlayersByChests stats)
  /\ top10_of Player.ratio l (topPlayersByRatio stats)
  /\ _createTopPlayersData l (VNum (Fin 7))
     = _createTopPlayersData l (VStr "score").
Proof.
  intros l stats.
  destruct (top_ten_descending_and_stable (service_with l) l (VNum (Fin 7)))
    as [Hs [Hc [Hr [_ [Hm _]]]]].
  split; [apply Hs | split; [apply Hc | split; [apply Hr | apply Hm]]];
    try (repeat constructor); reflexivity.
Defined.

(** C7, the claim as stated, fails on a list with a metric that is not a
    number.  After loading [{ "players": [ { "score": 1, "chests": 1 },
    { "score": "n/a", "chests": 1 }, { "score": 2, "chests": 1 } ] }] the
    scores are 1, ["n/a"], 2.  A difference with ["n/a"] is [NaN], which the
    sort takes for a tie: the top ten by score is the list as it stands,
    with the score 1 ahead of the score 2.  In fact no arrangement of these
    players is in descending order, since ["n/a"] is neither [>=] nor [<=]
    any score. *)
Lemma top_ten_by_score_not_descending :
  let data :=
    DocObject (PlayersArray [ entry (VNum (Fin 1)) (VNum (Fin 1));
                              entry (VStr "n/a") (VNum (Fin 1));
                              entry (VNum (Fin 2)) (VNum (Fin 1)) ]) in
  let s := snd (_processData data 0 constructor) in
  map Player.score (players (_cache s))
  = [VNum (Fin 1); VStr "n/a"; VNum (Fin 2)]
  /\ map Player.score (topPlayersByScore (fst (getStatistics s)))
     = [VNum (Fin 1); VStr "n/a"; VNum (Fin 2)]
  /\ ~ top10_of Player.score (players (_cache s))
         (topPlayersByScore (fst (getStatistics s)))
  /\ forall top : list Player.t,
       ~ top10_of Player.score (players (_cache s)) top.
Proof.
  cbv zeta. split; [reflexivity|]. split; [reflexivity|].
  assert (none : forall top : list Player.t,
    ~ top10_of Player.score
        (players (_cache (snd (_processData
           (DocObject (PlayersArray [ entry (VNum (Fin 1)) (VNum (Fin 1));
                                      entry (VStr "n/a") (VNum (Fin 1));
                                      entry (VNum (Fin 2)) (VNum (Fin 1)) ]))
           0 constructor)))) top).
  { intros top [sorted [[Hperm [Hsorted _]] _]].
    cbn in Hperm.
    match type of Hperm with
    | Permutation [?a; ?b; ?c] _ =>
        assert (Ha : In a sorted)
          by (eapply Permutation_in; [exact Hperm | now left]);
        assert (Hb : In b sorted)
          by (eapply Permutation_in; [exact Hperm | right; now left]);
        destruct (StronglySorted_pairs Hsorted a b Ha Hb) as [E|[E|E]];
        discriminate E
    end. }
  split; [apply none | exact none].
Qed.

(* ================================================================== *)
(** * The derived lists of the cache *)
(* ================================================================== *)

Lemma processed_cache_derived_lists (data : document) (now : Z) (c : Cache) :
  processed_cache data now = inr c -> derived_lists_ok c.
Proof.
  unfold processed_cache. intros E.
  destruct data as [|field]; [discriminate|].
  destruct (match field with
            | PlayersFalsy => ok []
            | PlayersNotArray => throw TypeError
            | PlayersArray l => map_throwing process_player 0 l
            end) as [e|processedPlayers]; [discriminate|].
  cbn in E. inversion E; subst c; clear E.
  split; cbn [alliances servers]; apply unique_sorted_spec.
Qed.

(** C9.  After a data load the alliances and the servers of the cache are
    each in ascending order and free of duplicates, and the sentinels are
    left out -- the empty string is not among the alliances and ["Unknown"]
    is not among the servers -- whatever the players hold.  That is so
    whenever [_processData] has stored a document; when it fails the cache
    is as before; the lists of a new service are empty; and so [loadData]
    keeps the property, whichever way it goes. *)
Theorem processData_derived_lists :
  (forall (data : document) (now : Z) (s : Service),
     let (loaded, s') := _processData data now s in
     (loaded = true -> derived_lists_ok (_cache s'))
     /\ (loaded = false -> _cache s' = _cache s))
  /\ derived_lists_ok (_cache constructor)
  /\ (forall (forceRefresh : bool) (fetch : value -> fetch_outcome)
             (now loaded : Z) (s : Service),
        derived_lists_ok (_cache s) ->
        derived_lists_ok
          (_cache (snd (loadData forceRefresh fetch now loaded s)))).
Proof.
  split; [|split].
  - intros data now s.
    pose proof (processData_cache data now s) as H.
    destruct (_processData data now s) as [loaded s'] eqn:E.
    cbn [fst snd] in H.
    destruct (processed_cache data now) as [e|c] eqn:Ec;
      destruct H as [Hl Hc]; subst loaded; split; try discriminate; intros _.
    + exact Hc.
    + rewrite Hc. now apply (processed_cache_derived_lists data now).
  - repeat split; try constructor; intros [].
  - intros forceRefresh fetch now loaded s Hs. unfold loadData.
    destruct (negb forceRefresh && isDataLoaded s && _isCacheValid now s);
      [exact Hs|].
    unfold bind, setState, getState, handleError, ret. cbn -[js_or _processData].
    destruct (fetch _) as [e|responseOk status b]; [exact Hs|].
    destruct responseOk; cbn -[js_or _processData]; [|exact Hs].
    destruct b as [|data]; [exact Hs|].
    match goal with
    | |- context [_processData data loaded ?s0] =>
        pose proof (processData_cache data loaded s0) as H;
        destruct (_processData data loaded s0) as [r s1]
    end.
    cbn [fst snd _cache] in H |- *.
    destruct (processed_cache data loaded) as [e|c] eqn:Ec;
      destruct H as [_ Hc]; rewrite Hc.
    + exact Hs.
    + now apply (processed_cache_derived_lists data loaded).
Qed.

Lemma processData_derived_lists_witness :
  let data :=
    DocObject (PlayersArray [ member "Wolves" "S2"; member "" "Unknown";
                              member "Bears" "S1"; member "Wolves" "S1" ]) in
  let s' := snd (_processData data 0 constructor) in
  alliances (_cache s') = [VStr "Bears"; VStr "Wolves"]
  /\ servers (_cache s') = [VStr "S1"; VStr "S2"]
  /\ derived_lists_ok (_cache s').
Proof.
  intros data s'.
  split; [reflexivity|]. split; [reflexivity|].
  apply (proj1 processData_derived_lists data 0%Z constructor).
  reflexivity.
Defined.

(* ================================================================== *)
(** * Further properties of the queries *)
(* ================================================================== *)

Lemma filter_false (A : Type) (l : list A) : filter (fun _ => false) l = [].
Proof. induction l as [|x l IH]; simpl; auto. Qed.

(** The name search returns when the term is falsy, or is a string and
    every name is one. *)
Lemma search_returns (v : value) (l : list Player.t) :
  truthy v = false
  \/ (is_string v = true
      /\ existsb (fun p => negb (is_string (Player.name p))) l = false) ->
  search v l = inr (filter (name_selects v) l).
Proof.
  unfold search. intros [H|[Hv Hl]].
  - rewrite H. unfold ok. f_equal. symmetry.
    rewrite <- (filter_true l) at 2. apply filter_ext.
    intros p. unfold name_selects. now rewrite H.
  - destruct (truthy v) eqn:T.
    + destruct v as [| | | |term]; try discriminate. cbn [lower_of and_then ok].
      apply filter_throwing_returns. apply Forall_forall. intros p Hp.
      assert (Hn : is_string (Player.name p) = true).
      { destruct (is_string (Player.name p)) eqn:E; [reflexivity|].
        assert (X : existsb (fun p => negb (is_string (Player.name p))) l
                    = true).
        { apply existsb_exists. exists p. split; [exact Hp|]. now rewrite E. }
        congruence. }
      unfold name_selects. rewrite T.
      destruct (Player.name p); try discriminate. reflexivity.
    + unfold ok. f_equal. symmetry.
      rewrite <- (filter_true l) at 2. apply filter_ext.
      intros p. unfold name_selects. now rewrite T.
Qed.

(** It throws a [TypeError] when the term is truthy and is no string, or
    some name is none. *)
Lemma search_throws (v : value) (l : list Player.t) :
  truthy v = true ->
  is_string v = false
  \/ existsb (fun p => negb (is_string (Player.name p))) l = true ->
  search v l = inl TypeError.
Proof.
  unfold search. intros T H. rewrite T.
  destruct v as [| | | |term];
    try (destruct H as [H|H]; [reflexivity | reflexivity]);
    try reflexivity.
  destruct H as [H|H]; [discriminate|].
  cbn [lower_of and_then ok].
  induction l as [|p l IH]; [discriminate|].
  cbn [existsb] in H. cbn [filter_throwing].
  destruct (Player.name p) as [| | | |n] eqn:E; try reflexivity.
  cbn [is_string negb orb] in H. cbn [lower_of and_then ok].
  now rewrite (IH H).
Qed.

(** What the [try] block of [getFilteredPlayers] comes to. *)
Lemma applyFilters_outcome (f : Filters.t) (l : list Player.t) :
  applyFilters (Obj f) l
  = if search_breaks f l then inl TypeError else inr (filter (passes f) l).
Proof.
  rewrite applyFilters_stages. unfold search_breaks.
  destruct (truthy (Filters.playerSearch f)) eqn:T; cbn [andb].
  - destruct (is_string (Filters.playerSearch f)) eqn:S; cbn [negb orb].
    + destruct (existsb _ l) eqn:X.
      * rewrite search_throws; auto.
      * rewrite search_returns; [|right; auto]. cbn [and_then]. unfold ok.
        f_equal. rewrite filter_and. reflexivity.
    + rewrite search_throws; auto.
  - rewrite search_returns; [|left; auto]. cbn [and_then]. unfold ok.
    f_equal. rewrite filter_and. reflexivity.
Qed.

Lemma applyFilters_selection (f : argument Filters.t) (l l' : list Player.t) :
  applyFilters f l = inr l' -> exists P : Player.t -> bool, l' = filter P l.
Proof.
  destruct f as [| |f].
  - rewrite applyFilters_omitted, applyFilters_outcome.
    destruct (search_breaks _ l); [discriminate|].
    intros H. inversion H. eauto.
  - intros H. inversion H. exists (fun _ => true). now rewrite filter_true.
  - rewrite applyFilters_outcome.
    destruct (search_breaks _ l); [discriminate|].
    intros H. inversion H. eauto.
Qed.

(** X1.  Whatever the criteria, [getFilteredPlayers] returns a selection of
    the cached players: some of them, each at most once, in the order of
    the cache.  It leaves the cache, the state store and the data source
    as they were. *)
Theorem getFilteredPlayers_selection_of_cache :
  forall (f : argument Filters.t) (s : Service),
    let (l, s') := getFilteredPlayers f s in
    (exists P : Player.t -> bool, l = filter P (players (_cache s)))
    /\ same_data s s'.
Proof.
  intros f s. unfold getFilteredPlayers.
  destruct (applyFilters f (players (_cache s))) as [e|l] eqn:E.
  - cbn. split; [|repeat split].
    exists (fun _ => false). now rewrite filter_false.
  - cbn. split; [|repeat split]. eapply applyFilters_selection. exact E.
Qed.

(** X2.  When the name search can be carried out -- the term is falsy, or
    it is a string and so is every cached name -- [getFilteredPlayers]
    returns exactly the cached players that pass every criterion (name,
    server, alliance and the six bounds, each skipped when its field is
    unusable), in the order of the cache, and reports nothing. *)
Theorem getFilteredPlayers_conjunction :
  forall (f : Filters.t) (s : Service),
    search_breaks f (players (_cache s)) = false ->
    getFilteredPlayers (Obj f) s
    = (filter (passes f) (players (_cache s)), s)
    /\ forall p : Player.t,
         In p (fst (getFilteredPlayers (Obj f) s))
         <-> In p (players (_cache s))
             /\ name_selects (Filters.playerSearch f) p = true
             /\ equal_selects Player.server (Filters.selectedServer f) p = true
             /\ equal_selects Player.alliance (Filters.selectedAlliance f) p
                = true
             /\ forall k : bound,
                  bound_selects (parse_bound k)
                    (match k with
                     | MinScore => fun p b => js_ge (Player.score p) b
                     | MaxScore => fun p b => js_le (Player.score p) b
                     | MinChests => fun p b => js_ge (Player.chests p) b
                     | MaxChests => fun p b => js_le (Player.chests p) b
                     | MinRatio => fun p b => js_ge (Player.ratio p) b
                     | MaxRatio => fun p b => js_le (Player.ratio p) b
                     end) (get_bound k f) p = true.
Proof.
  intros f s H.
  assert (E : getFilteredPlayers (Obj f) s
              = (filter (passes f) (players (_cache s)), s)).
  { unfold getFilteredPlayers. rewrite applyFilters_outcome, H. reflexivity. }
  split; [exact E|]. intros p. rewrite E. cbn [fst].
  rewrite filter_In. unfold passes, selects.
  rewrite !andb_true_iff. split.
  - intros [Hin [Hn [[[[[[[H1 H2] H3] H4] H5] H6] H7] H8]]].
    repeat split; auto. intros k. destruct k; assumption.
  - intros [Hin [Hn [H1 [H2 Hk]]]].
    repeat split; auto;
      [ apply (Hk MinScore) | apply (Hk MaxScore) | apply (Hk MinChests)
      | apply (Hk MaxChests) | apply (Hk MinRatio) | apply (Hk MaxRatio) ].
Qed.

Lemma getFilteredPlayers_conjunction_witness :
  let s := service_with [ player "Ann" (Fin 5) (Fin 1) (Fin 5);
                          player "Bob" (Fin 50) (Fin 2) (Fin 25);
                          player "Hanna" (Fin 70) (Fin 2) (Fin 35) ] in
  let f := set_bound MinScore (VStr "10") (searching (VStr "AN")) in
  search_breaks f (players (_cache s)) = false
  /\ getFilteredPlayers (Obj f) s
     = ([player "Hanna" (Fin 70) (Fin 2) (Fin 35)], s).
Proof.
  intros s f. split; [reflexivity|].
  rewrite (proj1 (getFilteredPlayers_conjunction f s eq_refl)).
  reflexivity.
Defined.

(** X3.  When the name search cannot be carried out -- the search term is
    truthy and is no string, or it is a string and the name of some cached
    player is none, as for a record with ["name": 42] -- the call returns
    the empty list, whatever the other criteria and however many players
    would match, and hands one [TypeError] to the error handler, not to be
    shown to the user. *)
Theorem getFilteredPlayers_broken_search :
  forall (f : Filters.t) (s : Service),
    search_breaks f (players (_cache s)) = true ->
    getFilteredPlayers (Obj f) s
    = ([], reported TypeError "DataService.getFilteredPlayers" false s).
Proof.
  intros f s H. unfold getFilteredPlayers.
  rewrite applyFilters_outcome, H. reflexivity.
Qed.

Lemma getFilteredPlayers_broken_search_witness :
  let data :=
    DocObject (PlayersArray
      [ Some {| Raw.id := VStr "a"; Raw.name := VStr "Anna";
                Raw.alliance := VUndefined; Raw.server := VUndefined;
                Raw.score := VNum (Fin 10); Raw.chests := VNum (Fin 1) |};
        Some {| Raw.id := VStr "b"; Raw.name := VNum (Fin 42);
                Raw.alliance := VUndefined; Raw.server := VUndefined;
                Raw.score := VNum (Fin 20); Raw.chests := VNum (Fin 1) |} ]) in
  let s := snd (_processData data 0 constructor) in
  search_breaks (searching (VStr "anna")) (players (_cache s)) = true
  /\ getFilteredPlayers (Obj (searching (VStr "anna"))) s
     = ([], reported TypeError "DataService.getFilteredPlayers" false s).
Proof.
  intros data s. split; [reflexivity|].
  apply (getFilteredPlayers_broken_search (searching (VStr "anna")) s).
  reflexivity.
Defined.





(* ================================================================== *)
(** * Further properties of the charts *)
(* ================================================================== *)

(** [getFilteredPlayers] reports at most once, and never to the user. *)
Lemma getFilteredPlayers_reports (f : argument Filters.t) (s : Service) :
  snd (getFilteredPlayers f s) = s
  \/ exists e : js_error,
       getFilteredPlayers f s
       = ([], reported e "DataService.getFilteredPlayers" false s).
Proof.
  unfold getFilteredPlayers.
  destruct (applyFilters f (players (_cache s))) as [e|l]; [right|left].
  - exists e. reflexivity.
  - reflexivity.
Qed.

(** X5.  [getChartData] is read-only: whatever the chart kind and the
    options, the cache, the state store and the data source are as before.
    All it may do to the service is hand reports to the error handler: at
    most two in one call, none of them to be shown to the user. *)
Theorem getChartData_read_only :
  forall (chartType : value) (options : argument ChartOptions) (s : Service),
    let (chart, s') := getChartData chartType options s in
    same_data s s'
    /\ exists new : list report,
         _errorHandler s' = new ++ _errorHandler s
         /\ (List.length new <= 2)%nat
         /\ Forall (fun r => showToUser r = false) new.
Proof.
  intros chartType options s. unfold getChartData.
  assert (added : forall (new : list report) (s' : Service),
    (List.length new <= 2)%nat ->
    Forall (fun r => showToUser r = false) new ->
    same_data s s' -> _errorHandler s' = new ++ _errorHandler s ->
    same_data s s'
    /\ exists new : list report,
         _errorHandler s' = new ++ _errorHandler s
         /\ (List.length new <= 2)%nat
         /\ Forall (fun r => showToUser r = false) new).
  { intros new s' Hlen Hshow Hdata Hnew. split; [exact Hdata|].
    exists new. auto. }
  assert (chain : forall (l : list Player.t) (s1 : Service)
                         (metric : value) (old : list report),
    (List.length old <= 1)%nat ->
    Forall (fun r => showToUser r = false) old ->
    same_data s s1 -> _errorHandler s1 = old ++ _errorHandler s ->
    let (chart, s') :=
      (if strict_equals chartType (VStr "score_distribution") then
         ret (_createScoreDistributionData l)
       else if strict_equals chartType (VStr "chest_distribution") then
         ret (_createChestDistributionData l)
       else if strict_equals chartType (VStr "alliance_comparison") then
         ret (_createAllianceComparisonData l)
       else if strict_equals chartType (VStr "server_comparison") then
         ret (_createServerComparisonData l)
       else if strict_equals chartType (VStr "ratio_distribution") then
         ret (_createRatioDistributionData l)
       else if strict_equals chartType (VStr "top_players") then
         ret (_createTopPlayersData l (js_or metric (VStr "score")))
       else
         (handleError (Error ("Unknown chart type: " ++ to_string chartType))
            "DataService.getChartData" false ;;
          ret {| series := []; categories := [] |})) s1 in
    same_data s s'
    /\ exists new : list report,
         _errorHandler s' = new ++ _errorHandler s
         /\ (List.length new <= 2)%nat
         /\ Forall (fun r => showToUser r = false) new).
  { intros l s1 metric old Hlen Hshow Hdata Hold.
    repeat match goal with
           | |- context [if ?b then _ else _] => destruct b
           end;
      try (cbn; apply (added old); auto; lia).
    cbn.
    apply (added ({| error := Error ("Unknown chart type: "
                                      ++ to_string chartType);
                     source := "DataService.getChartData";
                     showToUser := false |} :: old)).
    - cbn. lia.
    - constructor; auto.
    - exact Hdata.
    - cbn. now rewrite Hold. }
  destruct options as [| |o].
  - unfold bind.
    destruct (getFilteredPlayers_reports Omitted s) as [H|[e H]].
    + destruct (getFilteredPlayers Omitted s) as [l s1]. cbn in H. subst s1.
      apply (chain l s VUndefined []); auto; repeat split.
    + rewrite H.
      apply (chain [] _ VUndefined
               [ {| error := e; source := "DataService.getFilteredPlayers";
                    showToUser := false |} ]); auto; repeat split.
  - cbn.
    apply (added [ {| error := TypeError;
                      source := "DataService.getChartData";
                      showToUser := false |} ]); auto; repeat split.
  - unfold bind.
    destruct (getFilteredPlayers_reports (filters o) s) as [H|[e H]].
    + destruct (getFilteredPlayers (filters o) s) as [l s1]. cbn in H.
      subst s1. apply (chain l s (metric o) []); auto; repeat split.
    + rewrite H.
      apply (chain [] _ (metric o)
               [ {| error := e; source := "DataService.getFilteredPlayers";
                    showToUser := false |} ]); auto; repeat split.
Qed.

(** The chart [getChartData] returns is the empty chart or the work of one
    of the six builders on some list of players. *)
Lemma getChartData_chart (chartType : value) (options : argument ChartOptions)
    (s : Service) :
  fst (getChartData chartType options s) = empty_chart
  \/ exists (l : list Player.t) (metric : value),
       In (fst (getChartData chartType options s))
          [ _createScoreDistributionData l; _createChestDistributionData l;
            _createAllianceComparisonData l; _createServerComparisonData l;
            _createRatioDistributionData l; _createTopPlayersData l metric ].
Proof.
  unfold getChartData. destruct options as [| |o]; [|now left|].
  - unfold bind. destruct (getFilteredPlayers Omitted s) as [l s1].
    repeat match goal with
           | |- context [if ?b then _ else _] => destruct b
           end;
      try (now left);
      right; exists l, (js_or VUndefined (VStr "score")); cbn; auto 10.
  - unfold bind. destruct (getFilteredPlayers (filters o) s) as [l s1].
    repeat match goal with
           | |- context [if ?b then _ else _] => destruct b
           end;
      try (now left);
      right; exists l, (js_or (metric o) (VStr "score")); cbn; auto 10.
Qed.

(** X6.  Every chart [getChartData] returns is well formed: each of its
    series has exactly one data point for each category -- whatever the
    chart kind, the options and the cached players, the empty chart of the
    error path included. *)
Theorem getChartData_one_point_per_category :
  forall (chartType : value) (options : argument ChartOptions) (s : Service),
    one_point_per_category (fst (getChartData chartType options s)).
Proof.
  intros chartType options s.
  destruct (getChartData_chart chartType options s) as [H|[l [metric H]]].
  - rewrite H. constructor.
  - cbn [In] in H.
    destruct H as [H|[H|[H|[H|[H|[H|[]]]]]]]; rewrite <- H;
      unfold one_point_per_category, _createScoreDistributionData,
        _createChestDistributionData, _createRatioDistributionData,
        distribution, range_counts, _createAllianceComparisonData,
        _createServerComparisonData, _createTopPlayersData, column;
      cbn [series categories data];
      repeat (apply Forall_cons; [cbn [data]; now rewrite !length_map|]);
      apply Forall_nil.
Qed.

(** ** The comparison charts *)

Section GroupFacts.

Lemma Qeq_bool_trans (x y z : Q) :
  Qeq_bool x y = true -> Qeq_bool y z = true -> Qeq_bool x z = true.
Proof. rewrite !Qeq_bool_iff. intros -> ->. reflexivity. Qed.

Lemma Qeq_bool_right (x y z : Q) :
  Qeq_bool y z = true -> Qeq_bool x y = Qeq_bool x z.
Proof.
  intros H. destruct (Qeq_bool x y) eqn:E1, (Qeq_bool x z) eqn:E2;
    try reflexivity.
  - rewrite (Qeq_bool_trans _ _ _ E1 H) in E2. discriminate.
  - apply Qeq_bool_iff in H. symmetry in H. apply Qeq_bool_iff in H.
    rewrite (Qeq_bool_trans _ _ _ E2 H) in E1. discriminate.
Qed.

(** Values that a [Set] takes for the same are strictly equal to the same
    values. *)
Lemma strict_equals_same_value (x g g' : value) :
  same_value_zero g g' = true -> strict_equals x g = strict_equals x g'.
Proof.
  destruct g as [| |a|[|[]|a]|a], g' as [| |b|[|[]|b]|b]; simpl;
    try discriminate; try reflexivity.
  - intros H. apply Bool.eqb_prop in H. now subst.
  - intros H. destruct x as [| |c|[|[]|c]|c]; simpl; try reflexivity.
    now apply Qeq_bool_right.
  - intros H. apply String.eqb_eq in H. now subst.
Qed.

Lemma same_value_zero_trans (a b c : value) :
  same_value_zero a b = true -> same_value_zero b c = true ->
  same_value_zero a c = true.
Proof.
  intros H1 H2.
  destruct a as [| |x|[|[]|x]|x], b as [| |y|[|[]|y]|y]; simpl in H1;
    try discriminate; try exact H2.
  - apply Bool.eqb_prop in H1. now subst.
  - destruct c as [| |z|[|[]|z]|z]; simpl in *; try discriminate.
    eapply Qeq_bool_trans; eassumption.
  - apply String.eqb_eq in H1. now subst.
Qed.

(** A [Set] holds values of the list, and one for every value of it. *)
Lemma set_of_sound (l : list value) (x : value) : In x (set_of l) -> In x l.
Proof.
  revert x. induction l as [|a l IH]; simpl; intros x H; [exact H|].
  destruct H as [H|H]; [now left|].
  right. apply IH. now apply filter_In in H.
Qed.

Lemma set_of_complete (l : list value) (x : value) :
  In x l -> exists y, In y (set_of l) /\ same_value_zero y x = true.
Proof.
  induction l as [|a l IH]; simpl; intros H; [destruct H|].
  destruct H as [H|H].
  - subst a. exists x. split; [now left | apply same_value_zero_refl].
  - destruct (IH H) as [y [Hy Hyx]].
    destruct (same_value_zero a y) eqn:E.
    + exists a. split; [now left|].
      eapply same_value_zero_trans; eassumption.
    + exists y. split; [|exact Hyx]. right. apply filter_In.
      split; [exact Hy | now rewrite E].
Qed.

Variable field : Player.t -> value.
Variable sentinel : string.
Variable l : list Player.t.

Lemma group_rows_names :
  map row_name (group_rows field sentinel l)
  = set_of (filter (fun g => negb (strict_equals g (VStr sentinel)))
                   (map field l)).
Proof.
  unfold group_rows. rewrite map_map. cbn [row_name]. apply map_id.
Qed.

Lemma group_rows_count (row : GroupRow) :
  In row (group_rows field sentinel l) ->
  playerCount (row_stats row)
  = VNum (num_of_nat (group_size field (row_name row) l)).
Proof.
  unfold group_rows. rewrite in_map_iff. intros [g [<- _]]. reflexivity.
Qed.

(** The names of the rows: values of the field, none the sentinel, none
    twice, one for every value of the field other than the sentinel. *)
Lemma group_rows_name_of_player (g : value) :
  In g (map row_name (group_rows field sentinel l)) ->
  strict_equals g (VStr sentinel) = false /\ In g (map field l).
Proof.
  rewrite group_rows_names. intros H. apply set_of_sound in H.
  apply filter_In in H. destruct H as [H1 H2].
  split; [now apply negb_true_iff | exact H1].
Qed.

Lemma group_rows_every_group (g : value) :
  In g (map field l) -> strict_equals g (VStr sentinel) = false ->
  exists c, In c (map row_name (group_rows field sentinel l))
            /\ same_value_zero c g = true.
Proof.
  intros H1 H2. rewrite group_rows_names. apply set_of_complete.
  apply filter_In. split; [exact H1 | now rewrite H2].
Qed.

Lemma group_rows_duplicate_free :
  duplicate_free (map row_name (group_rows field sentinel l)).
Proof. rewrite group_rows_names. apply set_of_duplicate_free. Qed.

End GroupFacts.

Lemma num_lt_of_nat (a b : nat) :
  num_lt (num_of_nat a) (num_of_nat b) = (a <? b)%nat.
Proof.
  unfold num_of_nat, num_of_Z. cbn [num_lt].
  destruct (a <? b)%nat eqn:E.
  - apply Qlt_bool_iff. rewrite <- Zlt_Qlt. apply Nat.ltb_lt in E. lia.
  - apply Qlt_bool_false_iff. rewrite <- Zle_Qle.
    apply Nat.ltb_ge in E. lia.
Qed.

Lemma ForallOrdPairs_firstn (A : Type) (R : A -> A -> Prop) (n : nat)
    (l : list A) :
  ForallOrdPairs R l -> ForallOrdPairs R (firstn n l).
Proof.
  intros H. revert n. induction H as [|x l Hx _ IH]; intros [|n]; simpl;
    constructor; auto.
  rewrite Forall_forall in *. intros y Hy. apply Hx.
  rewrite <- (firstn_skipn n l). apply in_or_app. now left.
Qed.

Lemma StronglySorted_firstn (A : Type) (R : A -> A -> Prop) (n : nat)
    (l : list A) :
  StronglySorted R l -> StronglySorted R (firstn n l).
Proof.
  intros H. revert n. induction H as [|x l _ IH Hx]; intros [|n]; simpl;
    constructor; auto.
  rewrite Forall_forall in *. intros y Hy. apply Hx.
  rewrite <- (firstn_skipn n l). apply in_or_app. now left.
Qed.

(** In a sorted list every element of a prefix is related to every element
    after the prefix. *)
Lemma StronglySorted_split (A : Type) (R : A -> A -> Prop) (n : nat)
    (l : list A) :
  StronglySorted R l ->
  forall x y, In x (firstn n l) -> In y (skipn n l) -> R x y.
Proof.
  intros H. revert n. induction H as [|x0 l _ IH Hx]; intros n x y.
  - rewrite firstn_nil. intros [].
  - destruct n as [|n]; simpl; [intros []|].
    rewrite Forall_forall in Hx. intros [<-|Hin] Hy.
    + apply Hx. rewrite <- (firstn_skipn n l). apply in_or_app. now right.
    + eapply IH; eassumption.
Qed.

Lemma StronglySorted_map (A B : Type) (f : A -> B) (R : B -> B -> Prop)
    (l : list A) :
  StronglySorted (fun a b => R (f a) (f b)) l -> StronglySorted R (map f l).
Proof.
  induction 1 as [|x l _ IH Hx]; simpl; constructor; auto.
  rewrite Forall_forall in *. intros y Hy. apply in_map_iff in Hy.
  destruct Hy as [a [<- Ha]]. auto.
Qed.

Lemma ForallOrdPairs_map_inv (A B : Type) (f : A -> B) (R : B -> B -> Prop)
    (l : list A) :
  ForallOrdPairs R (map f l) -> ForallOrdPairs (fun a b => R (f a) (f b)) l.
Proof.
  induction l as [|x l IH]; simpl; intros H; [constructor|].
  inversion H as [|? ? Hx Hr]; subst. constructor; auto.
  rewrite Forall_forall in *. intros y Hy. apply Hx. now apply in_map.
Qed.

Lemma ForallOrdPairs_map (A B : Type) (f : A -> B) (R : B -> B -> Prop)
    (l : list A) :
  ForallOrdPairs (fun a b => R (f a) (f b)) l -> ForallOrdPairs R (map f l).
Proof.
  induction 1 as [|x l Hx _ IH]; simpl; constructor; auto.
  rewrite Forall_forall in *. intros y Hy. apply in_map_iff in Hy.
  destruct Hy as [a [<- Ha]]. auto.
Qed.

(** The rows of the alliance chart after the sort: a rearrangement of the
    rows, larger groups first. *)
Lemma alliance_rows_sorted (l : list Player.t) :
  let rows := group_rows Player.alliance "" l in
  let sorted :=
    array_sort (descending (fun row => playerCount (row_stats row))) rows in
  Permutation rows sorted
  /\ StronglySorted
       (fun a b => (group_size Player.alliance (row_name b) l
                    <= group_size Player.alliance (row_name a) l)%nat)
       sorted.
Proof.
  intros rows sorted.
  assert (perm : Permutation rows sorted) by apply array_sort_perm.
  split; [exact perm|].
  assert (after : forall a b, In a rows -> In b rows ->
    sorts_after (descending (fun row => playerCount (row_stats row))) a b
    = (group_size Player.alliance (row_name a) l
       <? group_size Player.alliance (row_name b) l)%nat).
  { intros a b Ha Hb. unfold sorts_after, descending, js_sub.
    rewrite num_sub_pos.
    rewrite (group_rows_count _ _ _ a Ha), (group_rows_count _ _ _ b Hb).
    apply num_lt_of_nat. }
  assert (all : Forall (fun row => In row rows) sorted).
  { apply Forall_forall. intros row H.
    eapply Permutation_in; [symmetry; exact perm | exact H]. }
  assert (consistent :
    StronglySorted
      (fun a b => sorts_after
                    (descending (fun row => playerCount (row_stats row))) a b
                  = false) sorted).
  { apply array_sort_sorted
      with (domain := fun row =>
              is_nan (to_number (playerCount (row_stats row))) = false).
    - intros a b. unfold sorts_after, descending, js_sub.
      rewrite !num_sub_pos. apply num_lt_asym.
    - intros a b c. unfold sorts_after, descending, js_sub.
      rewrite !num_sub_pos. apply num_lt_false_trans.
    - apply Forall_forall. intros row H.
      now rewrite (group_rows_count _ _ _ row H). }
  revert consistent.
  apply StronglySorted_weaken_on with (D := fun row => In row rows);
    [|exact all].
  intros a b Ha Hb. rewrite (after a b Ha Hb). intros H.
  now apply Nat.ltb_ge in H.
Qed.

(** X7.  The alliance comparison charts the ten largest alliances among the
    players it is given, or all of them when there are no more than ten.
    Its categories are at most ten alliances of players of the list, none
    of them the empty string and none twice, in descending order of their
    number of players; and every alliance of a player of the list, the
    empty string apart, is one of the categories, unless the chart is full
    -- it has ten categories -- and each of them has at least as many
    players as that alliance. *)
Theorem alliance_comparison_ten_largest :
  forall l : list Player.t,
    let chart := _createAllianceComparisonData l in
    let size := fun g : value => group_size Player.alliance g l in
    (List.length (categories chart) <= 10)%nat
    /\ duplicate_free (categories chart)
    /\ Forall (fun a => strict_equals a (VStr "") = false
                        /\ In a (map Player.alliance l)) (categories chart)
    /\ StronglySorted (fun a b => (size b <= size a)%nat) (categories chart)
    /\ forall g : value,
         In g (map Player.alliance l) ->
         strict_equals g (VStr "") = false ->
         (exists c : value,
            In c (categories chart) /\ same_value_zero c g = true)
         \/ (List.length (categories chart) = 10%nat
             /\ forall a : value,
                  In a (categories chart) -> (size g <= size a)%nat).
Proof.
  intros l chart size.
  destruct (alliance_rows_sorted l) as [perm sorted].
  set (rows := group_rows Player.alliance "" l) in *.
  set (ordered :=
         array_sort (descending (fun row => playerCount (row_stats row)))
                    rows) in *.
  assert (cats : categories chart = map row_name (firstn 10 ordered))
    by reflexivity.
  assert (names : Permutation (map row_name rows) (map row_name ordered))
    by now apply Permutation_map.
  rewrite cats. repeat split.
  - rewrite length_map. apply firstn_le_length.
  - rewrite <- firstn_map. apply ForallOrdPairs_firstn.
    eapply ForallOrdPairs_perm; [|exact names|].
    + intros a b. now rewrite same_value_zero_sym.
    + apply group_rows_duplicate_free.
  - apply Forall_forall. intros a Ha.
    apply (group_rows_name_of_player Player.alliance "" l).
    eapply Permutation_in; [symmetry; exact names|].
    rewrite <- firstn_map in Ha.
    rewrite <- (firstn_skipn 10 (map row_name ordered)).
    apply in_or_app. now left.
  - apply StronglySorted_map. now apply StronglySorted_firstn.
  - intros g Hg Hne.
    destruct (group_rows_every_group Player.alliance "" l g Hg Hne)
      as [c [Hc Hcg]].
    assert (Hsize : size g = size c).
    { unfold size, group_size. f_equal. apply filter_ext. intros p.
      symmetry. now apply strict_equals_same_value. }
    apply (Permutation_in _ names) in Hc.
    apply in_map_iff in Hc. destruct Hc as [rc [Hrc Hin]].
    subst c.
    rewrite <- (firstn_skipn 10 ordered) in Hin.
    apply in_app_or in Hin. destruct Hin as [Hin|Hin].
    + left. exists (row_name rc). split; [|exact Hcg].
      apply in_map_iff. now exists rc.
    + right. split.
      * rewrite length_map. apply firstn_length_le.
        destruct (Nat.le_gt_cases 10 (List.length ordered)) as [H|H];
          [exact H|].
        rewrite skipn_all2 in Hin by lia. destruct Hin.
      * intros a Ha. rewrite Hsize.
        apply in_map_iff in Ha. destruct Ha as [ra [Hra Hina]]. subst a.
        apply (StronglySorted_split _ _ 10 ordered sorted ra rc Hina Hin).
Qed.

(** X8.  The server comparison charts every server of the players it is
    given, however many there are: its categories are servers of players of
    the list, none of them ["Unknown"] and none twice, with one for the
    server of every player that is not ["Unknown"]; and its first series
    lists, category by category, how many players of the list are on that
    server. *)
Theorem server_comparison_every_server :
  forall l : list Player.t,
    let chart := _createServerComparisonData l in
    duplicate_free (categories chart)
    /\ Forall (fun c => strict_equals c (VStr "Unknown") = false
                        /\ In c (map Player.server l)) (categories chart)
    /\ (forall p : Player.t,
          In p l ->
          strict_equals (Player.server p) (VStr "Unknown") = false ->
          exists c, In c (categories chart)
                    /\ same_value_zero c (Player.server p) = true)
    /\ exists rest : list Series,
         series chart
         = {| series_name := "Player Count";
              data := map (fun g =>
                             VNum (num_of_nat (group_size Player.server g l)))
                          (categories chart) |} :: rest.
Proof.
  intros l chart.
  assert (cats : categories chart
                 = map row_name (group_rows Player.server "Unknown" l))
    by reflexivity.
  rewrite cats. repeat split.
  - apply group_rows_duplicate_free.
  - apply Forall_forall. intros c Hc.
    now apply (group_rows_name_of_player Player.server "Unknown" l).
  - intros p Hp Hne.
    apply (group_rows_every_group Player.server "Unknown" l);
      [now apply in_map | exact Hne].
  - eexists. unfold chart, _createServerComparisonData.
    cbn [series]. f_equal. unfold column. f_equal.
    rewrite map_map. apply map_ext_in. intros row Hrow.
    now apply (group_rows_count Player.server "Unknown" l).
Qed.

(* ================================================================== *)
(** * Further properties of the statistics *)
(* ================================================================== *)

Lemma top10_drawn (A : Type) (cmp : A -> A -> number) (l : list A) :
  List.length (firstn 10 (array_sort cmp l)) = Nat.min 10 (List.length l)
  /\ exists rest : list A,
       Permutation l (firstn 10 (array_sort cmp l) ++ rest).
Proof.
  split.
  - rewrite length_firstn.
    now rewrite <- (Permutation_length (array_sort_perm cmp l)).
  - exists (skipn 10 (array_sort cmp l)). rewrite firstn_skipn.
    apply array_sort_perm.
Qed.

(** X9.  Whatever the cached values -- texts and [NaN] among them, for
    which the comparison of the sort is inconsistent -- each of the three
    top lists of [getStatistics] holds ten players, or all of them when
    fewer than ten are cached, and holds cached players only, none more
    often than the cache does. *)
Theorem getStatistics_top_lists_drawn_from_cache :
  forall s : Service,
    let stats := fst (getStatistics s) in
    let all := players (_cache s) in
    Forall (fun top : list Player.t =>
              List.length top = Nat.min 10 (List.length all)
              /\ exists rest : list Player.t, Permutation all (top ++ rest))
           [ topPlayersByScore stats; topPlayersByChests stats;
             topPlayersByRatio stats ].
Proof.
  intros s. cbn. repeat constructor;
    try apply (proj1 (top10_drawn _ _ _));
    apply (proj2 (top10_drawn _ _ _)).
Qed.

Section Objects.
Variable A : Type.

Lemma obj_get_set_same (k : string) (v : A) (obj : list (string * A)) :
  obj_get k (obj_set k v obj) = Some v.
Proof.
  induction obj as [|[k' w] r IH]; simpl.
  - now rewrite String.eqb_refl.
  - destruct (String.eqb k' k) eqn:E; simpl; now rewrite E.
Qed.

Lemma obj_get_set_other (k k' : string) (v : A) (obj : list (string * A)) :
  k <> k' -> obj_get k (obj_set k' v obj) = obj_get k obj.
Proof.
  intros Hne. induction obj as [|[k0 w] r IH]; simpl.
  - destruct (String.eqb k' k) eqn:E; [|reflexivity].
    apply String.eqb_eq in E. congruence.
  - destruct (String.eqb k0 k') eqn:E; simpl.
    + apply String.eqb_eq in E. subst k0.
      destruct (String.eqb k' k) eqn:E'; [|reflexivity].
      apply String.eqb_eq in E'. congruence.
    + now rewrite IH.
Qed.

(** After [groups.forEach(g => { stats[g] = F(g) })] the object has, under
    the string form of every group, what [F] gives for the last group with
    that string form, and nothing under any other key. *)
Lemma forEach_entries (F : value -> A) (groups : list value) :
  forall (init : list (string * A)) (k : string),
    obj_get k (fold_left (fun stats g => obj_set (to_string g) (F g) stats)
                         groups init)
    = match find (fun g => String.eqb (to_string g) k) (rev groups) with
      | Some g => Some (F g)
      | None => obj_get k init
      end.
Proof.
  induction groups as [|g r IH]; intros init k; simpl; [reflexivity|].
  rewrite IH.
  assert (split_find : forall (l1 l2 : list value) (P : value -> bool),
    find P (l1 ++ l2)
    = match find P l1 with Some x => Some x | None => find P l2 end).
  { intros l1 l2 P. induction l1 as [|x l1 IH1]; simpl; [reflexivity|].
    now destruct (P x). }
  rewrite split_find.
  destruct (find _ (rev r)) as [g'|]; [reflexivity|]. simpl.
  destruct (String.eqb (to_string g) k) eqn:E.
  - apply String.eqb_eq in E. subst k. apply obj_get_set_same.
  - apply obj_get_set_other. intros H. subst k.
    rewrite String.eqb_refl in E. discriminate.
Qed.
End Objects.

Lemma find_unique_key (groups : list value) (g : value) :
  NoDup (map to_string groups) -> In g groups ->
  find (fun g' => String.eqb (to_string g') (to_string g)) (rev groups)
  = Some g.
Proof.
  intros Hnd Hin.
  assert (Hnd' : NoDup (map to_string (rev groups))).
  { rewrite map_rev. now apply NoDup_rev. }
  apply in_rev in Hin. revert Hnd' Hin.
  generalize (rev groups) as l. clear Hnd.
  induction l as [|x l IH]; simpl; intros Hnd Hin; [destruct Hin|].
  inversion Hnd as [|? ? Hx Hl]; subst.
  destruct Hin as [->|Hin].
  - now rewrite String.eqb_refl.
  - destruct (String.eqb (to_string x) (to_string g)) eqn:E.
    + apply String.eqb_eq in E. exfalso. apply Hx. rewrite E.
      now apply in_map.
    + now apply IH.
Qed.

(** X10.  The per-alliance and per-server breakdowns of [getStatistics]
    have one entry for every alliance and every server listed in the cache,
    under its string form, and none besides (the key ["__proto__"] apart,
    which names no property of its own).  When the listed names have
    pairwise distinct string forms, the entry of a name holds the
    aggregates of the cached players whose field is strictly equal to it
    -- their count in [playerCount] --, and these are the aggregates of no
    players, all zero, for a name no cached player carries. *)
Theorem getStatistics_breakdowns :
  forall s : Service,
    let stats := fst (getStatistics s) in
    let all := players (_cache s) in
    (forall k : string,
       k <> "__proto__"%string ->
       (obj_get k (allianceStats stats) <> None
        <-> In k (map to_string (alliances (_cache s))))
       /\ (obj_get k (serverStats stats) <> None
           <-> In k (map to_string (servers (_cache s)))))
    /\ (NoDup (map to_string (alliances (_cache s))) ->
        forall a : value,
          In a (alliances (_cache s)) ->
          to_string a <> "__proto__"%string ->
          obj_get (to_string a) (allianceStats stats)
          = Some (group_stats
                    (filter (fun p => strict_equals (Player.alliance p) a)
                            all)))
    /\ (NoDup (map to_string (servers (_cache s))) ->
        forall a : value,
          In a (servers (_cache s)) ->
          to_string a <> "__proto__"%string ->
          obj_get (to_string a) (serverStats stats)
          = Some (group_stats
                    (filter (fun p => strict_equals (Player.server p) a)
                            all)))
    /\ group_stats []
       = {| playerCount := VNum (Fin 0);
            totalScore := VNum (Fin 0); totalChests := VNum (Fin 0);
            averageScore := VNum (Fin 0); averageChests := VNum (Fin 0);
            averageRatio := VNum (Fin 0) |}.
Proof.
  intros s stats all.
  assert (keys : forall (field : Player.t -> value) (groups : list value)
                        (k : string),
    obj_get k (stats_by field groups all) <> None
    <-> In k (map to_string groups)).
  { intros field groups k. unfold stats_by. rewrite forEach_entries.
    destruct (find _ (rev groups)) as [g|] eqn:E.
    - apply find_some in E. destruct E as [Hin Hk].
      apply String.eqb_eq in Hk. apply in_rev in Hin.
      split; [|discriminate]. intros _. rewrite <- Hk. now apply in_map.
    - split; [now intros H|]. intros Hin. exfalso.
      apply in_map_iff in Hin. destruct Hin as [g [Hg Hin]].
      apply in_rev in Hin.
      apply (find_none _ _ E) in Hin. rewrite Hg in Hin.
      rewrite String.eqb_refl in Hin. discriminate. }
  assert (entries : forall (field : Player.t -> value) (groups : list value),
    NoDup (map to_string groups) ->
    forall a : value, In a groups ->
      to_string a <> "__proto__"%string ->
      obj_get (to_string a) (stats_by field groups all)
      = Some (group_stats
                (filter (fun p => strict_equals (field p) a) all))).
  { intros field groups Hnd a Ha _. unfold stats_by.
    rewrite forEach_entries. now rewrite (find_unique_key groups a Hnd Ha). }
  split; [intros k _; split; apply keys|].
  split; [apply entries|]. split; [apply entries|]. reflexivity.
Qed.

Lemma getStatistics_breakdowns_witness :
  let data :=
    DocObject (PlayersArray [ member "Wolves" "S1"; member "Bears" "S2";
                              member "Wolves" "S2"; member "" "S1" ]) in
  let s := snd (_processData data 0 constructor) in
  let stats := fst (getStatistics s) in
  alliances (_cache s) = [VStr "Bears"; VStr "Wolves"]
  /\ obj_get "Wolves" (allianceStats stats)
     = Some (group_stats
               (filter (fun p => strict_equals (Player.alliance p)
                                               (VStr "Wolves"))
                       (players (_cache s))))
  /\ option_map playerCount (obj_get "Wolves" (allianceStats stats))
     = Some (VNum (Fin 2)).
Proof.
  intros data s stats. split; [reflexivity|]. split; [|reflexivity].
  assert (distinct : NoDup (map to_string (alliances (_cache s)))).
  { repeat constructor; cbn; intuition discriminate. }
  apply (proj1 (proj2 (getStatistics_breakdowns s)) distinct (VStr "Wolves")).
  - right. now left.
  - discriminate.
Defined.

Section Totals.
Variable field : Player.t -> value.

Lemma total_from (l : list Player.t) :
  Forall (fun p => finite_number (field p)) l ->
  forall acc : Q,
    exists t : Q,
      fold_left (fun sum player => js_add sum (field player)) l
                (VNum (Fin acc)) = VNum (Fin t)
      /\ (t == acc + sum_of field l)%Q.
Proof.
  induction 1 as [|p l [q Hq] _ IH]; intros acc; simpl.
  - exists acc. split; [reflexivity | ring].
  - rewrite Hq. cbn [js_add to_number num_add].
    destruct (IH (Qred (acc + q))) as [t [Ht Hsum]].
    exists t. split; [exact Ht|].
    rewrite Hsum, Qred_correct. ring.
Qed.

(** With finite numbers in the field, the total is their sum and the
    average is the sum divided by their number. *)
Lemma total_average_finite (l : list Player.t) :
  Forall (fun p => finite_number (field p)) l ->
  exists t a : Q,
    total field l = VNum (Fin t)
    /\ average field l = VNum (Fin a)
    /\ (t == sum_of field l)%Q
    /\ (a * inject_Z (Z.of_nat (List.length l)) == t)%Q.
Proof.
  intros H. destruct (total_from l H 0) as [t [Ht Hsum]].
  assert (Hsum' : (t == sum_of field l)%Q) by (rewrite Hsum; ring).
  unfold average, total. rewrite Ht.
  destruct l as [|p l].
  - exists t, 0%Q. cbn. repeat split; auto.
    cbn in Hsum'. rewrite Hsum'. ring.
  - set (n := List.length (p :: l)).
    assert (Hn : ~ (inject_Z (Z.of_nat n) == 0)%Q).
    { unfold n. cbn [List.length]. intros Hz.
      unfold Qeq, inject_Z in Hz. cbn [Qnum Qden] in Hz. lia. }
    exists t, (Qred (t / inject_Z (Z.of_nat n))).
    replace (0 <? n)%nat with true by reflexivity.
    unfold js_div, num_of_nat, num_of_Z. cbn [to_number num_div].
    destruct (Qeq_bool (inject_Z (Z.of_nat n)) 0) eqn:E.
    + apply Qeq_bool_iff in E. contradiction.
    + repeat split; auto. rewrite Qred_correct. now field.
Qed.

(** Once a value of the field is a string, the total is a string: [+]
    concatenates from there on. *)
Lemma total_text_from (l : list Player.t) :
  forall acc : value,
    is_string acc = true
    \/ existsb (fun p => is_string (field p)) l = true ->
    is_string (fold_left (fun sum player => js_add sum (field player)) l acc)
    = true.
Proof.
  induction l as [|p l IH]; intros acc H; simpl.
  - destruct H as [H|H]; [exact H | discriminate].
  - apply IH. cbn [existsb] in H.
    destruct H as [H|H].
    + left. destruct acc; try discriminate. reflexivity.
    + apply orb_true_iff in H. destruct H as [H|H]; [|now right].
      left. destruct (field p); try discriminate.
      now destruct acc.
Qed.
End Totals.

Lemma sum_of_within (field : Player.t -> value) (lo hi : Q)
    (l : list Player.t) :
  Forall (fun p => within lo hi (field p)) l ->
  (lo * inject_Z (Z.of_nat (List.length l)) <= sum_of field l)%Q
  /\ (sum_of field l <= hi * inject_Z (Z.of_nat (List.length l)))%Q.
Proof.
  induction 1 as [|p l [q [Hq [Hlo Hhi]]] _ [IHlo IHhi]].
  - cbn. split; [rewrite Qmult_0_r | rewrite Qmult_0_r]; apply Qle_refl.
  - assert (step : (inject_Z (Z.of_nat (List.length (p :: l)))
                    == inject_Z (Z.of_nat (List.length l)) + 1)%Q).
    { cbn [List.length]. rewrite Nat2Z.inj_succ. unfold Z.succ.
      now rewrite inject_Z_plus. }
    cbn [sum_of]. rewrite Hq, step. split.
    + setoid_replace (lo * (inject_Z (Z.of_nat (List.length l)) + 1))%Q
        with (lo + lo * inject_Z (Z.of_nat (List.length l)))%Q by ring.
      now apply Qplus_le_compat.
    + setoid_replace (hi * (inject_Z (Z.of_nat (List.length l)) + 1))%Q
        with (hi + hi * inject_Z (Z.of_nat (List.length l)))%Q by ring.
      now apply Qplus_le_compat.
Qed.

(** The average of finite numbers from [lo] to [hi] is a finite number from
    [lo] to [hi]. *)
Lemma average_within (field : Player.t -> value) (lo hi : Q)
    (l : list Player.t) :
  (0 < List.length l)%nat ->
  Forall (fun p => within lo hi (field p)) l ->
  within lo hi (average field l).
Proof.
  intros Hn H.
  assert (Hf : Forall (fun p => finite_number (field p)) l).
  { eapply Forall_impl; [|exact H]. intros p [q [Hq _]]. now exists q. }
  destruct (total_average_finite field l Hf) as [t [a [_ [Ha [Ht Hat]]]]].
  destruct (sum_of_within field lo hi l H) as [Hlo Hhi].
  assert (pos : (0 < inject_Z (Z.of_nat (List.length l)))%Q).
  { unfold Qlt, inject_Z. cbn [Qnum Qden]. lia. }
  exists a. split; [exact Ha|].
  rewrite <- Ht, <- Hat in Hlo, Hhi.
  split.
  - now apply (Qmult_le_r _ _ _ pos).
  - now apply (Qmult_le_r _ _ _ pos).
Qed.

(** X11.  When every cached score and chest count is a whole number that
    is not negative, and their sums do not exceed
    [Number.MAX_SAFE_INTEGER], [totalPlayers] is the number of cached
    players and the totals of [getStatistics] are the sums of the cached
    scores and chests.  Each average is the one division of its total by
    the number of players, and lies between any two bounds that all the
    scores, or chests, lie between; the averages of an empty cache are 0,
    nothing being divided by zero. *)
Theorem getStatistics_totals_and_averages :
  forall s : Service,
    let stats := fst (getStatistics s) in
    let all := players (_cache s) in
    Forall (fun p => whole_number (Player.score p)
                     /\ whole_number (Player.chests p)) all ->
    (sum_of Player.score all <= MAX_SAFE_INTEGER)%Q ->
    (sum_of Player.chests all <= MAX_SAFE_INTEGER)%Q ->
    totalPlayers stats = VNum (num_of_nat (List.length all))
    /\ (exists t : Q,
          stat_totalScore stats = VNum (Fin t)
          /\ (t == sum_of Player.score all)%Q)
    /\ (exists t : Q,
          stat_totalChests stats = VNum (Fin t)
          /\ (t == sum_of Player.chests all)%Q)
    /\ (all = [] ->
        stat_averageScore stats = VNum (Fin 0)
        /\ stat_averageChests stats = VNum (Fin 0)
        /\ stat_averageRatio stats = VNum (Fin 0))
    /\ (all <> [] ->
        stat_averageScore stats
        = VNum (js_div (stat_totalScore stats) (totalPlayers stats))
        /\ stat_averageChests stats
           = VNum (js_div (stat_totalChests stats) (totalPlayers stats))
        /\ forall lo hi : Q,
             (Forall (fun p => within lo hi (Player.score p)) all ->
              within lo hi (stat_averageScore stats))
             /\ (Forall (fun p => within lo hi (Player.chests p)) all ->
                 within lo hi (stat_averageChests stats))).
Proof.
  intros s stats all H _ _.
  assert (finite : forall v : value, whole_number v -> finite_number v).
  { intros v [z [q [_ [Hq _]]]]. now exists q. }
  assert (Hs : Forall (fun p => finite_number (Player.score p)) all)
    by (eapply Forall_impl; [|exact H]; intros p [? ?]; auto).
  assert (Hc : Forall (fun p => finite_number (Player.chests p)) all)
    by (eapply Forall_impl; [|exact H]; intros p [? ?]; auto).
  split; [reflexivity|]. split; [|split; [|split]].
  - destruct (total_average_finite Player.score all Hs)
      as [t [a [Ht [_ [Hsum _]]]]].
    now exists t.
  - destruct (total_average_finite Player.chests all Hc)
      as [t [a [Ht [_ [Hsum _]]]]].
    now exists t.
  - intros Hall. unfold stats, getStatistics. fold all.
    cbn [fst stat_averageScore stat_averageChests stat_averageRatio].
    rewrite Hall. repeat split; reflexivity.
  - intros Hall.
    assert (Hn : (0 < List.length all)%nat).
    { destruct all; [congruence | cbn; lia]. }
    assert (Hb : (0 <? List.length all)%nat = true)
      by now apply Nat.ltb_lt.
    split; [|split].
    + unfold stats, getStatistics. fold all.
      cbn [fst stat_averageScore stat_totalScore totalPlayers].
      unfold average. now rewrite Hb.
    + unfold stats, getStatistics. fold all.
      cbn [fst stat_averageChests stat_totalChests totalPlayers].
      unfold average. now rewrite Hb.
    + intros lo hi. split; intros Hin.
      * apply (average_within Player.score lo hi all Hn Hin).
      * apply (average_within Player.chests lo hi all Hn Hin).
Qed.

Lemma getStatistics_totals_and_averages_witness :
  let s := service_with [ player "ann" (Fin 100) (Fin 10) (Fin 10);
                          player "bob" (Fin 300) (Fin 0) (Fin 0) ] in
  let stats := fst (getStatistics s) in
  stat_totalScore stats = VNum (Fin 400)
  /\ stat_averageScore stats = VNum (Fin 200)
  /\ (exists t : Q,
        stat_totalScore stats = VNum (Fin t) /\ (t == 400)%Q)
  /\ within 100 300 (stat_averageScore stats).
Proof.
  intros s stats. split; [reflexivity|]. split; [reflexivity|].
  assert (whole : forall z : Z,
            (0 <=? z)%Z = true -> whole_number (VNum (Fin (inject_Z z)))).
  { intros z Hz. exists z, (inject_Z z). split; [now apply Z.leb_le|].
    split; reflexivity. }
  destruct (getStatistics_totals_and_averages s)
    as [_ [Ht [_ [_ Hav]]]].
  - repeat constructor; apply whole; reflexivity.
  - vm_compute. discriminate.
  - vm_compute. discriminate.
  - split; [exact Ht|].
    destruct Hav as [_ [_ Hav]]; [discriminate|].
    apply (proj1 (Hav 100 300)).
    repeat constructor;
      eexists; (split; [reflexivity|]); split; vm_compute; discriminate.
Defined.

(** X12.  A score kept as text spoils the total: as soon as the score of
    one cached player is a string -- [_processData] keeps ["score": "1200"]
    as it is -- [totalScore] is a string, the concatenation [+] produces,
    and not a number; likewise for the chests. *)
Theorem getStatistics_total_of_text :
  forall s : Service,
    let stats := fst (getStatistics s) in
    let all := players (_cache s) in
    (existsb (fun p => is_string (Player.score p)) all = true ->
     is_string (stat_totalScore stats) = true)
    /\ (existsb (fun p => is_string (Player.chests p)) all = true ->
        is_string (stat_totalChests stats) = true).
Proof.
  intros s stats all. split; intros H.
  - apply (total_text_from Player.score all). now right.
  - apply (total_text_from Player.chests all). now right.
Qed.

Lemma getStatistics_total_of_text_witness :
  let data :=
    DocObject (PlayersArray [ entry (VNum (Fin 5)) (VNum (Fin 1));
                              entry (VStr "12") (VNum (Fin 1)) ]) in
  let s := snd (_processData data 0 constructor) in
  let stats := fst (getStatistics s) in
  stat_totalScore stats = VStr "512"
  /\ stat_averageScore stats = VNum (Fin 256)
  /\ is_string (stat_totalScore stats) = true.
Proof.
  intros data s stats. split; [reflexivity|]. split; [reflexivity|].
  apply (proj1 (getStatistics_total_of_text s)). reflexivity.
Defined.

(* ================================================================== *)
(** * Further properties of the normalisation *)
(* ================================================================== *)

(** [players.map] returns when no entry is [null], with one record for
    each entry, and throws a [TypeError] otherwise. *)
Lemma map_throwing_process_player (entries : list (option Raw.t)) :
  forall index : nat,
    (Forall (fun entry => entry <> None) entries ->
     exists l : list Player.t,
       map_throwing process_player index entries = inr l
       /\ List.length l = List.length entries)
    /\ (In None entries ->
        map_throwing process_player index entries = inl TypeError).
Proof.
  induction entries as [|[e|] r IH]; intros index; simpl.
  - split; [|intros []]. intros _. exists []. now split.
  - destruct (IH (S index)) as [IH1 IH2]. split.
    + intros H. inversion H as [|? ? _ Hr]; subst.
      destruct (IH1 Hr) as [l [Hl Hlen]]. rewrite Hl. cbn.
      eexists. split; [reflexivity|]. cbn. now rewrite Hlen.
    + intros [H|H]; [discriminate|]. now rewrite (IH2 H).
  - split; [|reflexivity]. intros H. inversion H; subst. congruence.
Qed.

Lemma In_None_dec (entries : list (option Raw.t)) :
  Forall (fun entry => entry <> None) entries \/ In None entries.
Proof.
  induction entries as [|[e|] r IH]; [left; constructor | | right; now left].
  destruct IH as [IH|IH]; [left | right; now right].
  constructor; [discriminate | exact IH].
Qed.

(** X13.  [_processData] accepts a document exactly when it is an object
    whose [players] is falsy (absent, [null], ...) or is an array without a
    [null] entry: one [null] entry, or a [null] document, has the whole
    document rejected.  On acceptance nothing is reported, the cache holds
    one record for each entry and is stamped with the time of the call.  On
    rejection the call returns [false], the cache is as it was, and one
    report goes to the error handler, not to be shown to the user. *)
Theorem processData_accepts :
  forall (data : document) (now : Z) (s : Service),
    let (accepted, s') := _processData data now s in
    (accepted = true
     <-> data = DocObject PlayersFalsy \/ well_formed_document data)
    /\ (accepted = true ->
        _errorHandler s' = _errorHandler s
        /\ lastUpdated (_cache s') = Some (DateAt now)
        /\ List.length (players (_cache s'))
           = match data with
             | DocObject (PlayersArray entries) => List.length entries
             | _ => 0%nat
             end)
    /\ (accepted = false ->
        exists e : js_error,
          s' = reported e "DataService._processData" false s).
Proof.
  intros data now s. unfold _processData, processed_cache.
  destruct data as [|[| |entries]]; cbn.
  - split; [|split]; try discriminate.
    + split; [discriminate|]. intros [H|[entries [H _]]]; discriminate.
    + intros _. now exists TypeError.
  - split; [|split]; try discriminate; auto.
    split; auto.
  - split; [|split]; try discriminate.
    + split; [discriminate|]. intros [H|[entries [H _]]]; discriminate.
    + intros _. now exists TypeError.
  - destruct (map_throwing_process_player entries 0) as [Hok Hnull].
    destruct (In_None_dec entries) as [H|H].
    + destruct (Hok H) as [l [Hl Hlen]]. rewrite Hl. cbn.
      split; [|split]; try discriminate; auto.
      split; auto. intros _. right. now exists entries.
    + rewrite (Hnull H). cbn. split; [|split]; try discriminate.
      * split; [discriminate|]. intros [Hd|[entries' [Hd Hall]]];
          [discriminate|].
        inversion Hd; subst entries'. rewrite Forall_forall in Hall.
        now specialize (Hall None H).
      * intros _. now exists TypeError.
Qed.

Lemma map_throwing_nth (A B : Type) (f : A -> nat -> result B) (l : list A) :
  forall (index : nat) (l' : list B) (i : nat) (x : A),
    map_throwing f index l = inr l' ->
    nth_error l i = Some x ->
    exists y : B, nth_error l' i = Some y /\ f x (index + i)%nat = inr y.
Proof.
  induction l as [|a l IH]; intros index l' i x H Hx.
  - destruct i; discriminate.
  - simpl in H. destruct (f a index) as [e|y] eqn:E; simpl in H;
      [discriminate|].
    destruct (map_throwing f (S index) l) as [e|r] eqn:E'; simpl in H;
      [discriminate|].
    inversion H; subst l'; clear H. destruct i as [|i]; simpl in Hx |- *.
    + inversion Hx; subst a. exists y. now rewrite Nat.add_0_r.
    + destruct (IH (S index) r i x E' Hx) as [y' [Hy' Hf]].
      exists y'. split; [exact Hy'|].
      now replace (index + S i)%nat with (S index + i)%nat by lia.
Qed.

Lemma js_or_truthy (v d : value) : truthy d = true -> truthy (js_or v d) = true.
Proof. unfold js_or. intros H. now destruct (truthy v) eqn:E. Qed.

(** X14.  The records follow the entries: in an accepted document the
    record at position [i] is built from the entry at position [i], each
    field the entry's when that is truthy, and otherwise ["player_<i>"],
    ["Unknown Player <i>"], [""], ["Unknown"], [0] and [0] with the position
    in decimal.  So no record is without an id, a name or a server: these
    three are truthy in every record. *)
Theorem processData_defaults :
  forall (entries : list (option Raw.t)) (now : Z) (s : Service)
         (i : nat) (e : Raw.t),
    let (accepted, s') :=
      _processData (DocObject (PlayersArray entries)) now s in
    let position := number_to_string (num_of_nat i) in
    accepted = true ->
    nth_error entries i = Some (Some e) ->
    exists p : Player.t,
      nth_error (players (_cache s')) i = Some p
      /\ Player.id p = js_or (Raw.id e) (VStr ("player_" ++ position))
      /\ Player.name p
         = js_or (Raw.name e) (VStr ("Unknown Player " ++ position))
      /\ Player.alliance p = js_or (Raw.alliance e) (VStr "")
      /\ Player.server p = js_or (Raw.server e) (VStr "Unknown")
      /\ Player.score p = js_or (Raw.score e) (VNum (Fin 0))
      /\ Player.chests p = js_or (Raw.chests e) (VNum (Fin 0))
      /\ truthy (Player.id p) = true
      /\ truthy (Player.name p) = true
      /\ truthy (Player.server p) = true.
Proof.
  intros entries now s i e. unfold _processData, processed_cache.
  destruct (map_throwing process_player 0 entries) as [err|l] eqn:E; cbn;
    [discriminate|].
  intros _ Hi.
  destruct (map_throwing_nth _ _ process_player entries 0 l i (Some e) E Hi)
    as [p [Hp Hbuilt]].
  exists p. split; [exact Hp|]. unfold process_player, ok in Hbuilt.
  apply (f_equal (fun r => match r with inr x => x | inl _ => p end))
    in Hbuilt.
  cbv beta iota in Hbuilt. subst p.
  cbn [Player.id Player.name Player.alliance Player.server Player.score
       Player.chests].
  repeat split; apply js_or_truthy; reflexivity.
Qed.

Lemma processData_defaults_witness :
  let entries :=
    [ Some {| Raw.id := VStr "p-7"; Raw.name := VStr "Ann";
              Raw.alliance := VStr "Wolves"; Raw.server := VStr "S1";
              Raw.score := VNum (Fin 10); Raw.chests := VNum (Fin 2) |};
      Some {| Raw.id := VNum (Fin 0); Raw.name := VStr "";
              Raw.alliance := VNull; Raw.server := VUndefined;
              Raw.score := VStr ""; Raw.chests := VBool false |} ] in
  let s' := snd (_processData (DocObject (PlayersArray entries)) 0
                              constructor) in
  exists p : Player.t,
    nth_error (players (_cache s')) 1 = Some p
    /\ Player.id p = VStr "player_1"
    /\ Player.name p = VStr "Unknown Player 1"
    /\ Player.server p = VStr "Unknown".
Proof.
  intros entries s'.
  destruct (processData_defaults entries 0 constructor 1
              {| Raw.id := VNum (Fin 0); Raw.name := VStr "";
                 Raw.alliance := VNull; Raw.server := VUndefined;
                 Raw.score := VStr ""; Raw.chests := VBool false |}
              eq_refl eq_refl)
    as [p [Hp [Hid [Hname [_ [Hserver _]]]]]].
  exists p. repeat split; assumption.
Defined.

(** What [_processData] derives from a field lists values of the field
    only, and every value of the field other than the sentinel. *)
Lemma unique_sorted_covers (field : Player.t -> value) (sentinel : string)
    (l : list Player.t) :
  (forall a : value,
     In a (unique_sorted field sentinel l) ->
     exists p : Player.t, In p l /\ field p = a)
  /\ (forall p : Player.t,
        In p l -> strict_equals (field p) (VStr sentinel) = false ->
        exists a : value,
          In a (unique_sorted field sentinel l)
          /\ same_value_zero a (field p) = true).
Proof.
  unfold unique_sorted. split.
  - intros a Ha.
    apply (Permutation_in _ (Permutation_sym (array_sort_perm _ _))) in Ha.
    apply set_of_sound in Ha. apply filter_In in Ha. destruct Ha as [Ha _].
    apply in_map_iff in Ha. destruct Ha as [p [Hp Hin]]. eauto.
  - intros p Hp Hne.
    destruct (set_of_complete
                (filter (fun x => negb (strict_equals x (VStr sentinel)))
                        (map field l)) (field p)) as [a [Ha Hsame]].
    { apply filter_In. split; [now apply in_map | now rewrite Hne]. }
    exists a. split; [|exact Hsame].
    eapply Permutation_in; [apply array_sort_perm | exact Ha].
Qed.

(** X15.  After [_processData] has accepted a document, the alliance list
    of the cache names exactly the alliances of the cached players: every
    listed alliance is the alliance of some cached player, and the alliance
    of every cached player is listed unless it is the empty string.  The
    same holds of the server list, with ["Unknown"] for the empty
    string. *)
Theorem processData_lists_cover_players :
  forall (data : document) (now : Z) (s : Service),
    let (accepted, s') := _processData data now s in
    let c := _cache s' in
    accepted = true ->
    (forall a : value,
       In a (alliances c) ->
       exists p : Player.t, In p (players c) /\ Player.alliance p = a)
    /\ (forall p : Player.t,
          In p (players c) ->
          strict_equals (Player.alliance p) (VStr "") = false ->
          exists a : value,
            In a (alliances c)
            /\ same_value_zero a (Player.alliance p) = true)
    /\ (forall a : value,
          In a (servers c) ->
          exists p : Player.t, In p (players c) /\ Player.server p = a)
    /\ (forall p : Player.t,
          In p (players c) ->
          strict_equals (Player.server p) (VStr "Unknown") = false ->
          exists a : value,
            In a (servers c)
            /\ same_value_zero a (Player.server p) = true).
Proof.
  intros data now s. unfold _processData.
  destruct (processed_cache data now) as [e|c] eqn:E; cbn; [discriminate|].
  intros _. unfold processed_cache in E.
  destruct data as [|field]; [discriminate|].
  destruct (match field with
            | PlayersFalsy => ok []
            | PlayersNotArray => throw TypeError
            | PlayersArray players => map_throwing process_player 0 players
            end) as [e|l]; cbn in E; [discriminate|].
  inversion E; subst c; clear E. cbn [players alliances servers].
  destruct (unique_sorted_covers Player.alliance "" l) as [A1 A2].
  destruct (unique_sorted_covers Player.server "Unknown" l) as [S1 S2].
  auto.
Qed.

Lemma processData_lists_cover_players_witness :
  let data :=
    DocObject (PlayersArray [ member "Wolves" "S1"; member "" "Unknown";
                              member "Bears" "S1" ]) in
  let c := _cache (snd (_processData data 0 constructor)) in
  (alliances c, servers c) = ([VStr "Bears"; VStr "Wolves"], [VStr "S1"])
  /\ forall a : value,
       In a (alliances c) ->
       exists p : Player.t, In p (players c) /\ Player.alliance p = a.
Proof.
  intros data c. split; [reflexivity|].
  apply (processData_lists_cover_players data 0 constructor). reflexivity.
Defined.

(* ================================================================== *)
(** * Further properties of reloading *)
(* ================================================================== *)

(** X16.  An ok response whose body parses always counts as a successful
    load.  When [loadData] goes to the network and gets one, it returns
    [true], switches [isLoading] off and sets [dataLoaded] -- whether or not
    [_processData] accepted the document.  If it did, the cache is the one
    built from the document, stamped with the time of the load, and nothing
    is reported.  If it did not -- a [null] document, a [null] entry -- the
    cache is as it was and the one report made is not shown to the user,
    yet the call still returns [true] and [dataLoaded] is set. *)
Theorem loadData_ok_response :
  forall (forceRefresh : bool) (fetch : value -> fetch_outcome)
         (now loaded : Z) (s : Service) (data : document),
    reloads forceRefresh now s ->
    delivers (fetch (requested_url s)) data ->
    let (returned, s') := loadData forceRefresh fetch now loaded s in
    returned = true
    /\ StateManager.getState "dataLoaded" (_stateManager s') = VBool true
    /\ StateManager.getState "isLoading" (_stateManager s') = VBool false
    /\ _dataSourceUrl s' = _dataSourceUrl s
    /\ match processed_cache data loaded with
       | inr c => _cache s' = c /\ _errorHandler s' = _errorHandler s
       | inl e =>
           _cache s' = _cache s
           /\ _errorHandler s'
              = {| error := e; source := "DataService._processData";
                   showToUser := false |} :: _errorHandler s
       end.
Proof.
  intros forceRefresh fetch now loaded s data Hreload [status Hfetch].
  unfold reloads in Hreload.
  unfold loadData. rewrite Hreload.
  unfold bind, setState, getState, ret. cbn -[js_or processed_cache].
  match goal with
  | |- context [fetch ?u] => change (fetch u) with (fetch (requested_url s))
  end.
  rewrite Hfetch. cbn -[processed_cache]. unfold _processData.
  destruct (processed_cache data loaded) as [e|c];
    cbn; repeat split; reflexivity.
Qed.

Lemma loadData_ok_response_witness :
  let fetch := fun _ : value => Response true 200 (BodyJson DocNull) in
  let (returned, s') := loadData false fetch 0 0 constructor in
  returned = true
  /\ StateManager.getState "dataLoaded" (_stateManager s') = VBool true
  /\ isDataLoaded s' = false
  /\ _cache s' = _cache constructor
  /\ _errorHandler s'
     = [ {| error := TypeError; source := "DataService._processData";
            showToUser := false |} ].
Proof.
  intros fetch.
  pose proof (loadData_ok_response false fetch 0 0 constructor DocNull
                eq_refl (ex_intro _ 200%nat eq_refl)) as H.
  destruct (loadData false fetch 0 0 constructor) as [returned s'].
  destruct H as [H1 [H2 [_ [_ [H3 H4]]]]].
  repeat split; auto. unfold isDataLoaded. now rewrite H3.
Defined.

(** A load that gets an accepted document stores the cache built from
    it. *)
Lemma loadData_stores (forceRefresh : bool) (fetch : value -> fetch_outcome)
    (now loaded : Z) (s : Service) (data : document) (c : Cache) :
  reloads forceRefresh now s ->
  delivers (fetch (requested_url s)) data ->
  processed_cache data loaded = inr c ->
  _cache (snd (loadData forceRefresh fetch now loaded s)) = c.
Proof.
  intros Hreload [status Hfetch] Hc.
  unfold reloads in Hreload.
  unfold loadData. rewrite Hreload.
  unfold bind, setState, getState, ret. cbn -[js_or processed_cache].
  match goal with
  | |- context [fetch ?u] => change (fetch u) with (fetch (requested_url s))
  end.
  rewrite Hfetch. cbn -[processed_cache]. unfold _processData.
  rewrite Hc. reflexivity.
Qed.

(** The age test of [_isCacheValid] on a cache stamped at time [t]. *)
Lemma isCacheValid_stamped (now t : Z) (s : Service) :
  lastUpdated (_cache s) = Some (DateAt t) ->
  _isCacheValid now s = (now - t <? 3600000)%Z.
Proof.
  intros H. unfold _isCacheValid. rewrite H.
  unfold num_sub, time_value, _cacheDuration, num_of_Z.
  cbn [num_neg num_add num_lt].
  change (60 * 60 * 1000)%Z with 3600000%Z.
  destruct (now - t <? 3600000)%Z eqn:E.
  - apply Qlt_bool_iff. rewrite Qred_correct.
    rewrite <- inject_Z_opp, <- inject_Z_plus, <- Zlt_Qlt.
    apply Z.ltb_lt in E. lia.
  - apply Qlt_bool_false_iff. rewrite Qred_correct.
    rewrite <- inject_Z_opp, <- inject_Z_plus, <- Zle_Qle.
    apply Z.ltb_ge in E. lia.
Qed.

(** X17.  What a load has stored answers the next calls.  After [loadData]
    has fetched a document with at least one entry and no [null] entry at
    time [loaded], every call [loadData(false)] made less than an hour after
    [loaded] returns [true] without requesting anything -- whatever the
    network would answer -- and leaves the service as it is; from one hour
    on, [loadData(false)] goes to the network again. *)
Theorem loadData_then_served_from_cache :
  forall (forceRefresh : bool) (fetch : value -> fetch_outcome)
         (now loaded : Z) (s : Service) (entries : list (option Raw.t)),
    reloads forceRefresh now s ->
    delivers (fetch (requested_url s)) (DocObject (PlayersArray entries)) ->
    entries <> [] ->
    Forall (fun entry => entry <> None) entries ->
    let s' := snd (loadData forceRefresh fetch now loaded s) in
    (forall (again loaded' : Z) (fetch' : value -> fetch_outcome),
       (again - loaded < 3600000)%Z ->
       loadData false fetch' again loaded' s' = (true, s'))
    /\ (forall again : Z,
          (3600000 <= again - loaded)%Z -> reloads false again s').
Proof.
  intros forceRefresh fetch now loaded s entries Hreload Hfetch Hne Hall s'.
  destruct (map_throwing_process_player entries 0) as [Hok _].
  destruct (Hok Hall) as [l [Hl Hlen]].
  assert (Hc : _cache s'
               = {| players := l;
                    alliances := unique_sorted Player.alliance "" l;
                    servers := unique_sorted Player.server "Unknown" l;
                    lastUpdated := Some (DateAt loaded) |}).
  { apply (loadData_stores forceRefresh fetch now loaded s
             (DocObject (PlayersArray entries)) _ Hreload Hfetch).
    unfold processed_cache. now rewrite Hl. }
  clearbody s'.
  assert (Hloaded : isDataLoaded s' = true).
  { unfold isDataLoaded. rewrite Hc. cbn [players]. rewrite Hlen.
    destruct entries; [congruence | reflexivity]. }
  assert (Hstamp : lastUpdated (_cache s') = Some (DateAt loaded))
    by now rewrite Hc.
  split.
  - intros again loaded' fetch' Hage. unfold loadData.
    rewrite Hloaded, (isCacheValid_stamped again loaded s' Hstamp).
    apply Z.ltb_lt in Hage. now rewrite Hage.
  - intros again Hage. unfold reloads.
    rewrite Hloaded, (isCacheValid_stamped again loaded s' Hstamp).
    apply Z.ltb_ge in Hage. now rewrite Hage.
Qed.

Lemma loadData_then_served_from_cache_witness :
  let fetch := fun _ : value =>
    Response true 200
      (BodyJson (DocObject (PlayersArray
         [entry (VNum (Fin 100)) (VNum (Fin 10))]))) in
  let s' := snd (loadData false fetch 0 1000 constructor) in
  loadData false (fun _ => Rejected TypeError) 3600999 3600999 s'
  = (true, s')
  /\ reloads false 3601000 s'.
Proof.
  intros fetch s'.
  destruct (loadData_then_served_from_cache false fetch 0 1000 constructor
              [entry (VNum (Fin 100)) (VNum (Fin 10))]) as [H1 H2].
  - reflexivity.
  - now exists 200%nat.
  - discriminate.
  - repeat constructor. discriminate.
  - split; [apply H1 | apply H2]; lia.
Defined.

(** X18.  [loadData] returns [true] exactly when it answers from the cache
    or the response is ok and its body parses.  Answering from the cache
    it writes nothing at all; going to the network it leaves [isLoading]
    switched off, whatever the outcome, and [dataLoaded] as it was unless
    the call returns [true]. *)
Theorem loadData_outcome :
  forall (forceRefresh : bool) (fetch : value -> fetch_outcome)
         (now loaded : Z) (s : Service),
    let (returned, s') := loadData forceRefresh fetch now loaded s in
    if negb forceRefresh && isDataLoaded s && _isCacheValid now s then
      returned = true /\ s' = s
    else
      StateManager.getState "isLoading" (_stateManager s') = VBool false
      /\ (returned = true
          <-> exists data : document, delivers (fetch (requested_url s)) data)
      /\ (returned = false ->
          StateManager.getState "dataLoaded" (_stateManager s')
          = StateManager.getState "dataLoaded" (_stateManager s)).
Proof.
  intros forceRefresh fetch now loaded s. unfold loadData.
  destruct (negb forceRefresh && isDataLoaded s && _isCacheValid now s);
    [now split|].
  unfold bind, setState, getState, handleError, ret.
  cbn -[js_or processed_cache].
  match goal with
  | |- context [fetch ?u] => change (fetch u) with (fetch (requested_url s))
  end.
  unfold delivers.
  destruct (fetch (requested_url s)) as [e|responseOk status b];
    cbn -[processed_cache].
  - split; [reflexivity|]. split; [|reflexivity].
    split; [discriminate|]. intros [data [st H]]. discriminate.
  - destruct responseOk; cbn -[processed_cache].
    + destruct b as [|data]; cbn -[processed_cache].
      * split; [reflexivity|]. split; [|reflexivity].
        split; [discriminate|]. intros [data [st H]]. discriminate.
      * unfold _processData.
        destruct (processed_cache data loaded); cbn;
          (split; [reflexivity|]); (split; [|discriminate]);
          (split; [|reflexivity]); intros _; exists data, status;
          reflexivity.
    + split; [reflexivity|]. split; [|reflexivity].
      split; [discriminate|]. intros [data [st H]]. discriminate.
Qed.

(* ================================================================== *)
(** * The data source and the stored copy of the cache *)
(* ================================================================== *)

Lemma js_or_same (v : value) : js_or v v = v.
Proof. unfold js_or. now destruct (truthy v). Qed.

(** X19.  After [setDataSource(url)] a reload requests [url] and nothing
    else -- also when [url] is falsy, as the empty string is: the outcome
    of [loadData(true)] depends on the network through the answer to [url]
    only.  The call leaves the cache and the reports alone, so the players
    of the former source keep being served: while the cache is valid,
    [loadData(false)] returns [true] without any request. *)
Theorem setDataSource_then_loadData :
  forall (url : value) (s : Service),
    let s' := snd (DataStore.setDataSource url s) in
    requested_url s' = url
    /\ _cache s' = _cache s
    /\ _errorHandler s' = _errorHandler s
    /\ (forall (fetch fetch' : value -> fetch_outcome) (now loaded : Z),
          fetch url = fetch' url ->
          loadData true fetch now loaded s'
          = loadData true fetch' now loaded s')
    /\ (forall (fetch : value -> fetch_outcome) (now loaded : Z),
          isDataLoaded s = true -> _isCacheValid now s = true ->
          loadData false fetch now loaded s' = (true, s')).
Proof.
  intros url s s'.
  assert (Hurl : requested_url s' = url).
  { unfold requested_url, s', DataStore.setDataSource, setState.
    cbn -[js_or]. apply js_or_same. }
  split; [exact Hurl|]. split; [reflexivity|]. split; [reflexivity|]. split.
  - intros fetch fetch' now loaded Hsame. unfold loadData.
    cbn [negb andb]. unfold bind, setState, getState, handleError, ret.
    cbn -[js_or processed_cache].
    repeat match goal with
           | |- context [?f (js_or ?a ?b)] =>
               change (js_or a b) with (requested_url s')
           end.
    rewrite Hurl, Hsame. reflexivity.
  - intros fetch now loaded Hloaded Hvalid. unfold loadData.
    change (isDataLoaded s') with (isDataLoaded s).
    change (_isCacheValid now s') with (_isCacheValid now s).
    now rewrite Hloaded, Hvalid.
Qed.

Lemma setDataSource_then_loadData_witness :
  let s := service_with [player "ann" (Fin 5) (Fin 1) (Fin 5)] in
  let s' := snd (DataStore.setDataSource (VStr "") s) in
  let fetch := fun url : value =>
    match url with
    | VStr "" => Response true 200 (BodyJson (DocObject PlayersFalsy))
    | _ => Rejected TypeError
    end in
  requested_url s' = VStr ""
  /\ loadData true fetch 0 0 s'
     = loadData true
         (fun _ => Response true 200 (BodyJson (DocObject PlayersFalsy)))
         0 0 s'.
Proof.
  intros s s' fetch.
  destruct (setDataSource_then_loadData (VStr "") s) as [H1 [_ [_ [H2 _]]]].
  split; [exact H1|]. apply H2. reflexivity.
Defined.

Lemma json_property_value (v : value) :
  json_value v = true -> json_property v = v.
Proof. now destruct v as [| |b|[|[]|q]|t]. Qed.

Lemma json_element_value (v : value) :
  json_value v = true -> json_element v = v.
Proof. now destruct v as [| |b|[|[]|q]|t]. Qed.

Lemma map_fixed (A : Type) (f : A -> A) (l : list A) :
  Forall (fun a => f a = a) l -> map f l = l.
Proof. induction 1 as [|a l Ha _ IH]; simpl; congruence. Qed.

(** A record JSON can express comes back as it was saved. *)
Lemma json_player_record (p : Player.t) :
  json_record p = true -> DataStore.json_player p = p.
Proof.
  unfold json_record. cbn [forallb]. rewrite !andb_true_iff.
  intros [Hid [Hname [Hall [Hser [Hsco [Hche [Hrat _]]]]]]].
  unfold DataStore.json_player.
  rewrite !json_property_value by assumption. now destruct p.
Qed.

(** What [initialize] restores from a saved copy. *)
Lemma initialize_restores (c : DataStore.StoredCache) :
  let restored :=
    DataStore.service
      (snd (DataStore.initialize (fresh_page (Some (Json c))))) in
  _cache restored
  = {| players := DataStore.or_empty (DataStore.stored_players c);
       alliances := DataStore.or_empty (DataStore.stored_alliances c);
       servers := DataStore.or_empty (DataStore.stored_servers c);
       lastUpdated := DataStore.stored_lastUpdated c |}
  /\ StateManager.getState "dataLoaded" (_stateManager restored)
     = (if isDataLoaded restored then VBool true else VUndefined)
  /\ _errorHandler restored = []
  /\ _dataSourceUrl restored = _dataSourceUrl constructor.
Proof.
  cbn [DataStore.initialize snd fresh_page DataStore._loadFromCache
       DataStore.localStorage DataStore.on_service DataStore.service].
  unfold isDataLoaded, bind. cbn [set_cache players snd fst].
  destruct (0 <? List.length
                   (DataStore.or_empty (DataStore.stored_players c)))%nat
    eqn:Hn;
    cbn [setState ret snd _cache _stateManager _errorHandler _dataSourceUrl
         players];
    rewrite Hn; repeat split.
Qed.

(** What [_processData] leaves in the storage when it has accepted. *)
Lemma processData_saves (data : document) (now : Z) (p : DataStore.Page)
    (c : Cache) :
  processed_cache data now = inr c ->
  DataStore._processData data now false p
  = (true,
     {| DataStore.service := snd (set_cache c (DataStore.service p));
        DataStore.localStorage :=
          Some (Json
            {| DataStore.stored_players :=
                 DataStore.ArrayOf (map DataStore.json_player (players c));
               DataStore.stored_alliances :=
                 DataStore.ArrayOf (map json_element (alliances c));
               DataStore.stored_servers :=
                 DataStore.ArrayOf (map json_element (servers c));
               DataStore.stored_lastUpdated := Some (DateAt now) |}) |})
  /\ lastUpdated c = Some (DateAt now).
Proof.
  intros E.
  assert (Hstamp : lastUpdated c = Some (DateAt now)).
  { unfold processed_cache in E. destruct data as [|field]; [discriminate|].
    destruct (match field with
              | PlayersFalsy => ok []
              | PlayersNotArray => throw TypeError
              | PlayersArray players => map_throwing process_player 0 players
              end); cbn in E; [discriminate|].
    now inversion E. }
  split; [|exact Hstamp].
  unfold DataStore._processData. rewrite E.
  unfold DataStore._saveToCache, DataStore.on_service.
  cbn [DataStore.service DataStore.localStorage set_cache snd _cache].
  now rewrite Hstamp.
Qed.

(** X20.  The copy [_processData] saves is what the next visit starts
    from.  When [_processData] has accepted a document at time [now] and
    the local storage took the copy, [initialize] on a freshly constructed
    service restores the cache as JSON writes it, stamped [now], and sets
    [dataLoaded] exactly when it restored at least one player.  As JSON
    writes it: every value of a record that is [NaN] or an infinite number
    -- the ratio of a record whose score is no number, a score beyond the
    range of the numbers -- comes back as [null].  The restored cache is
    the very cache that was saved when every value of every saved record is
    one JSON can express.  (A zero comes back without its sign, which the
    embedding does not record.) *)
Theorem saved_cache_restored :
  forall (data : document) (now : Z) (p : DataStore.Page),
    let (accepted, p') := DataStore._processData data now false p in
    let saved := _cache (DataStore.service p') in
    let restored :=
      DataStore.service
        (snd (DataStore.initialize
                (fresh_page (DataStore.localStorage p')))) in
    accepted = true ->
    _cache restored = json_cache saved
    /\ lastUpdated (_cache restored) = Some (DateAt now)
    /\ isDataLoaded restored = isDataLoaded (DataStore.service p')
    /\ StateManager.getState "dataLoaded" (_stateManager restored)
       = (if isDataLoaded restored then VBool true else VUndefined)
    /\ (forallb json_record (players saved) = true ->
        _cache restored = saved).
Proof.
  intros data now p.
  destruct (processed_cache data now) as [e|c] eqn:E.
  { unfold DataStore._processData. rewrite E. discriminate. }
  destruct (processData_saves data now p c E) as [Hsave Hstamp].
  rewrite Hsave. cbn [DataStore.service DataStore.localStorage].
  intros _.
  match goal with
  | |- context [DataStore.initialize (fresh_page (Some (Json ?i)))] =>
      destruct (initialize_restores i) as [Hc [Hflag _]];
      set (restored := DataStore.service
             (snd (DataStore.initialize
                     (fresh_page (Some (Json i)))))) in *
  end.
  cbn [DataStore.or_empty DataStore.stored_players DataStore.stored_alliances
       DataStore.stored_servers DataStore.stored_lastUpdated] in Hc.
  cbn [set_cache snd _cache].
  assert (Hjson : _cache restored = json_cache c).
  { rewrite Hc. unfold json_cache. now rewrite Hstamp. }
  split; [exact Hjson|]. split; [now rewrite Hc|].
  split.
  { unfold isDataLoaded. rewrite Hc. cbn [players _cache].
    now rewrite length_map. }
  split; [exact Hflag|].
  intros Hrecords. rewrite forallb_forall in Hrecords.
  assert (Hl : Forall (fun q => json_record q = true) (players c))
    by now apply Forall_forall.
  assert (Hfield : forall q : Player.t,
            json_record q = true ->
            json_value (Player.alliance q) = true
            /\ json_value (Player.server q) = true).
  { intros q. unfold json_record. cbn [forallb]. rewrite !andb_true_iff.
    tauto. }
  assert (Hlists : forall (field : Player.t -> value) (sentinel : string),
    Forall (fun q => json_value (field q) = true) (players c) ->
    map json_element (unique_sorted field sentinel (players c))
    = unique_sorted field sentinel (players c)).
  { intros field sentinel Hf. apply map_fixed. apply Forall_forall.
    intros a Ha.
    destruct (proj1 (unique_sorted_covers field sentinel (players c)) a Ha)
      as [q [Hq <-]].
    apply json_element_value. rewrite Forall_forall in Hf. now apply Hf. }
  assert (Hderived :
    alliances c = unique_sorted Player.alliance "" (players c)
    /\ servers c = unique_sorted Player.server "Unknown" (players c)).
  { unfold processed_cache in E. destruct data as [|field]; [discriminate|].
    destruct (match field with
              | PlayersFalsy => ok []
              | PlayersNotArray => throw TypeError
              | PlayersArray players => map_throwing process_player 0 players
              end); cbn in E; [discriminate|].
    inversion E. now split. }
  destruct Hderived as [Ha Hs].
  assert (Hplayers : map DataStore.json_player (players c) = players c).
  { apply map_fixed. eapply Forall_impl; [|exact Hl].
    intros q. apply json_player_record. }
  assert (Hall : map json_element (alliances c) = alliances c).
  { rewrite Ha. apply Hlists. eapply Forall_impl; [|exact Hl].
    intros q Hq. now apply Hfield. }
  assert (Hser : map json_element (servers c) = servers c).
  { rewrite Hs. apply Hlists. eapply Forall_impl; [|exact Hl].
    intros q Hq. now apply Hfield. }
  rewrite Hjson. unfold json_cache. rewrite Hplayers, Hall, Hser.
  now destruct c.
Qed.

Lemma saved_cache_restored_witness :
  let data :=
    DocObject (PlayersArray [ entry (VNum (Fin 100)) (VNum (Fin 10));
                              entry (VStr "n/a") (VNum (Fin 5)) ]) in
  let p' := snd (DataStore._processData data 1000 false (fresh_page None)) in
  let restored :=
    DataStore.service
      (snd (DataStore.initialize (fresh_page (DataStore.localStorage p')))) in
  map Player.ratio (players (_cache (DataStore.service p')))
  = [VNum (Fin 10); VNum NaN]
  /\ map Player.ratio (players (_cache restored)) = [VNum (Fin 10); VNull]
  /\ _cache restored = json_cache (_cache (DataStore.service p'))
  /\ isDataLoaded restored = true.
Proof.
  intros data p' restored.
  split; [reflexivity|]. split; [reflexivity|].
  destruct (saved_cache_restored data 1000 (fresh_page None) eq_refl)
    as [H1 [_ [H2 _]]].
  split; [exact H1 | exact H2].
Defined.

(** X21.  A stored copy spares the request while it is fresh, counted from
    the time it was saved.  When [initialize] finds a copy with at least
    one player, stamped [t], every call [loadData(false)] made less than an
    hour after [t] returns [true] without requesting anything; from one
    hour after [t] on, and whenever the copy carries no date or one that
    cannot be read, [loadData(false)] goes to the network although the
    players of the copy are in the cache. *)
Theorem restored_cache_spares_the_request :
  forall (c : DataStore.StoredCache) (l : list Player.t),
    DataStore.stored_players c = DataStore.ArrayOf l ->
    l <> [] ->
    let s :=
      DataStore.service
        (snd (DataStore.initialize (fresh_page (Some (Json c))))) in
    players (_cache s) = l
    /\ (forall t : Z,
          DataStore.stored_lastUpdated c = Some (DateAt t) ->
          (forall (again loaded : Z) (fetch : value -> fetch_outcome),
             (again - t < 3600000)%Z ->
             loadData false fetch again loaded s = (true, s))
          /\ (forall again : Z,
                (3600000 <= again - t)%Z -> reloads false again s))
    /\ (DataStore.stored_lastUpdated c = None
        \/ DataStore.stored_lastUpdated c = Some InvalidDate ->
        forall again : Z, reloads false again s).
Proof.
  intros c l Hl Hne s.
  destruct (initialize_restores c) as [Hc _]. fold s in Hc.
  rewrite Hl in Hc. cbn [DataStore.or_empty] in Hc.
  assert (Hloaded : isDataLoaded s = true).
  { unfold isDataLoaded. rewrite Hc. cbn [players].
    destruct l; [congruence | reflexivity]. }
  split; [now rewrite Hc|]. split.
  - intros t Ht.
    assert (Hstamp : lastUpdated (_cache s) = Some (DateAt t))
      by now rewrite Hc.
    split.
    + intros again loaded fetch Hage. unfold loadData.
      rewrite Hloaded, (isCacheValid_stamped again t s Hstamp).
      apply Z.ltb_lt in Hage. now rewrite Hage.
    + intros again Hage. unfold reloads.
      rewrite Hloaded, (isCacheValid_stamped again t s Hstamp).
      apply Z.ltb_ge in Hage. now rewrite Hage.
  - intros Hdate again. unfold reloads, _isCacheValid. rewrite Hc.
    cbn [lastUpdated].
    destruct Hdate as [-> | ->]; cbn; now rewrite andb_false_r.
Qed.

Lemma restored_cache_spares_the_request_witness :
  let c :=
    {| DataStore.stored_players :=
         DataStore.ArrayOf [player "ann" (Fin 5) (Fin 1) (Fin 5)];
       DataStore.stored_alliances := DataStore.ArrayOf [];
       DataStore.stored_servers := DataStore.ArrayFalsy;
       DataStore.stored_lastUpdated := Some (DateAt 1000) |} in
  let s :=
    DataStore.service
      (snd (DataStore.initialize (fresh_page (Some (Json c))))) in
  loadData false (fun _ => Rejected TypeError) 3600999 3600999 s = (true, s)
  /\ reloads false 3601000 s.
Proof.
  intros c s.
  destruct (restored_cache_spares_the_request c
              [player "ann" (Fin 5) (Fin 1) (Fin 5)] eq_refl)
    as [_ [H _]]; [discriminate|].
  destruct (H 1000%Z eq_refl) as [H1 H2].
  split; [apply H1 | apply H2]; lia.
Defined.

(** X22.  [clearCache] empties the cache, removes the stored copy and
    switches [dataLoaded] off, and touches nothing else: the reports, the
    data source and the other keys of the state store are as before.
    Afterwards no data counts as loaded, so every [loadData], forced or
    not and whatever the time, goes to the network; and a freshly
    constructed service that is initialized on the storage finds nothing
    to restore. *)
Theorem clearCache_forgets :
  forall p : DataStore.Page,
    let p' := DataStore.clearCache p in
    let s' := DataStore.service p' in
    _cache s' = _cache constructor
    /\ isDataLoaded s' = false
    /\ DataStore.localStorage p' = None
    /\ StateManager.getState "dataLoaded" (_stateManager s') = VBool false
    /\ (forall k : string,
          k <> "dataLoaded"%string ->
          StateManager.getState k (_stateManager s')
          = StateManager.getState k (_stateManager (DataStore.service p)))
    /\ _errorHandler s' = _errorHandler (DataStore.service p)
    /\ _dataSourceUrl s' = _dataSourceUrl (DataStore.service p)
    /\ (forall (forceRefresh : bool) (now : Z), reloads forceRefresh now s')
    /\ DataStore.initialize (fresh_page (DataStore.localStorage p'))
       = (true, fresh_page None).
Proof.
  intros p. cbn. repeat split.
  - intros k Hk. unfold StateManager.getState, StateManager.setState.
    destruct (String.eqb k "dataLoaded") eqn:E; [|reflexivity].
    apply String.eqb_eq in E. contradiction.
  - intros forceRefresh now. unfold reloads, isDataLoaded. cbn.
    now rewrite andb_false_r.
Qed.

(* ================================================================== *)
(** * The log of the error handler *)
(* ================================================================== *)

Section LogFacts.

Lemma firstn_app_firstn (A : Type) (a b : list A) :
  forall n m : nat,
    (n <= m)%nat -> firstn n (a ++ firstn m b) = firstn n (a ++ b).
Proof.
  induction a as [|x a IH]; intros n m Hnm; simpl.
  - rewrite firstn_firstn. now rewrite Nat.min_l.
  - destruct n as [|n]; [reflexivity|]. simpl. f_equal.
    apply IH. lia.
Qed.

Lemma log_displayError (errorObj : ErrorLog.ErrorObj) (h : ErrorLog.Handler) :
  ErrorLog._errorLog (ErrorLog._displayError errorObj h)
  = ErrorLog._errorLog h.
Proof.
  unfold ErrorLog._displayError.
  now destruct (negb (ErrorLog._uiService h)).
Qed.

Lemma log_reportError (errorObj : ErrorLog.ErrorObj) (h : ErrorLog.Handler) :
  ErrorLog._errorLog (ErrorLog._reportError errorObj h)
  = ErrorLog._errorLog h.
Proof.
  unfold ErrorLog._reportError.
  now destruct (negb (truthy (ErrorLog._reportingEnabled h))
                || negb (truthy (ErrorLog._reportingEndpoint h))).
Qed.

(** [_addToLog] keeps the first hundred of the entries, the new one in
    front. *)
Lemma log_addToLog (errorObj : ErrorLog.ErrorObj) (h : ErrorLog.Handler) :
  ErrorLog._errorLog (ErrorLog._addToLog errorObj h)
  = firstn 100 (errorObj :: ErrorLog._errorLog h).
Proof.
  unfold ErrorLog._addToLog, ErrorLog.set_log, slice0,
    ErrorLog._maxErrorLogSize.
  cbn [ErrorLog._errorLog].
  destruct (100 <? List.length (errorObj :: ErrorLog._errorLog h))%nat eqn:E;
    [reflexivity|].
  apply Nat.ltb_ge in E. symmetry. now apply firstn_all2.
Qed.

Lemma log_handle (c : Call) (h : ErrorLog.Handler) :
  ErrorLog._errorLog (handle c h)
  = firstn 100 (entry_of c :: ErrorLog._errorLog h).
Proof.
  unfold handle, ErrorLog.handleError. cbn [snd].
  fold (entry_of c).
  set (h1 := ErrorLog._addToLog (entry_of c) h).
  set (h2 := if call_show c then ErrorLog._displayError (entry_of c) h1
             else h1).
  assert (H2 : ErrorLog._errorLog h2 = ErrorLog._errorLog h1).
  { unfold h2. destruct (call_show c); [apply log_displayError|reflexivity]. }
  destruct (truthy (ErrorLog._reportingEnabled h2));
    rewrite ?log_reportError, H2; apply log_addToLog.
Qed.

Lemma log_handle_all (calls : list Call) :
  forall h : ErrorLog.Handler,
    (List.length (ErrorLog._errorLog h) <= 100)%nat ->
    ErrorLog._errorLog (handle_all calls h)
    = firstn 100 (rev (map entry_of calls) ++ ErrorLog._errorLog h).
Proof.
  induction calls as [|c calls IH]; intros h Hlen.
  - cbn [handle_all fold_left map rev app]. symmetry. now apply firstn_all2.
  - change (handle_all (c :: calls) h) with (handle_all calls (handle c h)).
    cbn [map rev]. rewrite IH.
    + rewrite log_handle, <- app_assoc. cbn [app].
      now apply firstn_app_firstn.
    + rewrite log_handle. apply firstn_le_length.
Qed.
End LogFacts.

(** X23.  The log of the error handler holds the hundred most recent
    errors, newest first.  After any sequence of calls of [handleError] on
    a handler whose log has at most a hundred entries -- the new handler's
    is empty -- the log is the first hundred of: the entries of the calls,
    the last call first, followed by the former log.  It never has more
    than a hundred entries, whether the errors are shown or reported or
    not, and each call returns the id of the entry it has put in front. *)
Theorem errorLog_keeps_newest_hundred :
  forall (calls : list Call) (h : ErrorLog.Handler),
    (List.length (ErrorLog._errorLog h) <= 100)%nat ->
    ErrorLog._errorLog (handle_all calls h)
    = firstn 100 (rev (map entry_of calls) ++ ErrorLog._errorLog h)
    /\ (List.length (ErrorLog._errorLog (handle_all calls h)) <= 100)%nat
    /\ forall c : Call,
         let (returned, h') :=
           ErrorLog.handleError (call_error c) (call_source c) (call_show c)
             (call_level c) (call_moment c) (handle_all calls h) in
         exists older : list ErrorLog.ErrorObj,
           ErrorLog._errorLog h' = entry_of c :: older
           /\ returned = ErrorLog.id (entry_of c)
           /\ returned = ErrorLog.generated_id (call_moment c).
Proof.
  intros calls h Hlen.
  pose proof (log_handle_all calls h Hlen) as Hlog.
  split; [exact Hlog|]. split.
  - rewrite Hlog. apply firstn_le_length.
  - intros c. pose proof (log_handle c (handle_all calls h)) as Hc.
    unfold handle in Hc.
    destruct (ErrorLog.handleError _ _ _ _ _ _) as [returned h'] eqn:E.
    cbn [snd] in Hc.
    exists (firstn 99 (ErrorLog._errorLog (handle_all calls h))).
    split; [exact Hc|].
    unfold ErrorLog.handleError in E. inversion E. split; reflexivity.
Qed.

Lemma errorLog_keeps_newest_hundred_witness :
  let h := ErrorLog.constructor false None None in
  let calls := [call_at 1 "a" false; call_at 2 "b" true] in
  map ErrorLog.message (ErrorLog._errorLog (handle_all calls h))
  = ["b"; "a"]%string
  /\ (List.length (ErrorLog._errorLog (handle_all calls h)) <= 100)%nat.
Proof.
  intros h calls. split; [reflexivity|].
  apply (errorLog_keeps_newest_hundred calls h). cbn. lia.
Defined.

Lemma truncate_Z (z : Z) : ErrorLog.truncate (inject_Z z) = z.
Proof.
  unfold ErrorLog.truncate.
  destruct (Qlt_bool (inject_Z z) 0); [apply Qceiling_Z | apply Qfloor_Z].
Qed.

Lemma slice_to_prefix (A : Type) (n : number) (l : list A) :
  exists k : nat, ErrorLog.slice_to n l = firstn k l.
Proof.
  destruct n as [|[]|q]; cbn.
  - now exists 0%nat.
  - now exists 0%nat.
  - exists (List.length l). now rewrite firstn_all.
  - destruct (ErrorLog.truncate q <? 0)%Z; eauto.
Qed.

(** X24.  [getErrorLog] returns the newest entries of the log, in the
    order of the log: always a prefix of it.  Without a limit, and for any
    falsy limit -- [null], and also [0] -- it returns the whole log; for a
    positive whole number [n] the newest [n] entries, or all when there are
    fewer; for a negative one, [-k], all but the [k] oldest. *)
Theorem getErrorLog_limit :
  forall h : ErrorLog.Handler,
    let log := ErrorLog._errorLog h in
    (forall limit : value,
       truthy limit = false -> ErrorLog.getErrorLog limit h = log)
    /\ ErrorLog.getErrorLog (VNum (Fin 0)) h = log
    /\ (forall n : nat,
          (0 < n)%nat ->
          ErrorLog.getErrorLog (VNum (num_of_nat n)) h = firstn n log)
    /\ (forall k : nat,
          (0 < k)%nat ->
          ErrorLog.getErrorLog (VNum (num_of_Z (- Z.of_nat k))) h
          = firstn (List.length log - k) log)
    /\ (forall limit : value,
          exists n : nat, ErrorLog.getErrorLog limit h = firstn n log).
Proof.
  intros h log.
  assert (nonzero : forall z : Z,
    z <> 0%Z -> truthy (VNum (num_of_Z z)) = true).
  { intros z Hz. cbn. apply negb_true_iff.
    destruct (Qeq_bool (inject_Z z) 0) eqn:E; [|reflexivity].
    apply Qeq_bool_iff in E. unfold Qeq, inject_Z in E.
    cbn [Qnum Qden] in E. lia. }
  split; [|split; [|split; [|split]]].
  - intros limit H. unfold ErrorLog.getErrorLog. now rewrite H.
  - reflexivity.
  - intros n Hn. unfold ErrorLog.getErrorLog, num_of_nat.
    rewrite nonzero by lia.
    cbn [to_number]. unfold num_of_Z, ErrorLog.slice_to.
    rewrite truncate_Z.
    replace (Z.of_nat n <? 0)%Z with false by (symmetry; apply Z.ltb_ge; lia).
    now rewrite Nat2Z.id.
  - intros k Hk. unfold ErrorLog.getErrorLog.
    rewrite nonzero by lia.
    cbn [to_number]. unfold num_of_Z, ErrorLog.slice_to.
    rewrite truncate_Z.
    replace (- Z.of_nat k <? 0)%Z with true by (symmetry; apply Z.ltb_lt; lia).
    f_equal. fold log. lia.
  - intros limit. unfold ErrorLog.getErrorLog.
    destruct (truthy limit); [apply slice_to_prefix|].
    exists (List.length log). now rewrite firstn_all.
Qed.

Lemma getErrorLog_limit_witness :
  let h := handle_all [call_at 1 "a" false; call_at 2 "b" false;
                       call_at 3 "c" false]
                      (ErrorLog.constructor false None None) in
  map ErrorLog.message (ErrorLog.getErrorLog (VNum (Fin 2)) h)
  = ["c"; "b"]%string
  /\ ErrorLog.getErrorLog (VNum (num_of_nat 2)) h
     = firstn 2 (ErrorLog._errorLog h)
  /\ ErrorLog.getErrorLog (VNum (num_of_Z (- Z.of_nat 1))) h
     = firstn (List.length (ErrorLog._errorLog h) - 1) (ErrorLog._errorLog h).
Proof.
  intros h. split; [reflexivity|].
  destruct (getErrorLog_limit h) as [_ [_ [H1 [H2 _]]]].
  split; [apply H1 | apply H2]; lia.
Defined.

Lemma posted_displayError (errorObj : ErrorLog.ErrorObj)
    (h : ErrorLog.Handler) :
  ErrorLog.posted (ErrorLog._displayError errorObj h) = ErrorLog.posted h
  /\ ErrorLog._reportingEnabled (ErrorLog._displayError errorObj h)
     = ErrorLog._reportingEnabled h
  /\ ErrorLog._reportingEndpoint (ErrorLog._displayError errorObj h)
     = ErrorLog._reportingEndpoint h.
Proof.
  unfold ErrorLog._displayError.
  now destruct (negb (ErrorLog._uiService h)).
Qed.

(** What a call of [handleError] posts. *)
Lemma posted_handle (c : Call) (h : ErrorLog.Handler) :
  ErrorLog.posted (handle c h)
  = if truthy (ErrorLog._reportingEnabled h)
       && truthy (ErrorLog._reportingEndpoint h)
    then (ErrorLog._reportingEndpoint h, entry_of c) :: ErrorLog.posted h
    else ErrorLog.posted h.
Proof.
  unfold handle, ErrorLog.handleError. cbn [snd]. fold (entry_of c).
  set (h1 := ErrorLog._addToLog (entry_of c) h).
  set (h2 := if call_show c then ErrorLog._displayError (entry_of c) h1
             else h1).
  assert (H2 : ErrorLog.posted h2 = ErrorLog.posted h
               /\ ErrorLog._reportingEnabled h2 = ErrorLog._reportingEnabled h
               /\ ErrorLog._reportingEndpoint h2
                  = ErrorLog._reportingEndpoint h).
  { unfold h2. destruct (call_show c).
    - destruct (posted_displayError (entry_of c) h1) as [-> [-> ->]].
      repeat split.
    - repeat split. }
  destruct H2 as [Hp [He Hu]]. rewrite He.
  destruct (truthy (ErrorLog._reportingEnabled h)) eqn:Te; cbn [andb];
    [|exact Hp].
  unfold ErrorLog._reportError. rewrite He, Hu, Te. cbn [negb orb].
  destruct (truthy (ErrorLog._reportingEndpoint h)); cbn [negb];
    [|exact Hp].
  unfold ErrorLog.post. cbn [ErrorLog.posted]. now rewrite Hp.
Qed.

(** X25.  Errors are reported exactly while reporting is enabled with a
    truthy endpoint, and the setting outlives the page.  After
    [enableReporting(endpoint)] every call of [handleError] posts its entry
    to [endpoint], once -- unless [endpoint] is falsy, as the empty string
    is: then reporting counts as enabled and nothing is ever posted.  After
    [disableReporting()] nothing is posted.  When the storage has taken the
    settings, a new handler that is initialized on it has reporting
    enabled with the same endpoint, or disabled with the empty endpoint,
    accordingly. *)
Theorem reporting_follows_settings :
  forall (endpoint : value) (full : bool) (h : ErrorLog.Handler) (c : Call),
    let enabled := ErrorLog.enableReporting endpoint full h in
    let disabled := ErrorLog.disableReporting full h in
    let next := fun previous : ErrorLog.Handler =>
      snd (ErrorLog.initialize
             (ErrorLog.constructor (ErrorLog._uiService h)
                (ErrorLog._languageService h)
                (ErrorLog.settings previous))) in
    ErrorLog.posted (handle c enabled)
    = (if truthy endpoint
       then (endpoint, entry_of c) :: ErrorLog.posted h
       else ErrorLog.posted h)
    /\ ErrorLog.posted (handle c disabled) = ErrorLog.posted h
    /\ (full = false ->
        json_value endpoint = true ->
        ErrorLog._reportingEnabled (next enabled) = VBool true
        /\ ErrorLog._reportingEndpoint (next enabled)
           = js_or endpoint (VStr "")
        /\ ErrorLog.posted (handle c (next enabled))
           = (if truthy endpoint then [(endpoint, entry_of c)] else [])
        /\ ErrorLog._reportingEnabled (next disabled) = VBool false
        /\ ErrorLog._reportingEndpoint (next disabled) = VStr ""
        /\ ErrorLog.posted (handle c (next disabled)) = []).
Proof.
  intros endpoint full h c enabled disabled next.
  split; [|split].
  - rewrite posted_handle. unfold enabled, ErrorLog.enableReporting,
      ErrorLog._saveSettings.
    destruct full; cbn; reflexivity.
  - rewrite posted_handle. unfold disabled, ErrorLog.disableReporting,
      ErrorLog._saveSettings.
    destruct full; cbn; reflexivity.
  - intros -> Hjson.
    assert (He : ErrorLog._reportingEnabled (next enabled) = VBool true)
      by reflexivity.
    assert (Hu : ErrorLog._reportingEndpoint (next enabled)
                 = js_or endpoint (VStr "")).
    { unfold next, enabled. cbn. now rewrite (json_property_value _ Hjson). }
    split; [exact He|]. split; [exact Hu|]. split.
    + rewrite posted_handle, He, Hu. cbn [truthy andb].
      unfold js_or. destruct (truthy endpoint) eqn:T; [now rewrite T|].
      reflexivity.
    + split; [reflexivity|]. split; [reflexivity|].
      rewrite posted_handle. reflexivity.
Qed.

Lemma reporting_follows_settings_witness :
  let h := ErrorLog.constructor true None None in
  let endpoint := VStr "https://errors.example/report" in
  let c := call_at 5 "boom" true in
  let next :=
    snd (ErrorLog.initialize
           (ErrorLog.constructor true None
              (ErrorLog.settings (ErrorLog.enableReporting endpoint false h))))
  in
  ErrorLog.posted (handle c (ErrorLog.enableReporting endpoint false h))
  = [(endpoint, entry_of c)]
  /\ ErrorLog.posted (handle c next) = [(endpoint, entry_of c)].
Proof.
  intros h endpoint c next.
  destruct (reporting_follows_settings endpoint false h c)
    as [H1 [_ H2]].
  split; [exact H1|].
  destruct (H2 eq_refl eq_refl) as [_ [_ [H3 _]]]. exact H3.
Defined.

Lemma shown_reportError (errorObj : ErrorLog.ErrorObj) (h : ErrorLog.Handler) :
  ErrorLog.shown (ErrorLog._reportError errorObj h) = ErrorLog.shown h.
Proof.
  unfold ErrorLog._reportError.
  now destruct (negb (truthy (ErrorLog._reportingEnabled h))
                || negb (truthy (ErrorLog._reportingEndpoint h))).
Qed.

(** X26.  [handleError] notifies the user at most once, and only when it
    is asked to and a UI service was given: with [showToUser] false, as the
    queries of the data service pass it, nothing is shown.  The type of the
    notification is the level for the levels warning and info, and error
    for every other level.  Its text is the message of the error as it is
    when no language service was given, and also when the language service
    returns both keys it is asked for unchanged, as [translate] does for a
    key it does not know. *)
Theorem handleError_notifies :
  forall (c : Call) (h : ErrorLog.Handler),
    let message := ErrorLog.message (entry_of c) in
    let type :=
      (if String.eqb (call_level c) "warning" then "warning"
       else if String.eqb (call_level c) "info" then "info"
       else "error")%string in
    (call_show c && ErrorLog._uiService h = false ->
     ErrorLog.shown (handle c h) = ErrorLog.shown h)
    /\ (call_show c && ErrorLog._uiService h = true ->
        exists text : string,
          ErrorLog.shown (handle c h) = (text, type) :: ErrorLog.shown h
          /\ (ErrorLog._languageService h = None -> text = message)
          /\ (forall translate : string -> string,
                ErrorLog._languageService h = Some translate ->
                let key :=
                  ("error." ++ ErrorLog.key_chars (toLowerCase message))%string
                in
                let genericKey := ("error." ++ call_level c)%string in
                translate key = key -> translate genericKey = genericKey ->
                text = message)).
Proof.
  intros c h message type.
  assert (Hshown : ErrorLog.shown (handle c h)
    = ErrorLog.shown
        (if call_show c
         then ErrorLog._displayError (entry_of c)
                (ErrorLog._addToLog (entry_of c) h)
         else ErrorLog._addToLog (entry_of c) h)).
  { unfold handle, ErrorLog.handleError. cbn [snd]. fold (entry_of c).
    match goal with
    | |- context [if truthy ?e then _ else _] => destruct (truthy e)
    end; [apply shown_reportError | reflexivity]. }
  rewrite Hshown. split.
  - intros H. destruct (call_show c); [|reflexivity].
    cbn [andb] in H. unfold ErrorLog._displayError.
    cbn [ErrorLog._addToLog ErrorLog.set_log ErrorLog._uiService].
    now rewrite H.
  - intros H. apply andb_true_iff in H. destruct H as [Hs Hu]. rewrite Hs.
    unfold ErrorLog._displayError.
    cbn [ErrorLog._addToLog ErrorLog.set_log ErrorLog._uiService
         ErrorLog._languageService].
    rewrite Hu. cbn [negb].
    eexists. split; [reflexivity|]. split.
    + intros Hn. now rewrite Hn.
    + intros translate Ht. cbv zeta. intros Hkey Hgeneric. rewrite Ht.
      change (ErrorLog.level (entry_of c)) with (call_level c).
      unfold message in *.
      rewrite Hkey, Hgeneric, !String.eqb_refl. reflexivity.
Qed.

Lemma handleError_notifies_witness :
  let h := ErrorLog.constructor true (Some (fun key => key)) None in
  ErrorLog.shown (handle (call_at 1 "Disk full" true) h)
  = [("Disk full", "error")]%string
  /\ ErrorLog.shown (handle (call_at 1 "Disk full" false) h)
     = ErrorLog.shown h.
Proof.
  intros h. split; [reflexivity|].
  apply (proj1 (handleError_notifies (call_at 1 "Disk full" false) h)).
  reflexivity.
Defined.

(* ================================================================== *)
(** * The comparison list of the player controller *)
(* ================================================================== *)

Section ComparisonFacts.

Lemma strict_equals_sym (a b : value) :
  strict_equals a b = strict_equals b a.
Proof.
  destruct a as [| |x|[|[]|x]|x], b as [| |y|[|[]|y]|y]; simpl;
    try reflexivity.
  - now destruct x, y.
  - destruct (Qeq_bool x y) eqn:E, (Qeq_bool y x) eqn:E'; try reflexivity.
    + apply Qeq_bool_iff in E. symmetry in E. apply Qeq_bool_iff in E.
      congruence.
    + apply Qeq_bool_iff in E'. symmetry in E'. apply Qeq_bool_iff in E'.
      congruence.
  - apply String.eqb_sym.
Qed.

Lemma strict_equals_trans (a b c : value) :
  strict_equals a b = true -> strict_equals b c = true ->
  strict_equals a c = true.
Proof.
  destruct a as [| |x|[|[]|x]|x], b as [| |y|[|[]|y]|y]; simpl;
    try discriminate; auto.
  - intros H. apply Bool.eqb_prop in H. now subst.
  - destruct c as [| |z|[|[]|z]|z]; simpl; try discriminate.
    apply Qeq_bool_trans.
  - intros H. apply String.eqb_eq in H. now subst.
Qed.

(** A value strictly equal to another is strictly equal to itself. *)
Lemma strict_equals_self (a b : value) :
  strict_equals a b = true -> strict_equals a a = true.
Proof.
  intros H. eapply strict_equals_trans; [exact H|].
  now rewrite strict_equals_sym.
Qed.

Lemma find_passes (f : Player.t -> bool) (l : list Player.t) (p : Player.t) :
  find f l = Some p -> In p l /\ f p = true.
Proof. apply find_some. Qed.

(** What [getPlayerDetails] finds has the id asked for. *)
Lemma getPlayerDetails_found (playerId : value) (s : Service) (p : Player.t) :
  fst (getPlayerDetails playerId s) = Ref p ->
  In p (players (_cache s)) /\ strict_equals (Player.id p) playerId = true.
Proof.
  unfold getPlayerDetails, array_find. cbn [fst].
  destruct (find _ (players (_cache s))) as [q|] eqn:E; cbn; [|discriminate].
  intros H. inversion H; subst q. now apply find_some in E.
Qed.

Lemma getPlayerDetails_finds (playerId : value) (s : Service) :
  (exists p : Player.t, fst (getPlayerDetails playerId s) = Ref p)
  <-> exists p : Player.t,
        In p (players (_cache s))
        /\ strict_equals (Player.id p) playerId = true.
Proof.
  split.
  - intros [p H]. exists p. now apply getPlayerDetails_found.
  - intros [p [Hin Hid]]. unfold getPlayerDetails, array_find. cbn [fst].
    destruct (find (fun player => strict_equals (Player.id player) playerId)
                   (players (_cache s))) as [q|] eqn:E; cbn; [eauto|].
    apply (find_none _ _ E) in Hin. cbv beta in Hin. congruence.
Qed.

Lemma distinct_ids_add (l : list Player.t) (p : Player.t) (playerId : value) :
  distinct_ids l ->
  strict_equals (Player.id p) playerId = true ->
  existsb (fun q => strict_equals (Player.id q) playerId) l = false ->
  distinct_ids (l ++ [p]).
Proof.
  intros [Hpairs Hself] Hp Hnone.
  assert (Hother : Forall (fun q => strict_equals (Player.id q) (Player.id p)
                                    = false) l).
  { apply Forall_forall. intros q Hq.
    destruct (strict_equals (Player.id q) (Player.id p)) eqn:E;
      [|reflexivity].
    assert (Hq' : strict_equals (Player.id q) playerId = true)
      by (eapply strict_equals_trans; eassumption).
    assert (X : existsb (fun q => strict_equals (Player.id q) playerId) l
                = true)
      by (apply existsb_exists; eauto).
    congruence. }
  split.
  - clear Hself Hnone. induction Hpairs as [|q l Hq _ IH]; simpl.
    + repeat constructor.
    + inversion Hother; subst. constructor; [|now apply IH].
      apply Forall_app. split; [exact Hq|]. now repeat constructor.
  - apply Forall_app. split; [exact Hself|]. repeat constructor.
    eapply strict_equals_self. exact Hp.
Qed.

Lemma distinct_ids_filter (l : list Player.t) (P : Player.t -> bool) :
  distinct_ids l -> distinct_ids (filter P l).
Proof.
  intros [Hpairs Hself]. split.
  - now apply ForallOrdPairs_filter.
  - now apply Forall_filter.
Qed.

(** Taking a player of a list with distinct ids out by its id takes out
    exactly that player. *)
Lemma distinct_ids_remove (l : list Player.t) (p : Player.t) :
  distinct_ids l -> In p l ->
  S (List.length
       (filter (fun q => negb (strict_equals (Player.id q) (Player.id p))) l))
  = List.length l.
Proof.
  intros [Hpairs Hself]. induction Hpairs as [|q l Hq _ IH]; intros Hin;
    [destruct Hin|].
  inversion Hself as [|? ? Hqq Hl]; subst. simpl.
  destruct Hin as [->|Hin].
  - rewrite Hqq. cbn [negb]. f_equal.
    rewrite <- (filter_true l) at 2. f_equal. apply filter_ext_in.
    intros r Hr. rewrite Forall_forall in Hq.
    rewrite strict_equals_sym. now rewrite (Hq r Hr).
  - rewrite Forall_forall in Hq. rewrite (Hq p Hin). cbn [negb List.length].
    f_equal. now apply IH.
Qed.
End ComparisonFacts.

Lemma update_badge_shows (c : PlayerController.Controller) :
  badge_shows (PlayerController.update_badge c)
  /\ PlayerController._comparisonData (PlayerController.update_badge c)
     = PlayerController._comparisonData c
  /\ PlayerController.notifications (PlayerController.update_badge c)
     = PlayerController.notifications c
  /\ PlayerController._dataService (PlayerController.update_badge c)
     = PlayerController._dataService c.
Proof.
  unfold badge_shows, PlayerController.update_badge.
  destruct (PlayerController.badge c) eqn:E; cbn; rewrite ?E; repeat split.
Qed.

(** Each of the methods, and a change of the cache behind the controller,
    keeps the ids of the list distinct and the badge right. *)
Lemma perform_tidy (a : action) (c : PlayerController.Controller) :
  distinct_ids (PlayerController._comparisonData c) -> badge_shows c ->
  distinct_ids (PlayerController._comparisonData (perform a c))
  /\ badge_shows (perform a c).
Proof.
  intros Hd Hb. destruct a as [playerId|playerId shown| |s].
  - cbn [perform]. unfold PlayerController.addToComparison.
    destruct (fst (getPlayerDetails playerId
                     (PlayerController._dataService c))) as [| |p] eqn:E;
      cbn [snd]; [now split | now split |].
    destruct (existsb _ (PlayerController._comparisonData c)) eqn:X;
      cbn [snd]; [now split|].
    match goal with
    | |- context [PlayerController.update_badge ?c'] =>
        destruct (update_badge_shows c') as [Hb' [Hl' _]]
    end.
    split; [|exact Hb']. rewrite Hl'.
    cbn [PlayerController._comparisonData PlayerController.showNotification
         PlayerController.set_comparison].
    apply getPlayerDetails_found in E. destruct E as [_ Hid].
    eapply distinct_ids_add; eassumption.
  - cbn [perform PlayerController.removeFromComparison snd].
    match goal with
    | |- context [PlayerController.update_badge ?c'] =>
        destruct (update_badge_shows c') as [Hb' [Hl' _]]
    end.
    split; [|exact Hb']. rewrite Hl'.
    cbn [PlayerController._comparisonData PlayerController.set_comparison].
    now apply distinct_ids_filter.
  - cbn [perform]. unfold PlayerController.clearComparison, badge_shows.
    cbn [PlayerController.set_comparison PlayerController.badge
         PlayerController._comparisonData].
    destruct (PlayerController.badge c) eqn:E; cbn; rewrite ?E;
      repeat split; constructor.
  - cbn [perform PlayerController._comparisonData]. split; [exact Hd|].
    exact Hb.
Qed.

(** X27.  The comparison list never holds a player twice.  Through any
    sequence of [addToComparison], [removeFromComparison] and
    [clearComparison], with the cache of the data service changing in
    between at will, no two players of the list have strictly equal ids,
    and the badge, when the document has one, shows the number of players
    compared and is hidden exactly when there is none -- provided this is
    so at the start, as it is for a new controller. *)
Theorem comparison_stays_tidy :
  forall (actions : list action) (c : PlayerController.Controller),
    distinct_ids (PlayerController._comparisonData c) ->
    badge_shows c ->
    distinct_ids (PlayerController._comparisonData (perform_all actions c))
    /\ badge_shows (perform_all actions c).
Proof.
  induction actions as [|a actions IH]; intros c Hd Hb; [now split|].
  change (perform_all (a :: actions) c)
    with (perform_all actions (perform a c)).
  destruct (perform_tidy a c Hd Hb) as [Hd' Hb']. now apply IH.
Qed.

Lemma comparison_stays_tidy_witness :
  let s := service_with [ player "ann" (Fin 5) (Fin 1) (Fin 5);
                          player "bob" (Fin 50) (Fin 2) (Fin 25) ] in
  let c :=
    PlayerController.constructor s
      (Some {| PlayerController.textContent := "0";
               PlayerController.display := "none" |}) in
  let c' := perform_all [ Add (VStr "ann"); Add (VStr "bob");
                          Add (VStr "ann"); Remove (VStr "bob") false;
                          Add (VStr "cyd") ] c in
  map Player.name (PlayerController._comparisonData c') = [VStr "ann"]
  /\ PlayerController.badge c'
     = Some {| PlayerController.textContent := "1";
               PlayerController.display := "block" |}
  /\ distinct_ids (PlayerController._comparisonData c')
  /\ badge_shows c'.
Proof.
  intros s c c'. split; [reflexivity|]. split; [reflexivity|].
  apply (comparison_stays_tidy _ c).
  - split; constructor.
  - split; reflexivity.
Defined.

(** The three ways [addToComparison] can go. *)
Lemma addToComparison_cases (playerId : value)
    (c : PlayerController.Controller) :
  let outcome := PlayerController.addToComparison playerId c in
  match fst (getPlayerDetails playerId (PlayerController._dataService c)) with
  | Ref p =>
      if existsb (fun q => strict_equals (Player.id q) playerId)
                 (PlayerController._comparisonData c)
      then outcome = (false, c)
      else fst outcome = true
           /\ PlayerController._comparisonData (snd outcome)
              = PlayerController._comparisonData c ++ [p]
           /\ PlayerController._dataService (snd outcome)
              = PlayerController._dataService c
           /\ PlayerController.notifications (snd outcome)
              = ("Added " ++ to_string (Player.name p) ++ " to comparison",
                 "success")%string :: PlayerController.notifications c
  | RefNull | RefUndefined =>
      fst outcome = false
      /\ PlayerController._comparisonData (snd outcome)
         = PlayerController._comparisonData c
      /\ PlayerController.notifications (snd outcome)
         = ("Failed to add player to comparison: Player not found: "
            ++ to_string playerId, "error")%string
           :: PlayerController.notifications c
  end.
Proof.
  cbv zeta. unfold PlayerController.addToComparison.
  destruct (fst (getPlayerDetails playerId
                   (PlayerController._dataService c))) as [| |p];
    [repeat split | repeat split |].
  destruct (existsb _ (PlayerController._comparisonData c)); [reflexivity|].
  cbn [fst snd].
  match goal with
  | |- context [PlayerController.update_badge ?c'] =>
      destruct (update_badge_shows c') as [_ [Hl' [Hn' Hs']]];
      rewrite Hl', Hn', Hs'
  end.
  repeat split.
Qed.

(** [addToComparison] returns [true] exactly when the cache has a player
    with the id and the list has none. *)
Lemma addToComparison_returns (playerId : value)
    (c : PlayerController.Controller) :
  fst (PlayerController.addToComparison playerId c) = true
  <-> (exists p : Player.t,
         In p (players (_cache (PlayerController._dataService c)))
         /\ strict_equals (Player.id p) playerId = true)
      /\ ~ (exists q : Player.t,
              In q (PlayerController._comparisonData c)
              /\ strict_equals (Player.id q) playerId = true).
Proof.
  pose proof (addToComparison_cases playerId c) as H. cbv zeta in H.
  pose proof (getPlayerDetails_finds playerId
                (PlayerController._dataService c)) as Hfinds.
  rewrite <- Hfinds.
  rewrite <- (existsb_exists
                (fun q => strict_equals (Player.id q) playerId)
                (PlayerController._comparisonData c)).
  destruct (fst (getPlayerDetails playerId
                   (PlayerController._dataService c))) as [| |p].
  - destruct H as [H _]. rewrite H. split; [discriminate|].
    intros [[p Hp] _]. discriminate.
  - destruct H as [H _]. rewrite H. split; [discriminate|].
    intros [[p Hp] _]. discriminate.
  - destruct (existsb _ (PlayerController._comparisonData c)).
    + rewrite H. cbn [fst]. split; [discriminate|]. intros [_ Hn].
      now contradiction Hn.
    + destruct H as [H _]. rewrite H. split; [|reflexivity].
      intros _. split; [eauto | discriminate].
Qed.

(** X28.  [addToComparison(id)] returns [true] exactly when the cache has
    a player with that id and the list has none.  Then the player
    [getPlayerDetails] finds is added at the end of the list and the user
    is told so; otherwise the list is as it was, and the user is told of a
    failure only when the cache has no such player -- when the player is
    compared already nothing happens at all. *)
Theorem addToComparison_adds_once :
  forall (playerId : value) (c : PlayerController.Controller),
    let (added, c') := PlayerController.addToComparison playerId c in
    let list := PlayerController._comparisonData c in
    let cached := players (_cache (PlayerController._dataService c)) in
    let known := exists p : Player.t,
      In p cached /\ strict_equals (Player.id p) playerId = true in
    let compared := exists q : Player.t,
      In q list /\ strict_equals (Player.id q) playerId = true in
    (added = true <-> known /\ ~ compared)
    /\ (added = true ->
        exists p : Player.t,
          fst (getPlayerDetails playerId (PlayerController._dataService c))
          = Ref p
          /\ PlayerController._comparisonData c' = list ++ [p]
          /\ PlayerController.notifications c'
             = ("Added " ++ to_string (Player.name p) ++ " to comparison",
                "success")%string :: PlayerController.notifications c)
    /\ (added = false -> PlayerController._comparisonData c' = list)
    /\ (added = false -> known -> c' = c)
    /\ (~ known ->
        PlayerController.notifications c'
        = ("Failed to add player to comparison: Player not found: "
           ++ to_string playerId, "error")%string
          :: PlayerController.notifications c).
Proof.
  intros playerId c.
  pose proof (addToComparison_returns playerId c) as Hret.
  pose proof (addToComparison_cases playerId c) as H. cbv zeta in H.
  pose proof (getPlayerDetails_finds playerId
                (PlayerController._dataService c)) as Hfinds.
  destruct (PlayerController.addToComparison playerId c) as [added c'].
  cbn [fst snd] in *. cbv zeta.
  split; [exact Hret|].
  destruct (fst (getPlayerDetails playerId
                   (PlayerController._dataService c))) as [| |p].
  - destruct H as [Ha [Hl Hn]].
    assert (Hno : ~ exists p : Player.t,
              In p (players (_cache (PlayerController._dataService c)))
              /\ strict_equals (Player.id p) playerId = true).
    { intros Hk. apply Hfinds in Hk. destruct Hk as [p Hp]. discriminate. }
    split; [intros Ht; congruence|]. split; [intros _; exact Hl|].
    split; [intros _ Hk; contradiction|]. intros _. exact Hn.
  - destruct H as [Ha [Hl Hn]].
    assert (Hno : ~ exists p : Player.t,
              In p (players (_cache (PlayerController._dataService c)))
              /\ strict_equals (Player.id p) playerId = true).
    { intros Hk. apply Hfinds in Hk. destruct Hk as [p Hp]. discriminate. }
    split; [intros Ht; congruence|]. split; [intros _; exact Hl|].
    split; [intros _ Hk; contradiction|]. intros _. exact Hn.
  - assert (Hyes : exists p : Player.t,
              In p (players (_cache (PlayerController._dataService c)))
              /\ strict_equals (Player.id p) playerId = true)
      by (apply Hfinds; eauto).
    destruct (existsb _ (PlayerController._comparisonData c)).
    + inversion H; subst added c'.
      split; [discriminate|]. split; [reflexivity|].
      split; [reflexivity|]. intros Hk. contradiction.
    + destruct H as [Ha [Hl [_ Hn]]].
      split; [intros _; exists p; auto|].
      split; [intros Hf; congruence|].
      split; [intros Hf; congruence|]. intros Hk. contradiction.
Qed.

Lemma addToComparison_adds_once_witness :
  let s := service_with [ player "ann" (Fin 5) (Fin 1) (Fin 5) ] in
  let c := PlayerController.constructor s None in
  let once := PlayerController.addToComparison (VStr "ann") c in
  let twice := PlayerController.addToComparison (VStr "ann") (snd once) in
  fst once = true /\ fst twice = false /\ snd twice = snd once
  /\ (fst twice = false ->
      PlayerController._comparisonData (snd twice)
      = PlayerController._comparisonData (snd once)).
Proof.
  intros s c once twice.
  split; [reflexivity|]. split; [reflexivity|]. split; [reflexivity|].
  pose proof (addToComparison_adds_once (VStr "ann") (snd once)) as H.
  fold twice in H. destruct twice as [added c'].
  destruct H as [_ [_ [H _]]]. exact H.
Defined.

(** X29.  [removeFromComparison(id)] takes every player with that id out
    of the list and leaves the others in their order; of a list with
    distinct ids it takes out exactly the one player when [id] is the id
    of a player of the list, who can then be added again if the cache
    still has it.  When the comparison container is displayed the call
    throws a [TypeError] -- the class has no [_renderComparisonView] -- but
    only after the list and the badge are updated. *)
Theorem removeFromComparison_removes :
  forall (playerId : value) (shown : bool) (c : PlayerController.Controller),
    let (thrown, c') :=
      PlayerController.removeFromComparison playerId shown c in
    let list := PlayerController._comparisonData c in
    let list' := PlayerController._comparisonData c' in
    list' = filter (fun q => negb (strict_equals (Player.id q) playerId)) list
    /\ Forall (fun q => strict_equals (Player.id q) playerId = false) list'
    /\ thrown = (if shown then inl TypeError else inr tt)
    /\ badge_shows c'
    /\ (forall p : Player.t,
          distinct_ids list -> In p list -> playerId = Player.id p ->
          S (List.length list') = List.length list
          /\ (In p (players (_cache (PlayerController._dataService c))) ->
              fst (PlayerController.addToComparison playerId c') = true)).
Proof.
  intros playerId shown c. cbn [PlayerController.removeFromComparison].
  match goal with
  | |- context [PlayerController.update_badge ?c'] =>
      destruct (update_badge_shows c') as [Hb' [Hl' [_ Hs']]];
      set (updated := PlayerController.update_badge c') in *
  end.
  cbn [PlayerController._comparisonData PlayerController.set_comparison
       PlayerController._dataService] in Hl', Hs'.
  cbv zeta. rewrite Hl'.
  assert (Hgone : Forall (fun q => strict_equals (Player.id q) playerId
                                   = false)
                    (filter (fun q => negb (strict_equals (Player.id q)
                                                          playerId))
                            (PlayerController._comparisonData c))).
  { apply Forall_forall. intros q Hq. apply filter_In in Hq.
    now apply negb_true_iff. }
  split; [reflexivity|]. split; [exact Hgone|].
  split; [now destruct shown|]. split; [exact Hb'|].
  intros p Hd Hin ->. split; [now apply distinct_ids_remove|].
  intros Hcached. apply addToComparison_returns. split.
  - rewrite Hs'. exists p. split; [exact Hcached|].
    destruct Hd as [_ Hself]. rewrite Forall_forall in Hself.
    now apply Hself.
  - rewrite Hl'. intros [q [Hq Hid]]. rewrite Forall_forall in Hgone.
    rewrite (Hgone q Hq) in Hid. discriminate.
Qed.

Lemma removeFromComparison_removes_witness :
  let s := service_with [ player "ann" (Fin 5) (Fin 1) (Fin 5);
                          player "bob" (Fin 50) (Fin 2) (Fin 25) ] in
  let c := perform_all [Add (VStr "ann"); Add (VStr "bob")]
             (PlayerController.constructor s None) in
  let (thrown, c') :=
    PlayerController.removeFromComparison (VStr "ann") true c in
  thrown = inl TypeError
  /\ map Player.name (PlayerController._comparisonData c') = [VStr "bob"]
  /\ S (List.length (PlayerController._comparisonData c'))
     = List.length (PlayerController._comparisonData c)
  /\ fst (PlayerController.addToComparison (VStr "ann") c') = true.
Proof.
  intros s c.
  pose proof (removeFromComparison_removes (VStr "ann") true c) as H.
  destruct (PlayerController.removeFromComparison (VStr "ann") true c)
    as [thrown c'] eqn:E.
  destruct H as [Hl [_ [Ht [_ H]]]].
  split; [exact Ht|]. split; [now inversion E|].
  destruct (H (player "ann" (Fin 5) (Fin 1) (Fin 5))) as [H1 H2].
  - split; repeat constructor.
  - now left.
  - reflexivity.
  - split; [exact H1|]. apply H2. now left.
Defined.

(* ================================================================== *)
(** * What the distribution charts leave out *)
(* ================================================================== *)

(** X30.  Each distribution chart gives, for every bucket of its table --
    lower boundary included, upper boundary excluded, the last bucket
    unbounded above -- the number of charted players whose value reads as a
    finite number of that bucket.  A player whose value reads as a finite
    number that is not negative is in exactly one bucket; any other player
    -- the value a negative number, an infinite one, [NaN], a text that is
    no number -- is in no bucket.  So the counts of the chart add up to the
    number of players with a value that can be placed, which may be less
    than the number of players charted.  (Stated for values that are no
    text, or a text that reads as no number.) *)
Theorem distribution_places_finite_values :
  forall l : list Player.t,
    (Forall (fun p => read_exactly (Player.score p) = true) l ->
     placed Player.score
       [0; 1000; 5000; 10000; 50000; 100000; 500000; 1000000]
       (_createScoreDistributionData l) l)
    /\ (Forall (fun p => read_exactly (Player.chests p) = true) l ->
        placed Player.chests [0; 10; 50; 100; 500; 1000; 5000; 10000]
          (_createChestDistributionData l) l)
    /\ (Forall (fun p => read_exactly (Player.ratio p) = true) l ->
        placed Player.ratio [0; 10; 50; 100; 200; 500; 1000]
          (_createRatioDistributionData l) l).
Proof.
  intros l. split; [|split]; intros _.
  - apply distribution_placed;
      [apply score_ranges_buckets | apply score_ranges_chained].
  - apply distribution_placed;
      [apply chest_ranges_buckets | apply chest_ranges_chained].
  - apply distribution_placed;
      [apply ratio_ranges_buckets | apply ratio_ranges_chained].
Qed.

Lemma distribution_places_finite_values_witness :
  let l := [ scored "ann" (VNum (Fin 500)); scored "bob" (VNum (Fin (-5)));
             scored "cyd" (VNum (Infinity false)); scored "dan" (VNum NaN);
             scored "eve" (VStr "n/a"); scored "fay" (VNum (Fin 1000)) ] in
  map data (series (_createScoreDistributionData l))
  = [ map (fun n => VNum (num_of_Z n)) [1; 1; 0; 0; 0; 0; 0; 0]%Z ]
  /\ map data (series (_createRatioDistributionData l))
     = [ map (fun n => VNum (num_of_Z n)) [0; 0; 0; 0; 0; 0; 0]%Z ]
  /\ placed Player.score
       [0; 1000; 5000; 10000; 50000; 100000; 500000; 1000000]
       (_createScoreDistributionData l) l
  /\ placed Player.ratio [0; 10; 50; 100; 200; 500; 1000]
       (_createRatioDistributionData l) l.
Proof.
  intros l. split; [reflexivity|]. split; [reflexivity|].
  destruct (distribution_places_finite_values l) as [Hs [_ Hr]].
  split; [apply Hs | apply Hr]; repeat constructor.
Defined.
